(** * SoundGuard AI: the processing orchestration layer

    A shallow embedding of the Express controller
    (controllers/audioController.js), the Mongoose model (models/Audio.js)
    and the Python gateway (services/pythonService.js), with the properties
    of the orchestration layer stated and proved over it.

    Conventions of the embedding:
    - JavaScript values are [JsVal]; numbers are rationals ([Q]); strings are
      [string] (ASCII: [toLowerCase] and [trim] act on ASCII letters and
      ASCII white space).
    - [null] and [undefined] stored in a typed schema path are both [None].
    - Asynchronous handlers are programs over an effect signature ([Prog]);
      they are run either alone ([run]) or interleaved in a pool ([pstep]).
    - Of Mongoose the embedding has the casts, the validators of the schema,
      the marks of the modified paths (an assignment to a loaded document
      marks its path when it changes the value), [save()] as an insert or
      as an update of the marked paths, and the minimizing of what is
      written.
    - Library behaviour that the repository does not define (Node's [path],
      JavaScript's string/number conversions, ObjectId parsing, the text of
      library error messages) is a parameter, [Platform]. *)

From Stdlib Require Import QArith Qround Lqa Ascii String.
From stdpp Require Import gmap strings list fin_maps pretty.

Local Open Scope string_scope.
Local Open Scope list_scope.

(** ** JavaScript values *)

#[warnings="-register-all"]
Inductive JsVal : Type :=
| JUndefined
| JNull
| JBool (b : bool)
| JNum (q : Q)
| JStr (s : string)
| JArr (items : list JsVal)
| JObj (props : list (string * JsVal)).

(** [!!v] in JavaScript: [undefined], [null], [false], [0] and [''] are
    falsy; arrays and objects are truthy. *)
Definition truthy (v : JsVal) : bool :=
  match v with
  | JUndefined | JNull => false
  | JBool b => b
  | JNum q => negb (Qeq_bool q 0)
  | JStr s => negb (String.eqb s "")
  | JArr _ | JObj _ => true
  end.

(** [a || b] *)
Definition js_or (a b : JsVal) : JsVal := if truthy a then a else b.

(** [v == null] *)
Definition nullish (v : JsVal) : bool :=
  match v with JUndefined | JNull => true | _ => false end.

(** [a ?? b] *)
Definition js_coalesce (a b : JsVal) : JsVal := if nullish a then b else a.

Fixpoint assoc (k : string) (l : list (string * JsVal)) : JsVal :=
  match l with
  | [] => JUndefined
  | (k', v) :: l' => if String.eqb k k' then v else assoc k l'
  end.

(** [v.k] for the property names the controller reads: a [TypeError]
    ([None]) on [null] and [undefined], [undefined] on primitives and
    arrays, the property on objects. *)
Definition prop (k : string) (v : JsVal) : option JsVal :=
  match v with
  | JUndefined | JNull => None
  | JObj ps => Some (assoc k ps)
  | _ => Some JUndefined
  end.

(** [v === s] for a string [s] *)
Definition is_string (s : string) (v : JsVal) : bool :=
  match v with JStr s' => String.eqb s' s | _ => false end.

(** [v?.k] *)
Definition opt_prop (k : string) (v : JsVal) : JsVal :=
  match prop k v with Some x => x | None => JUndefined end.

(** ** Strings *)

Definition is_upper (c : ascii) : bool :=
  let n := N_of_ascii c in ((65 <=? n) && (n <=? 90))%N.

Definition lower_ascii (c : ascii) : ascii :=
  if is_upper c then ascii_of_N (N_of_ascii c + 32) else c.

(** [s.toLowerCase()] *)
Fixpoint toLowerCase (s : string) : string :=
  match s with
  | EmptyString => EmptyString
  | String c s' => String (lower_ascii c) (toLowerCase s')
  end.

(** No character of [s] is an upper-case letter. *)
Fixpoint all_lower (s : string) : bool :=
  match s with
  | EmptyString => true
  | String c s' => negb (is_upper c) && all_lower s'
  end.

Definition is_space (c : ascii) : bool :=
  let n := N_of_ascii c in
  ((n =? 32) || ((9 <=? n) && (n <=? 13)))%N.

Fixpoint trim_left (s : string) : string :=
  match s with
  | EmptyString => EmptyString
  | String c s' => if is_space c then trim_left s' else s
  end.

(** Drops the white space at the end of [s]. *)
Fixpoint trim_right (s : string) : string :=
  match s with
  | EmptyString => EmptyString
  | String c s' =>
      match trim_right s' with
      | EmptyString => if is_space c then EmptyString else String c EmptyString
      | r => String c r
      end
  end.

(** [s.trim()] *)
Definition trim (s : string) : string := trim_right (trim_left s).

(** [s.replace('.', '')]: removes the first dot only. *)
Fixpoint remove_first_dot (s : string) : string :=
  match s with
  | EmptyString => EmptyString
  | String c s' => if Ascii.eqb c "." then s' else String c (remove_first_dot s')
  end.

(** [s] occurs inside [t]. *)
Definition mentions (t s : string) : Prop := exists pre post, t = pre +:+ s +:+ post.

(** ** The platform

    What the repository takes from Node, JavaScript and its libraries
    without defining it. *)

Abbreviation ObjectId := string (only parsing).

Inductive Path :=
| PFilename | POriginalPath | PEnhancedPath | PFormat | PDuration
| PSampleRate | PChannels | PFileSize | PBitrate
| PEnhanced | PEnhancementModel | PAqiScore | PAuthenticityScore
| PTamperingDetected
| PResEnhancement | PResExplainability | PResAqi | PResForensics.

#[global] Instance Path_eq_dec : EqDecision Path.
Proof. solve_decision. Defined.

(** An axios rejection: [err.code], [err.response] (status and body; axios
    rejects on a response only when the status is not 2xx) and
    [err.message]. *)
Record AxiosError := {
  ax_code : option string;
  ax_response : option (N * JsVal);
  ax_message : string;
}.

Inductive JsError :=
| Error (msg : string)                 (* new Error(msg) *)
| AxiosFailure (e : AxiosError)        (* an axios rejection, as thrown *)
| TypeError (what : string)            (* raised by the runtime *)
| ValidationError (paths : list Path)  (* Mongoose: save() rejected *)
| DuplicateKey (id : ObjectId)         (* MongoDB E11000 on insert *)
| DocumentNotFound (id : ObjectId)     (* Mongoose: nothing to update *)
| QueryCastError (value : JsVal).      (* Mongoose: findById cannot cast its argument *)

Record Platform := {
  (** [path.extname] and [path.basename] *)
  path_extname : string -> string;
  path_basename : string -> string;
  (** [String(n)] for a number *)
  number_to_string : Q -> string;
  (** [String(v)] for an array or an object *)
  composite_to_string : JsVal -> string;
  (** Mongoose's number cast of a non-empty string, an array or an
      object ([None]: CastError) *)
  to_number : JsVal -> option Q;
  (** The ObjectId that [v] denotes: [v] passes [ObjectId.isValid] and
      [findById(v)] casts it to this ObjectId *)
  to_object_id : JsVal -> option ObjectId;
  (** [v] passes [ObjectId.isValid] and [findById(v)] cannot cast it (a
      number, which isValid takes for a creation time) *)
  valid_uncastable : JsVal -> bool;
  (** [parseFloat(v)] and [parseInt(v, 10)] ([None]: NaN) *)
  parse_float : JsVal -> option Q;
  parse_int : JsVal -> option Q;
  (** [n.toFixed(digits)] *)
  to_fixed : Q -> nat -> string;
  (** [err.message] of an error raised by the runtime or a library *)
  lib_message : JsError -> string;
  (** [process.env.PYTHON_SERVICE_URL] *)
  env_PYTHON_SERVICE_URL : option string;
}.

(** ** The Audio model (models/Audio.js) *)

(** processingSchema *)
Record Processing := {
  enhanced : bool;
  enhancementModel : option string;
  aqiScore : option Q;
  authenticityScore : option Q;
  tamperingDetected : option bool;
}.

(** resultsSchema: [Schema.Types.Mixed] entries *)
Record Results := {
  enhancement : JsVal;
  explainability : JsVal;
  aqi : JsVal;
  forensics : JsVal;
}.

(** audioSchema (the time stamps are not modelled) *)
Record Audio := {
  filename : option string;
  originalPath : option string;
  enhancedPath : option string;
  format : option string;
  duration : option Q;
  sampleRate : option Q;
  channels : option Q;
  fileSize : option Q;
  bitrate : option Q;
  processing : Processing;
  results : Results;
}.

(** The schema defaults: [processing: () => ({})], [results: () => ({})]. *)
Definition default_processing : Processing :=
  {| enhanced := false; enhancementModel := None; aqiScore := None;
     authenticityScore := None; tamperingDetected := None |}.

Definition default_results : Results :=
  {| enhancement := JNull; explainability := JNull; aqi := JNull;
     forensics := JNull |}.

Definition default_audio : Audio :=
  {| filename := None; originalPath := None; enhancedPath := None;
     format := None; duration := None; sampleRate := None; channels := None;
     fileSize := None; bitrate := None;
     processing := default_processing; results := default_results |}.

(** A document in memory: the stored fields, whether it was built by
    [new Audio(...)], the paths marked as modified since it was built or
    loaded, and the paths whose assignment failed to cast. *)
Record Document := {
  _id : ObjectId;
  isNew : bool;
  doc : Audio;
  modified : list Path;
  invalid : list Path;
}.

Definition new_document (id : ObjectId) : Document :=
  {| _id := id; isNew := true; doc := default_audio; modified := [];
     invalid := [] |}.

(** A document as [findById] hydrates it. *)
Definition loaded (id : ObjectId) (a : Audio) : Document :=
  {| _id := id; isNew := false; doc := a; modified := []; invalid := [] |}.

(** *** Writing one path of the stored fields *)

Definition with_processing (f : Processing -> Processing) (a : Audio) : Audio :=
  {| filename := filename a; originalPath := originalPath a;
     enhancedPath := enhancedPath a; format := format a;
     duration := duration a; sampleRate := sampleRate a;
     channels := channels a; fileSize := fileSize a; bitrate := bitrate a;
     processing := f (processing a); results := results a |}.

Definition with_results (f : Results -> Results) (a : Audio) : Audio :=
  {| filename := filename a; originalPath := originalPath a;
     enhancedPath := enhancedPath a; format := format a;
     duration := duration a; sampleRate := sampleRate a;
     channels := channels a; fileSize := fileSize a; bitrate := bitrate a;
     processing := processing a; results := f (results a) |}.

Definition put_filename (v : option string) (a : Audio) : Audio :=
  {| filename := v; originalPath := originalPath a;
     enhancedPath := enhancedPath a; format := format a;
     duration := duration a; sampleRate := sampleRate a;
     channels := channels a; fileSize := fileSize a; bitrate := bitrate a;
     processing := processing a; results := results a |}.

Definition put_originalPath (v : option string) (a : Audio) : Audio :=
  {| filename := filename a; originalPath := v;
     enhancedPath := enhancedPath a; format := format a;
     duration := duration a; sampleRate := sampleRate a;
     channels := channels a; fileSize := fileSize a; bitrate := bitrate a;
     processing := processing a; results := results a |}.

Definition put_enhancedPath (v : option string) (a : Audio) : Audio :=
  {| filename := filename a; originalPath := originalPath a;
     enhancedPath := v; format := format a;
     duration := duration a; sampleRate := sampleRate a;
     channels := channels a; fileSize := fileSize a; bitrate := bitrate a;
     processing := processing a; results := results a |}.

Definition put_format (v : option string) (a : Audio) : Audio :=
  {| filename := filename a; originalPath := originalPath a;
     enhancedPath := enhancedPath a; format := v;
     duration := duration a; sampleRate := sampleRate a;
     channels := channels a; fileSize := fileSize a; bitrate := bitrate a;
     processing := processing a; results := results a |}.

Definition put_duration (v : option Q) (a : Audio) : Audio :=
  {| filename := filename a; originalPath := originalPath a;
     enhancedPath := enhancedPath a; format := format a;
     duration := v; sampleRate := sampleRate a;
     channels := channels a; fileSize := fileSize a; bitrate := bitrate a;
     processing := processing a; results := results a |}.

Definition put_sampleRate (v : option Q) (a : Audio) : Audio :=
  {| filename := filename a; originalPath := originalPath a;
     enhancedPath := enhancedPath a; format := format a;
     duration := duration a; sampleRate := v;
     channels := channels a; fileSize := fileSize a; bitrate := bitrate a;
     processing := processing a; results := results a |}.

Definition put_channels (v : option Q) (a : Audio) : Audio :=
  {| filename := filename a; originalPath := originalPath a;
     enhancedPath := enhancedPath a; format := format a;
     duration := duration a; sampleRate := sampleRate a;
     channels := v; fileSize := fileSize a; bitrate := bitrate a;
     processing := processing a; results := results a |}.

Definition put_fileSize (v : option Q) (a : Audio) : Audio :=
  {| filename := filename a; originalPath := originalPath a;
     enhancedPath := enhancedPath a; format := format a;
     duration := duration a; sampleRate := sampleRate a;
     channels := channels a; fileSize := v; bitrate := bitrate a;
     processing := processing a; results := results a |}.

Definition put_bitrate (v : option Q) (a : Audio) : Audio :=
  {| filename := filename a; originalPath := originalPath a;
     enhancedPath := enhancedPath a; format := format a;
     duration := duration a; sampleRate := sampleRate a;
     channels := channels a; fileSize := fileSize a; bitrate := v;
     processing := processing a; results := results a |}.

Definition put_enhanced (v : bool) : Audio -> Audio :=
  with_processing (fun p =>
    {| enhanced := v; enhancementModel := enhancementModel p;
       aqiScore := aqiScore p; authenticityScore := authenticityScore p;
       tamperingDetected := tamperingDetected p |}).

Definition put_enhancementModel (v : option string) : Audio -> Audio :=
  with_processing (fun p =>
    {| enhanced := enhanced p; enhancementModel := v;
       aqiScore := aqiScore p; authenticityScore := authenticityScore p;
       tamperingDetected := tamperingDetected p |}).

Definition put_aqiScore (v : option Q) : Audio -> Audio :=
  with_processing (fun p =>
    {| enhanced := enhanced p; enhancementModel := enhancementModel p;
       aqiScore := v; authenticityScore := authenticityScore p;
       tamperingDetected := tamperingDetected p |}).

Definition put_authenticityScore (v : option Q) : Audio -> Audio :=
  with_processing (fun p =>
    {| enhanced := enhanced p; enhancementModel := enhancementModel p;
       aqiScore := aqiScore p; authenticityScore := v;
       tamperingDetected := tamperingDetected p |}).

Definition put_tamperingDetected (v : option bool) : Audio -> Audio :=
  with_processing (fun p =>
    {| enhanced := enhanced p; enhancementModel := enhancementModel p;
       aqiScore := aqiScore p; authenticityScore := authenticityScore p;
       tamperingDetected := v |}).

Definition put_res_enhancement (v : JsVal) : Audio -> Audio :=
  with_results (fun r =>
    {| enhancement := v; explainability := explainability r; aqi := aqi r;
       forensics := forensics r |}).

Definition put_res_explainability (v : JsVal) : Audio -> Audio :=
  with_results (fun r =>
    {| enhancement := enhancement r; explainability := v; aqi := aqi r;
       forensics := forensics r |}).

Definition put_res_aqi (v : JsVal) : Audio -> Audio :=
  with_results (fun r =>
    {| enhancement := enhancement r; explainability := explainability r;
       aqi := v; forensics := forensics r |}).

Definition put_res_forensics (v : JsVal) : Audio -> Audio :=
  with_results (fun r =>
    {| enhancement := enhancement r; explainability := explainability r;
       aqi := aqi r; forensics := v |}).

(** *** The value at a path *)

Definition js_str (o : option string) : JsVal :=
  match o with Some s => JStr s | None => JNull end.

Definition js_num (o : option Q) : JsVal :=
  match o with Some q => JNum q | None => JNull end.

Definition js_bool (o : option bool) : JsVal :=
  match o with Some b => JBool b | None => JNull end.

(** [doc.get(path)] *)
Definition value_at (p : Path) (a : Audio) : JsVal :=
  match p with
  | PFilename => js_str (filename a)
  | POriginalPath => js_str (originalPath a)
  | PEnhancedPath => js_str (enhancedPath a)
  | PFormat => js_str (format a)
  | PDuration => js_num (duration a)
  | PSampleRate => js_num (sampleRate a)
  | PChannels => js_num (channels a)
  | PFileSize => js_num (fileSize a)
  | PBitrate => js_num (bitrate a)
  | PEnhanced => JBool (enhanced (processing a))
  | PEnhancementModel => js_str (enhancementModel (processing a))
  | PAqiScore => js_num (aqiScore (processing a))
  | PAuthenticityScore => js_num (authenticityScore (processing a))
  | PTamperingDetected => js_bool (tamperingDetected (processing a))
  | PResEnhancement => enhancement (results a)
  | PResExplainability => explainability (results a)
  | PResAqi => aqi (results a)
  | PResForensics => forensics (results a)
  end.

(** The paths of the Results entries. *)
Definition is_result (p : Path) : bool :=
  match p with
  | PResEnhancement | PResExplainability | PResAqi | PResForensics => true
  | _ => false
  end.

(** Mongoose's [deepEqual] on the values of a path: the same value, an
    array with equal elements in the same order, an object with the same
    properties, equal, in the same order. *)
Fixpoint deepEqual (x y : JsVal) : bool :=
  match x, y with
  | JUndefined, JUndefined | JNull, JNull => true
  | JBool a, JBool b => Bool.eqb a b
  | JNum a, JNum b => (Qnum a =? Qnum b)%Z && (Qden a =? Qden b)%positive
  | JStr a, JStr b => String.eqb a b
  | JArr xs, JArr ys =>
      (fix items (xs ys : list JsVal) : bool :=
         match xs, ys with
         | [], [] => true
         | x :: xs, y :: ys => deepEqual x y && items xs ys
         | _, _ => false
         end) xs ys
  | JObj ps, JObj qs =>
      (fix props (ps qs : list (string * JsVal)) : bool :=
         match ps, qs with
         | [], [] => true
         | (k, x) :: ps, (l, y) :: qs => String.eqb k l && deepEqual x y && props ps qs
         | _, _ => false
         end) ps qs
  | _, _ => false
  end.

(** The number of nodes of a value, the measure of the inductions on
    values. *)
Fixpoint size_of (v : JsVal) : nat :=
  match v with
  | JArr xs =>
      S ((fix items (l : list JsVal) : nat :=
            match l with
            | [] => 0
            | x :: l => size_of x + items l
            end) xs)
  | JObj ps =>
      S ((fix props (l : list (string * JsVal)) : nat :=
            match l with
            | [] => 0
            | (_, x) :: l => size_of x + props l
            end) ps)
  | _ => 1
  end.

(** *** Casting and assignment

    Assigning to a schema path casts the value to the path's type; a value
    that does not cast is recorded and fails the next validation. The
    assignment marks the path as modified on a new document; on a loaded
    one it does so when the value differs from the one the document
    holds (Document.prototype.$__shouldModify), and [save()] writes the
    marked paths only. *)

Inductive Cast (A : Type) :=
| CastOk (v : option A)
| CastError.
Arguments CastOk {A} v.
Arguments CastError {A}.

Section Casting.
Context (pf : Platform).

(** mongoose/lib/cast/number.js *)
Definition castNumber (v : JsVal) : Cast Q :=
  match v with
  | JUndefined | JNull => CastOk None
  | JNum q => CastOk (Some q)
  | JBool b => CastOk (Some (if b then 1 else 0)%Q)
  | JStr "" => CastOk None
  | _ => match to_number pf v with
         | Some q => CastOk (Some q)
         | None => CastError
         end
  end.

(** mongoose/lib/cast/string.js *)
Definition castString (v : JsVal) : Cast string :=
  match v with
  | JUndefined | JNull => CastOk None
  | JStr s => CastOk (Some s)
  | JNum q => CastOk (Some (number_to_string pf q))
  | JBool b => CastOk (Some (if b then "true" else "false"))
  | JArr _ => CastError
  | JObj ps => match assoc "_id" ps with
               | JStr s => CastOk (Some s)
               | _ => CastError
               end
  end.

(** A string path declared with [trim: true]. *)
Definition castTrimmed (v : JsVal) : Cast string :=
  match castString v with
  | CastOk (Some s) => CastOk (Some (trim s))
  | c => c
  end.
End Casting.

(** mongoose/lib/cast/boolean.js *)
Definition castBoolean (v : JsVal) : Cast bool :=
  match v with
  | JUndefined | JNull => CastOk None
  | JBool b => CastOk (Some b)
  | JStr s =>
      if (String.eqb s "true" || String.eqb s "1" || String.eqb s "yes")%bool
      then CastOk (Some true)
      else if (String.eqb s "false" || String.eqb s "0" || String.eqb s "no")%bool
      then CastOk (Some false)
      else CastError
  | JNum q =>
      if Qeq_bool q 1 then CastOk (Some true)
      else if Qeq_bool q 0 then CastOk (Some false)
      else CastError
  | JArr _ | JObj _ => CastError
  end.

(** The modified paths of [d] once path [p] has been assigned, [a] being
    the fields after the assignment. *)
Definition marked (p : Path) (a : Audio) (d : Document) : list Path :=
  if isNew d || negb (deepEqual (value_at p a) (value_at p (doc d)))
  then p :: modified d
  else modified d.

(** Assignment to a path that needs no cast ([Mixed], or a literal of the
    path's type). *)
Definition assign_raw (p : Path) (put : Audio -> Audio) (d : Document) : Document :=
  {| _id := _id d; isNew := isNew d; doc := put (doc d);
     modified := marked p (put (doc d)) d; invalid := invalid d |}.

(** [this.<path> = v] *)
Definition assign {A} (p : Path) (c : Cast A) (put : option A -> Audio -> Audio)
    (d : Document) : Document :=
  match c with
  | CastOk v => assign_raw p (put v) d
  | CastError =>
      {| _id := _id d; isNew := isNew d; doc := doc d;
         modified := modified d; invalid := p :: invalid d |}
  end.

(** The marks of a loaded document are exact: a path is marked exactly
    when its value differs from the one in the record [a] the document
    was loaded from. *)
Definition tracks (a : Audio) (d : Document) : Prop :=
  isNew d = false /\ forall p, p ∈ modified d <-> value_at p (doc d) <> value_at p a.

(** Two documents agree on their marks, on their cast failures and on
    the values at the paths [P]. *)
Definition agree (P : list Path) (d d' : Document) : Prop :=
  isNew d = isNew d' /\ modified d = modified d' /\ invalid d = invalid d' /\
  forall p, p ∈ P -> value_at p (doc d) = value_at p (doc d').

(** *** Instance methods, up to their call of [this.save()] *)

Section Methods.
Context (pf : Platform).

(** audioSchema.methods.markEnhanced *)
Definition markEnhanced (enhancedPath modelName metrics : JsVal) (d : Document)
    : Document :=
  let d := assign PEnhancedPath (castTrimmed pf enhancedPath) put_enhancedPath d in
  let d := assign_raw PEnhanced (put_enhanced true) d in
  let d := assign PEnhancementModel (castString pf modelName) put_enhancementModel d in
  assign_raw PResEnhancement (put_res_enhancement (js_or metrics JNull)) d.

(** audioSchema.methods.saveAQI *)
Definition saveAQI (score detailedMetrics : JsVal) (d : Document) : Document :=
  let d := assign PAqiScore (castNumber pf score) put_aqiScore d in
  assign_raw PResAqi (put_res_aqi (js_or detailedMetrics JNull)) d.

(** audioSchema.methods.saveForensics *)
Definition saveForensics (authenticityScore tampered details : JsVal)
    (d : Document) : Document :=
  let d := assign PAuthenticityScore (castNumber pf authenticityScore)
             put_authenticityScore d in
  let d := assign PTamperingDetected (castBoolean tampered)
             put_tamperingDetected d in
  assign_raw PResForensics (put_res_forensics (js_or details JNull)) d.
End Methods.

(** audioSchema.methods.saveExplainability *)
Definition saveExplainability (data : JsVal) (d : Document) : Document :=
  assign_raw PResExplainability (put_res_explainability (js_or data JNull)) d.

(** *** Validation *)

Definition FORMATS : list string := ["mp3"; "wav"; "flac"; "ogg"; "m4a"; "aac"].
Definition MODELS : list string := ["DEMUCS"; "CleanUNet"; "FullSubNet+"].

(** [enum: [..., null]] *)
Definition enum_ok (values : list string) (v : option string) : bool :=
  match v with
  | None => true
  | Some s => existsb (String.eqb s) values
  end.

(** [min] *)
Definition min_ok (lo : Q) (v : option Q) : bool :=
  match v with None => true | Some q => Qle_bool lo q end.

(** [max] *)
Definition max_ok (hi : Q) (v : option Q) : bool :=
  match v with None => true | Some q => Qle_bool q hi end.

(** [required] on a string path *)
Definition required_ok (v : option string) : bool :=
  match v with None => false | Some s => negb (String.eqb s "") end.

(** The validators the schema declares on each path. *)
Definition path_ok (a : Audio) (p : Path) : bool :=
  match p with
  | PFilename => required_ok (filename a)
  | PFormat => enum_ok FORMATS (format a)
  | PDuration => min_ok 0 (duration a)
  | PSampleRate => min_ok 0 (sampleRate a)
  | PChannels => min_ok 1 (channels a) && max_ok 8 (channels a)
  | PFileSize => min_ok 0 (fileSize a)
  | PBitrate => min_ok 0 (bitrate a)
  | PEnhancementModel => enum_ok MODELS (enhancementModel (processing a))
  | PAqiScore =>
      min_ok 0 (aqiScore (processing a)) && max_ok 100 (aqiScore (processing a))
  | PAuthenticityScore =>
      min_ok 0 (authenticityScore (processing a))
      && max_ok 100 (authenticityScore (processing a))
  | _ => true
  end.

Definition all_paths : list Path :=
  [PFilename; POriginalPath; PEnhancedPath; PFormat; PDuration; PSampleRate;
   PChannels; PFileSize; PBitrate; PEnhanced; PEnhancementModel; PAqiScore;
   PAuthenticityScore; PTamperingDetected; PResEnhancement;
   PResExplainability; PResAqi; PResForensics].

(** A new document is validated whole, a loaded one on its modified paths. *)
Definition validated_paths (d : Document) : list Path :=
  if isNew d then all_paths else modified d.

Definition validation_errors (d : Document) : list Path :=
  invalid d ++ filter (fun p => negb (path_ok (doc d) p)) (validated_paths d).

(** *** The pre-save hook: keep format lowercase *)
Definition preSave (d : Document) : Document :=
  match format (doc d) with
  | Some s =>
      if String.eqb s "" then d
      else assign_raw PFormat (put_format (Some (toLowerCase s))) d
  | None => d
  end.

(** *** Writing to the collection *)

(** The stored value of path [p] is taken from [src]. *)
Definition copy_path (src : Audio) (p : Path) (dst : Audio) : Audio :=
  match p with
  | PFilename => put_filename (filename src) dst
  | POriginalPath => put_originalPath (originalPath src) dst
  | PEnhancedPath => put_enhancedPath (enhancedPath src) dst
  | PFormat => put_format (format src) dst
  | PDuration => put_duration (duration src) dst
  | PSampleRate => put_sampleRate (sampleRate src) dst
  | PChannels => put_channels (channels src) dst
  | PFileSize => put_fileSize (fileSize src) dst
  | PBitrate => put_bitrate (bitrate src) dst
  | PEnhanced => put_enhanced (enhanced (processing src)) dst
  | PEnhancementModel => put_enhancementModel (enhancementModel (processing src)) dst
  | PAqiScore => put_aqiScore (aqiScore (processing src)) dst
  | PAuthenticityScore => put_authenticityScore (authenticityScore (processing src)) dst
  | PTamperingDetected => put_tamperingDetected (tamperingDetected (processing src)) dst
  | PResEnhancement => put_res_enhancement (enhancement (results src)) dst
  | PResExplainability => put_res_explainability (explainability (results src)) dst
  | PResAqi => put_res_aqi (aqi (results src)) dst
  | PResForensics => put_res_forensics (forensics (results src)) dst
  end.

(** [$set] of the modified paths on the stored document. *)
Definition write_paths (ps : list Path) (src cur : Audio) : Audio :=
  foldr (copy_path src) cur ps.

Definition clean (d : Document) : Document :=
  {| _id := _id d; isNew := false; doc := doc d; modified := []; invalid := [] |}.

(** *** Minimizing

    The schemas keep Mongoose's default [minimize: true]: empty objects
    are not stored. A path left without a value reads back as its
    default, [null] for the four Results entries. *)

(** mongoose/lib/helpers/minimize.js, which [save()] applies to the values
    of an update: the properties of a plain object, without those that are
    [undefined] or plain objects left with no property; arrays are not
    looked into. *)
Fixpoint minimize (v : JsVal) : list (string * JsVal) :=
  match v with
  | JObj ps =>
      (fix props (l : list (string * JsVal)) : list (string * JsVal) :=
         match l with
         | [] => []
         | (k, x) :: rest =>
             match x with
             | JUndefined => props rest
             | JObj _ =>
                 match minimize x with
                 | [] => props rest
                 | qs => (k, JObj qs) :: props rest
                 end
             | _ => (k, x) :: props rest
             end
         end) ps
  | _ => []
  end.

(** What an update leaves at a Mixed path it sets to [v]: a plain object
    minimized, the path unset ([null] when read) if nothing is left of
    it; any other value as it is. *)
Definition store_mixed (v : JsVal) : JsVal :=
  match v with
  | JObj _ =>
      match minimize v with
      | [] => JNull
      | qs => JObj qs
      end
  | _ => v
  end.

(** mongoose/lib/helpers/clone.js with [minimize], which [save()] applies
    to a new document: as above, but arrays are looked into, and an object
    that is an element of an array stays even when empty ([child]).
    [JUndefined] stands for a value that is dropped. *)
Fixpoint clone (child : bool) (v : JsVal) : JsVal :=
  match v with
  | JObj ps =>
      match
        (fix props (l : list (string * JsVal)) : list (string * JsVal) :=
           match l with
           | [] => []
           | (k, x) :: rest =>
               match clone false x with
               | JUndefined => props rest
               | y => (k, y) :: props rest
               end
           end) ps
      with
      | [] => if child then JObj [] else JUndefined
      | qs => JObj qs
      end
  | JArr items =>
      JArr ((fix elements (l : list JsVal) : list JsVal :=
               match l with
               | [] => []
               | x :: rest => clone true x :: elements rest
               end) items)
  | _ => v
  end.

(** What an insert leaves at a Mixed path whose value is [v]. *)
Definition insert_mixed (v : JsVal) : JsVal :=
  match clone false v with
  | JUndefined => JNull
  | y => y
  end.

Definition map_results (f : JsVal -> JsVal) : Audio -> Audio :=
  with_results (fun r =>
    {| enhancement := f (enhancement r); explainability := f (explainability r);
       aqi := f (aqi r); forensics := f (forensics r) |}).

(** The record an insert of the document's fields stores, and the values
    an update takes from them. *)
Definition inserted : Audio -> Audio := map_results insert_mixed.
Definition updated : Audio -> Audio := map_results store_mixed.

(** A record as an update leaves it: minimizing its Results entries
    changes nothing. *)
Definition minimized (a : Audio) : Prop := updated a = a.

(** [doc.save()]: validation, then the pre-save hook, then an insert (new
    document) or an update of the modified paths (loaded document), both
    minimized. The document in memory keeps its values as assigned. *)
Definition save (d : Document) (db : gmap string Audio)
    : gmap string Audio * (JsError + Document) :=
  match validation_errors d with
  | (_ :: _) as errs => (db, inl (ValidationError errs))
  | [] =>
      let d := preSave d in
      match db !! _id d with
      | Some cur =>
          if isNew d then (db, inl (DuplicateKey (_id d)))
          else (<[_id d := write_paths (modified d) (updated (doc d)) cur]> db,
                inr (clean d))
      | None =>
          if isNew d then (<[_id d := inserted (doc d)]> db, inr (clean d))
          else (db, inl (DocumentNotFound (_id d)))
      end
  end.

(** ** The world the handlers act on *)

Inductive Status := SProcessing | SComplete | SError.

(** The progress message: [{ type: 'progress', module, status, audioId,
    error? }]. *)
Record Progress := {
  ev_module : string;
  ev_status : Status;
  ev_audioId : JsVal;
  ev_error : option string;
}.

(** A WebSocket client: its [readyState] (1 is OPEN) and what was sent to
    it, latest last. *)
Record Client := {
  readyState : nat;
  inbox : list Progress;
}.

Record World := {
  db : gmap string Audio;          (* the Audio collection, by _id *)
  fs : gset string;                (* the paths that exist on disk *)
  wss : option (list Client);      (* req.app.get('wss') *)
}.

Definition with_db (f : gmap string Audio -> gmap string Audio) (w : World) : World :=
  {| db := f (db w); fs := fs w; wss := wss w |}.

Definition with_fs (f : gset string -> gset string) (w : World) : World :=
  {| db := db w; fs := f (fs w); wss := wss w |}.

(** [if (client.readyState === 1) client.send(msg)] *)
Definition deliver (msg : Progress) (c : Client) : Client :=
  if Nat.eqb (readyState c) 1
  then {| readyState := readyState c; inbox := inbox c ++ [msg] |}
  else c.

(** controller: broadcast *)
Definition broadcast (msg : Progress) (w : World) : World :=
  match wss w with
  | None => w
  | Some clients =>
      {| db := db w; fs := fs w; wss := Some (map (deliver msg) clients) |}
  end.

(** A multipart form: the attached files (field, path) and the text
    fields. *)
Record Form := {
  form_files : list (string * string);
  form_fields : list (string * JsVal);
}.

(** ** Effects and programs *)

Inductive Eff : Type -> Type :=
| FindById (id : ObjectId) : Eff (option Document)
| SaveDoc (d : Document) : Eff (JsError + Document)
| FindByIdAndDelete (id : ObjectId) : Eff unit
| ExistsSync (p : string) : Eff bool
| UnlinkSync (p : string) : Eff (option JsError)
| Broadcast (msg : Progress) : Eff unit
| Post (endpoint : string) (form : Form) : Eff (AxiosError + JsVal)
| Ffprobe (p : string) : Eff (option JsVal)
| GatewayBegin (endpoint : string) : Eff unit   (* a pythonService call starts *)
| GatewayEnd (endpoint : string) : Eff unit.    (* and settles *)

Inductive Prog (R : Type) : Type :=
| Ret (r : R)
| Throw (e : JsError)
| Vis {X : Type} (e : Eff X) (k : X -> Prog R).
Arguments Ret {R} r.
Arguments Throw {R} e.
Arguments Vis {R X} e k.

Fixpoint bind {A B} (p : Prog A) (f : A -> Prog B) : Prog B :=
  match p with
  | Ret r => f r
  | Throw e => Throw e
  | Vis e k => Vis e (fun x => bind (k x) f)
  end.

(** [try { p } catch (err) { h err }] *)
Fixpoint try_catch {A} (p : Prog A) (h : JsError -> Prog A) : Prog A :=
  match p with
  | Ret r => Ret r
  | Throw e => h e
  | Vis e k => Vis e (fun x => try_catch (k x) h)
  end.

Definition trigger {X} (e : Eff X) : Prog X := Vis e Ret.

Declare Scope prog_scope.
Delimit Scope prog_scope with prog.
Notation "x <- p ;; q" := (bind p (fun x => q))
  (at level 100, p at next level, right associativity) : prog_scope.
Notation "p ;; q" := (bind p (fun _ => q))
  (at level 100, right associativity) : prog_scope.
Local Open Scope prog_scope.

(** What a run leaves in the log: the calls of [broadcast] and the start
    and end of each gateway call. *)
Inductive Action :=
| Emitted (msg : Progress)
| GatewayBegan (endpoint : string)
| GatewayEnded (endpoint : string).

Definition observe {X} (e : Eff X) : list Action :=
  match e with
  | Broadcast msg => [Emitted msg]
  | GatewayBegin ep => [GatewayBegan ep]
  | GatewayEnd ep => [GatewayEnded ep]
  | _ => []
  end.

(** The collaborators outside the process: the Python service behind
    axios, and ffprobe. *)
Record Remote := {
  python : string -> Form -> AxiosError + JsVal;
  ffprobe : string -> option JsVal;
}.

Definition perform (rm : Remote) {X} (e : Eff X) (w : World) : World * X :=
  match e in Eff X return World * X with
  | FindById id => (w, loaded id <$> db w !! id)
  | SaveDoc d =>
      let '(db', r) := save d (db w) in
      (with_db (fun _ => db') w, r)
  | FindByIdAndDelete id => (with_db (delete id) w, tt)
  | ExistsSync p => (w, bool_decide (p ∈ fs w))
  | UnlinkSync p =>
      (* the disk holds files that can be removed: [unlinkSync] fails
         only when nothing is at the path *)
      if bool_decide (p ∈ fs w)
      then (with_fs (fun s => s ∖ {[p]}) w, None)
      else (w, Some (Error ("ENOENT: no such file or directory, unlink '" +:+ p +:+ "'")))
  | Broadcast msg => (broadcast msg w, tt)
  | Post ep form => (w, python rm ep form)
  | Ffprobe p => (w, ffprobe rm p)
  | GatewayBegin _ | GatewayEnd _ => (w, tt)
  end.

(** One handler run to its end, alone: the final world, the log and the
    outcome (an uncaught error, or the handler's result). *)
Fixpoint run {R} (rm : Remote) (p : Prog R) (w : World)
    : World * list Action * (JsError + R) :=
  match p with
  | Ret r => (w, [], inr r)
  | Throw e => (w, [], inl e)
  | Vis e k =>
      let '(w1, x) := perform rm e w in
      let '(w2, tr, r) := run rm (k x) w1 in
      (w2, observe e ++ tr, r)
  end.

(** ** The gateway (services/pythonService.js) *)

Section Gateway.
Context (pf : Platform).

(** [process.env.PYTHON_SERVICE_URL || 'http://localhost:8000'] *)
Definition PYTHON_BASE_URL : string :=
  match env_PYTHON_SERVICE_URL pf with
  | Some s => if String.eqb s "" then "http://localhost:8000" else s
  | None => "http://localhost:8000"
  end.

(** [err.message] *)
Definition err_message (e : JsError) : string :=
  match e with
  | Error m => m
  | AxiosFailure a => ax_message a
  | _ => lib_message pf e
  end.

(** The message of [new Error(v)]: [String(v)], empty for [undefined]. *)
Definition error_text (v : JsVal) : string :=
  match v with
  | JUndefined => ""
  | JNull => "null"
  | JBool b => if b then "true" else "false"
  | JNum q => number_to_string pf q
  | JStr s => s
  | JArr _ | JObj _ => composite_to_string pf v
  end.

(** handlePythonError: the error it throws. Only an axios rejection has a
    [code] or a [response]; anything else is thrown again as it is. *)
Definition handlePythonError (err : JsError) (endpoint : string) : JsError :=
  match err with
  | AxiosFailure e =>
      if bool_decide (ax_code e = Some "ECONNREFUSED") then
        Error ("Python service is not reachable at " +:+ PYTHON_BASE_URL
               +:+ endpoint +:+ ". Is it running?")
      else
        match ax_response e with
        | Some (status, data) =>
            Error (error_text
              (js_or (opt_prop "message" data)
                (js_or (opt_prop "error" data)
                  (JStr ("Python service error " +:+ pretty status
                         +:+ " on " +:+ endpoint)))))
        | None =>
            if bool_decide (ax_code e = Some "ECONNABORTED") then
              Error ("Python service timed out on " +:+ endpoint
                     +:+ ". Try a shorter audio file.")
            else err
        end
  | _ => err
  end.

(** [v.k], raising the runtime's TypeError on [null] and [undefined]. *)
Definition get (k : string) (v : JsVal) : Prog JsVal :=
  match prop k v with
  | Some x => Ret x
  | None => Throw (TypeError k)
  end.

(** A default parameter: [v = dflt] in a parameter list or a
    destructuring pattern. *)
Definition default_arg (v dflt : JsVal) : JsVal :=
  match v with JUndefined => dflt | _ => v end.

(** buildAudioForm *)
Definition buildAudioForm (audioPath : string) (extraFields : list (string * JsVal))
    : Form :=
  {| form_files := [("audio", audioPath)]; form_fields := extraFields |}.

(** [await pythonClient.post(endpoint, form, ...)], then [response.data] *)
Definition post (endpoint : string) (form : Form) : Prog JsVal :=
  r <- trigger (Post endpoint form) ;;
  match r with
  | inl e => Throw (AxiosFailure e)
  | inr data => Ret data
  end.

(** The shape shared by the four calls:
    [try { ... return response.data } catch (err) { handlePythonError(err, endpoint) }],
    with the start and the end of the call left in the log. *)
Definition gateway_call (endpoint : string) (body : Prog JsVal) : Prog JsVal :=
  trigger (GatewayBegin endpoint) ;;
  try_catch
    (x <- body ;; trigger (GatewayEnd endpoint) ;; Ret x)
    (fun err => trigger (GatewayEnd endpoint) ;;
                Throw (handlePythonError err endpoint)).

(** callEnhance *)
Definition callEnhance (audioPath : string) (model settings : JsVal) : Prog JsVal :=
  let model := default_arg model (JStr "CleanUNet") in
  let settings := default_arg settings (JObj []) in
  gateway_call "/enhance"
    (nrs <- get "noiseReductionStrength" settings ;;
     ps <- get "preserveSpeech" settings ;;
     pm <- get "processingMode" settings ;;
     post "/enhance"
       (buildAudioForm audioPath
          [("model", model);
           ("noiseReductionStrength", js_coalesce nrs (JNum 80));
           ("preserveSpeech", js_coalesce ps (JBool true));
           ("processingMode", js_coalesce pm (JStr "Balanced"))])).

(** callExplain *)
Definition callExplain (originalPath : string) (enhancedPath : option string)
    : Prog JsVal :=
  gateway_call "/explain"
    (enh <- match enhancedPath with
            | Some p =>
                if String.eqb p "" then Ret []
                else (ex <- trigger (ExistsSync p) ;;
                      Ret (if ex : bool then [("enhanced", p)] else []))
            | None => Ret []
            end ;;
     post "/explain"
       {| form_files := ("original", originalPath) :: enh; form_fields := [] |}).

(** callAQI *)
Definition callAQI (audioPath : string) : Prog JsVal :=
  gateway_call "/aqi" (post "/aqi" (buildAudioForm audioPath [])).

(** callForensics *)
Definition callForensics (audioPath : string) : Prog JsVal :=
  gateway_call "/forensics" (post "/forensics" (buildAudioForm audioPath [])).
End Gateway.

(** ** The controller (controllers/audioController.js) *)

(** What [res.status(s).json({ success, message, data, error })] sends. *)
Record Response := {
  res_status : N;
  res_success : bool;
  res_message : string;
  res_data : JsVal;
  res_error : option string;
}.

Definition failure (st : N) (msg : string) : Response :=
  {| res_status := st; res_success := false; res_message := msg;
     res_data := JUndefined; res_error := None |}.

Definition success (st : N) (msg : string) (data : JsVal) : Response :=
  {| res_status := st; res_success := true; res_message := msg;
     res_data := data; res_error := None |}.

(** The file multer stored: [req.file]. *)
Record File := {
  originalname : string;
  path : string;
  size : Q;
}.

Definition js_processing (p : Processing) : JsVal :=
  JObj [("enhanced", JBool (enhanced p));
        ("enhancementModel", js_str (enhancementModel p));
        ("aqiScore", js_num (aqiScore p));
        ("authenticityScore", js_num (authenticityScore p));
        ("tamperingDetected", js_bool (tamperingDetected p))].

(** A string as a condition: [''] and [null] are falsy. *)
Definition nonempty (o : option string) : option string :=
  match o with
  | Some s => if String.eqb s "" then None else Some s
  | None => None
  end.

Definition progress (module : string) (st : Status) (audioId : JsVal)
    (err : option string) : Progress :=
  {| ev_module := module; ev_status := st; ev_audioId := audioId;
     ev_error := err |}.

(** [Math.round] *)
Definition js_round (q : Q) : Q := inject_Z (Qfloor (q + (1 # 2))).

(** Truncation towards zero, and the remainder [a % b]. *)
Definition js_trunc (q : Q) : Z := if Qle_bool 0 q then Qfloor q else Qceiling q.
Definition js_rem (a b : Q) : Q := a - b * inject_Z (js_trunc (a / b)).

(** [s.padStart(2, '0')] *)
Definition padStart2 (s : string) : string :=
  match String.length s with
  | 0 => "00"
  | 1 => "0" +:+ s
  | _ => s
  end.

Section Virtuals.
Context (pf : Platform).

(** virtual durationFormatted *)
Definition durationFormatted (a : Audio) : JsVal :=
  match duration a with
  | None => JNull
  | Some d =>
      JStr (number_to_string pf (inject_Z (Qfloor (d / 60))) +:+ ":" +:+
            padStart2 (number_to_string pf (inject_Z (Qfloor (js_rem d 60)))))
  end.

(** virtual fileSizeFormatted *)
Definition fileSizeFormatted (a : Audio) : JsVal :=
  match fileSize a with
  | None => JNull
  | Some n =>
      if negb (Qle_bool 1024 n) then JStr (number_to_string pf n +:+ " B")
      else if negb (Qle_bool (1024 * 1024) n)
      then JStr (to_fixed pf (n / 1024) 1 +:+ " KB")
      else if negb (Qle_bool (1024 * 1024 * 1024) n)
      then JStr (to_fixed pf (n / (1024 * 1024)) 1 +:+ " MB")
      else JStr (to_fixed pf (n / (1024 * 1024 * 1024)) 2 +:+ " GB")
  end.

(** virtual channelLabel *)
Definition channelLabel (a : Audio) : JsVal :=
  match channels a with
  | None => JNull
  | Some c =>
      if Qeq_bool c 1 then JStr "Mono"
      else if Qeq_bool c 2 then JStr "Stereo"
      else JStr ("Surround (" +:+ number_to_string pf c +:+ "ch)")
  end.
End Virtuals.

(** virtual aqiBand *)
Definition aqiBand (a : Audio) : JsVal :=
  match aqiScore (processing a) with
  | None => JNull
  | Some score =>
      if Qle_bool 71 score then JStr "Good"
      else if Qle_bool 41 score then JStr "Fair"
      else JStr "Poor"
  end.

Section Controller.
Context (pf : Platform).

(** [await audio.save()] *)
Definition await_save (d : Document) : Prog Document :=
  r <- trigger (SaveDoc d) ;;
  match r with
  | inl e => Throw e
  | inr d' => Ret d'
  end.

(** safeUnlink: never throws *)
Definition safeUnlink (filePath : option string) : Prog unit :=
  match nonempty filePath with
  | Some p =>
      ex <- trigger (ExistsSync p) ;;
      if ex : bool then (trigger (UnlinkSync p) ;; Ret tt) else Ret tt
  | None => Ret tt
  end.

(** [mongoose.Types.ObjectId.isValid(id)], the test of validateId *)
Definition isValid (id : JsVal) : bool :=
  bool_decide (is_Some (to_object_id pf id)) || valid_uncastable pf id.

(** The opening of the four module handlers:
    [if (!audioId || !validateId(res, audioId)) return;], the lookup of
    the record and the check that its source file is on disk. [k] is the
    rest of the handler, given the document and its source path. The
    [audioId] of a JSON body is any value: one that passes validateId and
    that [findById] cannot cast makes [findById] reject, outside the
    [try] block of the handler. *)
Definition with_source (audioId : JsVal)
    (k : Document -> string -> Prog (option Response)) : Prog (option Response) :=
  if negb (truthy audioId) then Ret None
  else if negb (isValid audioId) then Ret (Some (failure 400 "Invalid audio ID."))
  else
    match to_object_id pf audioId with
    | None => Throw (QueryCastError audioId)
    | Some id =>
        found <- trigger (FindById id) ;;
        match found with
        | None => Ret (Some (failure 404 "Audio record not found."))
        | Some audio =>
            match nonempty (originalPath (doc audio)) with
            | None =>
                Ret (Some (failure 404 "Original audio file not found on disk."))
            | Some p =>
                ex <- trigger (ExistsSync p) ;;
                if ex : bool then k audio p
                else Ret (Some (failure 404 "Original audio file not found on disk."))
            end
        end
    end.

(** The [catch] block of the four module handlers. *)
Definition on_error (module : string) (audioId : JsVal) (err : JsError)
    : Prog (option Response) :=
  trigger (Broadcast (progress module SError audioId (Some (err_message pf err)))) ;;
  Ret (Some (failure 502 (err_message pf err))).

(** 2. enhanceAudio: POST /api/enhance, body [{ audioId, model, settings }] *)
Definition enhanceAudio (body : JsVal) : Prog (option Response) :=
  audioId <- get "audioId" body ;;
  model <- get "model" body ;;
  settings <- get "settings" body ;;
  let model := default_arg model (JStr "CleanUNet") in
  let settings := default_arg settings (JObj []) in
  with_source audioId (fun audio src =>
    try_catch
      (trigger (Broadcast (progress "enhance" SProcessing audioId None)) ;;
       result <- callEnhance pf src model settings ;;
       p1 <- get "enhancedFilePath" result ;;
       p2 <- get "enhanced_file_path" result ;;
       let enhancedPath := js_or (js_or p1 p2) JNull in
       metrics <- get "metrics" result ;;
       audio <- await_save (markEnhanced pf enhancedPath model metrics audio) ;;
       trigger (Broadcast (progress "enhance" SComplete audioId None)) ;;
       enhancedUrl <-
         (if truthy enhancedPath then
            match enhancedPath with
            | JStr s => Ret (JStr ("/uploads/" +:+ path_basename pf s))
            | _ => Throw (TypeError "path")
            end
          else Ret JNull) ;;
       Ret (Some (success 200 "Audio enhanced successfully."
              (JObj [("audioId", audioId);
                     ("enhancedUrl", enhancedUrl);
                     ("model", model);
                     ("metrics", js_or metrics (JObj []));
                     ("processing", js_processing (processing (doc audio)))]))))
      (on_error "enhance" audioId)).

(** 3. explainDenoising: POST /api/explain-denoising, body [{ audioId }] *)
Definition explainDenoising (body : JsVal) : Prog (option Response) :=
  audioId <- get "audioId" body ;;
  with_source audioId (fun audio src =>
    try_catch
      (trigger (Broadcast (progress "explainability" SProcessing audioId None)) ;;
       enhancedPath <-
         match nonempty (enhancedPath (doc audio)) with
         | Some p => ex <- trigger (ExistsSync p) ;;
                     Ret (if ex : bool then Some p else None)
         | None => Ret None
         end ;;
       result <- callExplain pf src enhancedPath ;;
       audio <- await_save (saveExplainability result audio) ;;
       trigger (Broadcast (progress "explainability" SComplete audioId None)) ;;
       noiseDetections <- get "noiseDetections" result ;;
       spectrograms <- get "spectrograms" result ;;
       report <- get "report" result ;;
       Ret (Some (success 200 "Explainability analysis complete."
              (JObj [("audioId", audioId);
                     ("noiseDetections", js_or noiseDetections (JArr []));
                     ("spectrograms", js_or spectrograms (JObj []));
                     ("report", js_or report (JObj []))]))))
      (on_error "explainability" audioId)).

(** 4. calculateAQI: POST /api/calculate-aqi, body [{ audioId }] *)
Definition calculateAQI (body : JsVal) : Prog (option Response) :=
  audioId <- get "audioId" body ;;
  with_source audioId (fun audio src =>
    try_catch
      (trigger (Broadcast (progress "aqi" SProcessing audioId None)) ;;
       result <- callAQI pf src ;;
       score <- get "aqiScore" result ;;
       audio <- await_save (saveAQI pf score result audio) ;;
       trigger (Broadcast (progress "aqi" SComplete audioId None)) ;;
       metrics <- get "metrics" result ;;
       Ret (Some (success 200 "AQI calculated successfully."
              (JObj [("audioId", audioId);
                     ("aqiScore", score);
                     ("aqiBand", aqiBand (doc audio));
                     ("metrics", js_or metrics (JObj []))]))))
      (on_error "aqi" audioId)).

(** 5. detectTampering: POST /api/detect-tampering, body [{ audioId }] *)
Definition detectTampering (body : JsVal) : Prog (option Response) :=
  audioId <- get "audioId" body ;;
  with_source audioId (fun audio src =>
    try_catch
      (trigger (Broadcast (progress "forensics" SProcessing audioId None)) ;;
       result <- callForensics pf src ;;
       score <- get "authenticityScore" result ;;
       tampered <- get "tamperingDetected" result ;;
       audio <- await_save (saveForensics pf score tampered result audio) ;;
       trigger (Broadcast (progress "forensics" SComplete audioId None)) ;;
       detections <- get "detections" result ;;
       summary <- get "summary" result ;;
       Ret (Some (success 200 "Tampering analysis complete."
              (JObj [("audioId", audioId);
                     ("authenticityScore", score);
                     ("tamperingDetected", tampered);
                     ("detections", js_or detections (JArr []));
                     ("summary", js_or summary (JObj []))]))))
      (on_error "forensics" audioId)).

(** [streams.find((s) => s.codec_type === 'audio')]: the first audio
    stream, [undefined] when there is none; a TypeError when [streams]
    is not an array or holds [null]. *)
Fixpoint find_audio (streams : list JsVal) : Prog JsVal :=
  match streams with
  | [] => Ret JUndefined
  | s :: rest =>
      t <- get "codec_type" s ;;
      if is_string "audio" t then Ret s else find_audio rest
  end.

(** [parseFloat(v) || null] and [parseInt(v, 10) || null] *)
Definition number_or_null (n : option Q) : JsVal :=
  match n with
  | Some q => js_or (JNum q) JNull
  | None => JNull
  end.

(** [new Audio({ filename, originalPath, format, duration, sampleRate,
    channels, fileSize, bitrate })]; [bitrate] arrives already cast, as it
    may be NaN. *)
Definition new_Audio (id : ObjectId)
    (filename originalPath format duration sampleRate channels fileSize : JsVal)
    (bitrate : Cast Q) : Document :=
  let d := new_document id in
  let d := assign PFilename (castTrimmed pf filename) put_filename d in
  let d := assign POriginalPath (castTrimmed pf originalPath) put_originalPath d in
  let d := assign PFormat (castTrimmed pf format) put_format d in
  let d := assign PDuration (castNumber pf duration) put_duration d in
  let d := assign PSampleRate (castNumber pf sampleRate) put_sampleRate d in
  let d := assign PChannels (castNumber pf channels) put_channels d in
  let d := assign PFileSize (castNumber pf fileSize) put_fileSize d in
  assign PBitrate bitrate put_bitrate d.

(** The metadata ffprobe gave: [meta.format || {}] and
    [meta.streams || []], both left at their initial value when the probe
    failed. *)
Definition probed_format (probed : option JsVal) : JsVal :=
  match probed with
  | Some m => if nullish m then JObj [] else js_or (opt_prop "format" m) (JObj [])
  | None => JObj []
  end.

Definition probed_streams (probed : option JsVal) : JsVal :=
  match probed with
  | Some m => if nullish m then JArr [] else js_or (opt_prop "streams" m) (JArr [])
  | None => JArr []
  end.

(** [path.extname(req.file.originalname).replace('.', '').toLowerCase()] *)
Definition extension (file : File) : string :=
  toLowerCase (remove_first_dot (path_extname pf (originalname file))).

(** The document uploadAudio builds. *)
Definition upload_document (file : File) (id : ObjectId) (meta_format audioStream : JsVal)
    : Document :=
  let bit_rate := opt_prop "bit_rate" meta_format in
  new_Audio id
    (JStr (originalname file))
    (JStr (path file))
    (JStr (extension file))
    (number_or_null (parse_float pf (opt_prop "duration" meta_format)))
    (number_or_null (parse_int pf (opt_prop "sample_rate" audioStream)))
    (js_or (opt_prop "channels" audioStream) JNull)
    (JNum (size file))
    (if truthy bit_rate then
       match parse_int pf bit_rate with
       | Some n => CastOk (Some (js_round (n / 1000)))
       | None => CastError
       end
     else CastOk None).

(** The answer of a successful upload ([uploadDate] is not modelled). *)
Definition upload_answer (file : File) (audio : Document) : Response :=
  let a := doc audio in
  success 201 "File uploaded successfully."
    (JObj [("id", JStr (_id audio));
           ("filename", js_str (filename a));
           ("format", js_str (format a));
           ("duration", js_num (duration a));
           ("durationFormatted", durationFormatted pf a);
           ("sampleRate", js_num (sampleRate a));
           ("channels", js_num (channels a));
           ("channelLabel", channelLabel pf a);
           ("fileSize", js_num (fileSize a));
           ("fileSizeFormatted", fileSizeFormatted pf a);
           ("bitrate", js_num (bitrate a));
           ("originalUrl", JStr ("/uploads/" +:+ path_basename pf (path file)))]).

Definition upload_failure (err : JsError) : Response :=
  {| res_status := 500; res_success := false;
     res_message := "Upload processing failed.";
     res_data := JUndefined;
     res_error := Some (err_message pf err) |}.

(** 1. uploadAudio: POST /api/upload. Multer has already stored the file;
    [id] is the [_id] that [new Audio] draws. *)
Definition uploadAudio (file : option File) (id : ObjectId) : Prog (option Response) :=
  match file with
  | None => Ret (Some (failure 400 "No audio file provided."))
  | Some file =>
      let filePath := path file in
      try_catch
        (probed <- trigger (Ffprobe filePath) ;;
         found <- match probed_streams probed with
                  | JArr l => find_audio l
                  | _ => Throw (TypeError "find")
                  end ;;
         let audioStream := js_or found (JObj []) in
         audio <- await_save
                    (upload_document file id (probed_format probed) audioStream) ;;
         Ret (Some (upload_answer file audio)))
        (fun err =>
           (* Roll back the uploaded file if DB save fails *)
           safeUnlink (Some filePath) ;;
           Ret (Some (upload_failure err)))
  end.

(** [validateId(res, id)], then [Audio.findById(id)], for the [id] of a
    route: a string, which passes validateId exactly when [findById] casts
    it. *)
Definition with_record (id : JsVal) (k : Document -> Prog (option Response))
    : Prog (option Response) :=
  match to_object_id pf id with
  | None => Ret (Some (failure 400 "Invalid audio ID."))
  | Some id =>
      found <- trigger (FindById id) ;;
      match found with
      | None => Ret (Some (failure 404 "Audio record not found."))
      | Some audio => k audio
      end
  end.

(** [name ? `/uploads/${name}` : null], for
    [name = p ? path.basename(p) : null] *)
Definition upload_url (p : option string) : JsVal :=
  match nonempty p with
  | Some s =>
      let name := path_basename pf s in
      if String.eqb name "" then JNull else JStr ("/uploads/" +:+ name)
  | None => JNull
  end.

(** 6. getAudio: GET /api/:id *)
Definition getAudio (id : JsVal) : Prog (option Response) :=
  with_record id (fun audio =>
    let a := doc audio in
    Ret (Some {| res_status := 200; res_success := true; res_message := "";
                 res_error := None;
                 res_data :=
                   JObj [("id", JStr (_id audio));
                         ("filename", js_str (filename a));
                         ("format", js_str (format a));
                         ("duration", js_num (duration a));
                         ("durationFormatted", durationFormatted pf a);
                         ("sampleRate", js_num (sampleRate a));
                         ("channels", js_num (channels a));
                         ("channelLabel", channelLabel pf a);
                         ("fileSize", js_num (fileSize a));
                         ("fileSizeFormatted", fileSizeFormatted pf a);
                         ("bitrate", js_num (bitrate a));
                         ("originalUrl", upload_url (originalPath a));
                         ("enhancedUrl", upload_url (enhancedPath a));
                         ("processing", js_processing (processing a));
                         ("aqiBand", aqiBand a);
                         ("results",
                          JObj [("enhancement", enhancement (results a));
                                ("explainability", explainability (results a));
                                ("aqi", aqi (results a));
                                ("forensics", forensics (results a))])] |})).

(** 7. deleteAudio: DELETE /api/:id *)
Definition deleteAudio (id : JsVal) : Prog (option Response) :=
  with_record id (fun audio =>
    (* Delete physical files first, then the DB record *)
    safeUnlink (originalPath (doc audio)) ;;
    safeUnlink (enhancedPath (doc audio)) ;;
    trigger (FindByIdAndDelete (_id audio)) ;;
    Ret (Some (success 200 "Audio file and record deleted successfully."
           (JObj [("id", id)])))).
End Controller.

(** ** The four modules *)

Inductive Module := Enhancement | Explainability | Quality | Forensics.

#[global] Instance Module_eq_dec : EqDecision Module.
Proof. solve_decision. Defined.

(** The paths a completion of the module assigns. *)
Definition module_paths (m : Module) : list Path :=
  match m with
  | Enhancement => [PEnhancedPath; PEnhanced; PEnhancementModel; PResEnhancement]
  | Explainability => [PResExplainability]
  | Quality => [PAqiScore; PResAqi]
  | Forensics => [PAuthenticityScore; PTamperingDetected; PResForensics]
  end.

(** The path of the module's Results entry. *)
Definition results_path (m : Module) : Path :=
  match m with
  | Enhancement => PResEnhancement
  | Explainability => PResExplainability
  | Quality => PResAqi
  | Forensics => PResForensics
  end.

(** The [module] field of the module's progress messages. *)
Definition module_name (m : Module) : string :=
  match m with
  | Enhancement => "enhance"
  | Explainability => "explainability"
  | Quality => "aqi"
  | Forensics => "forensics"
  end.

(** The endpoint of the module's gateway call. *)
Definition endpoint (m : Module) : string :=
  match m with
  | Enhancement => "/enhance"
  | Explainability => "/explain"
  | Quality => "/aqi"
  | Forensics => "/forensics"
  end.

(** The module's request handler. *)
Definition handler (pf : Platform) (m : Module) : JsVal -> Prog (option Response) :=
  match m with
  | Enhancement => enhanceAudio pf
  | Explainability => explainDenoising pf
  | Quality => calculateAQI pf
  | Forensics => detectTampering pf
  end.

(** The module's entry of the Results record. *)
Definition result_of (m : Module) (a : Audio) : JsVal :=
  match m with
  | Enhancement => enhancement (results a)
  | Explainability => explainability (results a)
  | Quality => aqi (results a)
  | Forensics => forensics (results a)
  end.

(** ** Handlers running together

    Node runs one handler at a time and switches between them where they
    await. The pool below switches between any two effects, which covers
    every schedule of the event loop; the answers of the Python service
    and of ffprobe are arbitrary at every step, and requests may arrive at
    any time. Each log entry carries the index of the run it belongs to. *)

Abbreviation Pool := (list (Prog (option Response))).

Record Config := {
  pool : Pool;
  world : World;
  log : list (nat * Action);
}.

Inductive pstep : Config -> Config -> Prop :=
| pstep_effect (c : Config) (tid : nat) (X : Type) (e : Eff X) (k : X -> Prog (option Response))
    (rm : Remote) (w' : World) (x : X) :
    pool c !! tid = Some (Vis e k) ->
    perform rm e (world c) = (w', x) ->
    pstep c {| pool := <[tid := k x]> (pool c); world := w';
               log := log c ++ map (pair tid) (observe e) |}
| pstep_arrive (c : Config) (p : Prog (option Response)) :
    pstep c {| pool := pool c ++ [p]; world := world c; log := log c |}.

Inductive psteps : Config -> Config -> Prop :=
| psteps_refl c : psteps c c
| psteps_step c1 c2 c3 : psteps c1 c2 -> pstep c2 c3 -> psteps c1 c3.

(** The log entries of run [tid], in order. *)
Definition log_of (tid : nat) (l : list (nat * Action)) : list Action :=
  snd <$> filter (fun e => fst e = tid) l.

(** How far a module run has got, as its log shows it. *)
Inductive Phase :=
| Idle          (* nothing emitted *)
| Announced     (* processing emitted *)
| Calling       (* the gateway call has begun *)
| Returned      (* the gateway call has settled *)
| Completed     (* complete emitted *)
| Failed.       (* error emitted *)

Definition is_event (m : Module) (st : Status) (msg : Progress) : bool :=
  String.eqb (ev_module msg) (module_name m)
  && match ev_status msg, st with
     | SProcessing, SProcessing | SComplete, SComplete | SError, SError => true
     | _, _ => false
     end.

(** The modules whose handler still reads the gateway's result after it
    has broadcast complete. *)
Definition answers_late (m : Module) : bool :=
  match m with Enhancement | Explainability => true | _ => false end.

(** The order a run of module [m] keeps: processing, the gateway call, then
    complete or error; for the modules that answer late an error may still
    follow complete. *)
Definition advance (m : Module) (ph : Phase) (a : Action) : option Phase :=
  match ph, a with
  | Idle, Emitted msg =>
      if is_event m SProcessing msg then Some Announced else None
  | Announced, GatewayBegan ep =>
      if String.eqb ep (endpoint m) then Some Calling else None
  | Calling, GatewayEnded ep =>
      if String.eqb ep (endpoint m) then Some Returned else None
  | Returned, Emitted msg =>
      if is_event m SComplete msg then Some Completed
      else if is_event m SError msg then Some Failed
      else None
  | Completed, Emitted msg =>
      if answers_late m && is_event m SError msg then Some Failed else None
  | _, _ => None
  end.

Fixpoint advances (m : Module) (ph : Phase) (l : list Action) : option Phase :=
  match l with
  | [] => Some ph
  | a :: l' =>
      match advance m ph a with
      | Some ph' => advances m ph' l'
      | None => None
      end
  end.

(** A run that has ended has emitted nothing, or has ended on complete or
    on error. *)
Definition final (ph : Phase) : bool :=
  match ph with
  | Idle | Completed | Failed => true
  | _ => false
  end.

(** Whatever answers its effects get, program [p], started in phase [ph],
    logs only what the order of module [m] allows, and ends in a phase and
    with a result related by [Q], or with an uncaught error related by
    [E]. *)
Fixpoint keeps_order (m : Module) {R} (p : Prog R) (ph : Phase)
    (Q : Phase -> R -> Prop) (E : Phase -> JsError -> Prop) : Prop :=
  match p with
  | Ret r => Q ph r
  | Throw e => E ph e
  | Vis e k =>
      exists ph', advances m ph (observe e) = Some ph' /\
        forall x, keeps_order m (k x) ph' Q E
  end.

(** A request handler keeps the order of [m] from [ph] on: it returns in a
    final phase, and lets an error escape only before it has emitted
    anything. *)
Definition handles (m : Module) (p : Prog (option Response)) (ph : Phase) : Prop :=
  keeps_order m p ph (fun ph' _ => final ph' = true) (fun ph' _ => ph' = Idle).

(** Run [tid] of the pool is a run of module [m] that has kept the order
    so far and will keep it. *)
Definition in_order (m : Module) (tid : nat) (c : Config) : Prop :=
  exists p ph,
    pool c !! tid = Some p /\
    advances m Idle (log_of tid (log c)) = Some ph /\
    handles m p ph.

(** The source file of a record is gone: the record has no source path, or
    nothing is on disk at it. *)
Definition source_missing (w : World) (a : Audio) : Prop :=
  match nonempty (originalPath a) with
  | Some p => p ∉ fs w
  | None => True
  end.

(** The source file of a record is on disk at [p]. *)
Definition source_at (w : World) (a : Audio) (p : string) : Prop :=
  nonempty (originalPath a) = Some p /\ p ∈ fs w.

(** The request body names the stored record [a] under [id]. *)
Definition names_record (pf : Platform) (w : World) (body audioId : JsVal)
    (id : ObjectId) (a : Audio) : Prop :=
  prop "audioId" body = Some audioId /\ truthy audioId = true /\
  to_object_id pf audioId = Some id /\ db w !! id = Some a.

(** ** A module run in closed form

    What a module handler does once its opening checks have passed, as a
    function of the answer of the Python service; [module_run_closed_form]
    below proves that the handlers compute exactly this. *)

Section ClosedForm.
Context (pf : Platform) (rm : Remote).

Definition request_model (body : JsVal) : JsVal :=
  default_arg (opt_prop "model" body) (JStr "CleanUNet").

Definition request_settings (body : JsVal) : JsVal :=
  default_arg (opt_prop "settings" body) (JObj []).

(** The enhanced file explainDenoising passes on: the stored path, when a
    file is on disk there. *)
Definition enhanced_on_disk (w : World) (a : Audio) : option string :=
  match nonempty (enhancedPath a) with
  | Some p => if bool_decide (p ∈ fs w) then Some p else None
  | None => None
  end.

(** The form the gateway call posts, or the error raised building it. *)
Definition request_form (m : Module) (body : JsVal) (a : Audio) (src : string)
    (w : World) : JsError + Form :=
  match m with
  | Enhancement =>
      let settings := request_settings body in
      match prop "noiseReductionStrength" settings with
      | None => inl (TypeError "noiseReductionStrength")
      | Some nrs =>
          inr (buildAudioForm src
                 [("model", request_model body);
                  ("noiseReductionStrength", js_coalesce nrs (JNum 80));
                  ("preserveSpeech",
                   js_coalesce (opt_prop "preserveSpeech" settings) (JBool true));
                  ("processingMode",
                   js_coalesce (opt_prop "processingMode" settings) (JStr "Balanced"))])
      end
  | Explainability =>
      inr {| form_files :=
               ("original", src) ::
               match enhanced_on_disk w a with
               | Some p => [("enhanced", p)]
               | None => []
               end;
             form_fields := [] |}
  | Quality | Forensics => inr (buildAudioForm src [])
  end.

(** How the gateway call of the run settles: with the error it throws,
    or with [response.data]. *)
Definition gateway_outcome (m : Module) (body : JsVal) (a : Audio) (src : string)
    (w : World) : JsError + JsVal :=
  match request_form m body a src w with
  | inl err => inl (handlePythonError pf err (endpoint m))
  | inr form =>
      match python rm (endpoint m) form with
      | inl e => inl (handlePythonError pf (AxiosFailure e) (endpoint m))
      | inr data => inr data
      end
  end.

(** The path enhanceAudio takes from the result:
    [result.enhancedFilePath || result.enhanced_file_path || null]. *)
Definition result_path (result : JsVal) : JsVal :=
  js_or (js_or (opt_prop "enhancedFilePath" result)
               (opt_prop "enhanced_file_path" result)) JNull.

(** The document the handler hands to [save()], or the TypeError raised
    reading the result. *)
Definition completion (m : Module) (body : JsVal) (id : ObjectId) (a : Audio)
    (result : JsVal) : JsError + Document :=
  match m with
  | Enhancement =>
      match prop "enhancedFilePath" result with
      | None => inl (TypeError "enhancedFilePath")
      | Some _ =>
          inr (markEnhanced pf (result_path result) (request_model body)
                 (opt_prop "metrics" result) (loaded id a))
      end
  | Explainability => inr (saveExplainability result (loaded id a))
  | Quality =>
      match prop "aqiScore" result with
      | None => inl (TypeError "aqiScore")
      | Some score => inr (saveAQI pf score result (loaded id a))
      end
  | Forensics =>
      match prop "authenticityScore" result with
      | None => inl (TypeError "authenticityScore")
      | Some score =>
          inr (saveForensics pf score (opt_prop "tamperingDetected" result)
                 result (loaded id a))
      end
  end.

(** The answer built after [complete] was broadcast, or the TypeError
    raised building it. *)
Definition answer (m : Module) (body audioId result : JsVal) (saved : Document)
    : JsError + Response :=
  match m with
  | Enhancement =>
      let enhancedPath := result_path result in
      let data url :=
        JObj [("audioId", audioId);
              ("enhancedUrl", url);
              ("model", request_model body);
              ("metrics", js_or (opt_prop "metrics" result) (JObj []));
              ("processing", js_processing (processing (doc saved)))] in
      if truthy enhancedPath then
        match enhancedPath with
        | JStr s =>
            inr (success 200 "Audio enhanced successfully."
                   (data (JStr ("/uploads/" +:+ path_basename pf s))))
        | _ => inl (TypeError "path")
        end
      else inr (success 200 "Audio enhanced successfully." (data JNull))
  | Explainability =>
      match prop "noiseDetections" result with
      | None => inl (TypeError "noiseDetections")
      | Some noiseDetections =>
          inr (success 200 "Explainability analysis complete."
                 (JObj [("audioId", audioId);
                        ("noiseDetections", js_or noiseDetections (JArr []));
                        ("spectrograms",
                         js_or (opt_prop "spectrograms" result) (JObj []));
                        ("report", js_or (opt_prop "report" result) (JObj []))]))
      end
  | Quality =>
      inr (success 200 "AQI calculated successfully."
             (JObj [("audioId", audioId);
                    ("aqiScore", opt_prop "aqiScore" result);
                    ("aqiBand", aqiBand (doc saved));
                    ("metrics", js_or (opt_prop "metrics" result) (JObj []))]))
  | Forensics =>
      inr (success 200 "Tampering analysis complete."
             (JObj [("audioId", audioId);
                    ("authenticityScore", opt_prop "authenticityScore" result);
                    ("tamperingDetected", opt_prop "tamperingDetected" result);
                    ("detections", js_or (opt_prop "detections" result) (JArr []));
                    ("summary", js_or (opt_prop "summary" result) (JObj []))]))
  end.

Definition processing_event (m : Module) (audioId : JsVal) : Progress :=
  progress (module_name m) SProcessing audioId None.

Definition complete_event (m : Module) (audioId : JsVal) : Progress :=
  progress (module_name m) SComplete audioId None.

Definition error_event (m : Module) (audioId : JsVal) (err : JsError) : Progress :=
  progress (module_name m) SError audioId (Some (err_message pf err)).

(** The run ends in the [catch] block, [pre] being what was logged
    before. *)
Definition caught (m : Module) (audioId : JsVal) (err : JsError)
    (pre : list Action) (w : World) : World * list Action * (JsError + option Response) :=
  (broadcast (error_event m audioId err) w,
   pre ++ [Emitted (error_event m audioId err)],
   inr (Some (failure 502 (err_message pf err)))).

Definition module_run (m : Module) (body audioId : JsVal) (id : ObjectId)
    (a : Audio) (src : string) (w : World)
    : World * list Action * (JsError + option Response) :=
  let w1 := broadcast (processing_event m audioId) w in
  let called := [Emitted (processing_event m audioId);
                 GatewayBegan (endpoint m); GatewayEnded (endpoint m)] in
  match gateway_outcome m body a src w with
  | inl err => caught m audioId err called w1
  | inr result =>
      match completion m body id a result with
      | inl err => caught m audioId err called w1
      | inr d =>
          match save d (db w) with
          | (_, inl err) => caught m audioId err called w1
          | (db', inr saved) =>
              let w2 := broadcast (complete_event m audioId)
                          (with_db (fun _ => db') w1) in
              let completed := called ++ [Emitted (complete_event m audioId)] in
              match answer m body audioId result saved with
              | inl err => caught m audioId err completed w2
              | inr res => (w2, completed, inr (Some res))
              end
          end
      end
  end.
End ClosedForm.

(** ** Notions used in the statements *)

(** The modules with a headline score, the field of the gateway's result
    that carries it and the path of ProcessingState that stores it. *)
Definition scored (m : Module) : bool :=
  match m with Quality | Forensics => true | _ => false end.

Definition score_field (m : Module) : string :=
  match m with
  | Quality => "aqiScore"
  | Forensics => "authenticityScore"
  | _ => ""
  end.

Definition headline_score (m : Module) (a : Audio) : option Q :=
  match m with
  | Quality => aqiScore (processing a)
  | Forensics => authenticityScore (processing a)
  | _ => None
  end.

Definition within_0_100 (o : option Q) : Prop :=
  match o with
  | Some q => (0 <= q)%Q /\ (q <= 100)%Q
  | None => True
  end.

(** Every stored score lies in [0, 100]. *)
Definition scores_in_range (db : gmap string Audio) : Prop :=
  forall id a, db !! id = Some a ->
    within_0_100 (aqiScore (processing a)) /\
    within_0_100 (authenticityScore (processing a)).

(** The clamping the specification asks for, for comparison with what the
    code stores. *)
Definition spec_clamp (q : Q) : Q :=
  if Qle_bool q 0 then 0%Q else if Qle_bool 100 q then 100%Q else q.

(** Every stored format is lowercase. *)
Definition formats_lowercase (db : gmap string Audio) : Prop :=
  forall id a f, db !! id = Some a -> format a = Some f -> all_lower f = true.

(** [s] occurs in [t], decided. *)
Fixpoint starts_with (s t : string) : bool :=
  match s, t with
  | EmptyString, _ => true
  | String a s', String b t' => Ascii.eqb a b && starts_with s' t'
  | String _ _, EmptyString => false
  end.

Fixpoint occurs (s t : string) : bool :=
  starts_with s t ||
  match t with
  | EmptyString => false
  | String _ t' => occurs s t'
  end.

(** *** The completion operations of the record store *)

Inductive Completion :=
| MarkEnhanced (enhancedPath modelName metrics : JsVal)
| SaveAQI (score detailedMetrics : JsVal)
| SaveForensics (authenticityScore tampered details : JsVal)
| SaveExplainability (data : JsVal).

Definition module_of (op : Completion) : Module :=
  match op with
  | MarkEnhanced _ _ _ => Enhancement
  | SaveAQI _ _ => Quality
  | SaveForensics _ _ _ => Forensics
  | SaveExplainability _ => Explainability
  end.

(** The payload the operation stores as its module's Results entry. *)
Definition payload (op : Completion) : JsVal :=
  match op with
  | MarkEnhanced _ _ metrics => metrics
  | SaveAQI _ detailedMetrics => detailedMetrics
  | SaveForensics _ _ details => details
  | SaveExplainability data => data
  end.

Definition apply_completion (pf : Platform) (op : Completion) (d : Document) : Document :=
  match op with
  | MarkEnhanced p model metrics => markEnhanced pf p model metrics d
  | SaveAQI score details => saveAQI pf score details d
  | SaveForensics score tampered details => saveForensics pf score tampered details d
  | SaveExplainability data => saveExplainability data d
  end.

(** One completion operation on the stored record [id]: load, call the
    method, which saves. *)
Definition complete (pf : Platform) (id : ObjectId) (op : Completion)
    (db : gmap string Audio) : gmap string Audio * (JsError + Document) :=
  match db !! id with
  | Some a => save (apply_completion pf op (loaded id a)) db
  | None => (db, inl (DocumentNotFound id))
  end.

(** The module's headline in ProcessingState is set; processingSchema has
    no path for explainability ([None]). *)
Definition headline_set (m : Module) (a : Audio) : option bool :=
  match m with
  | Enhancement => Some (enhanced (processing a))
  | Quality => Some (bool_decide (is_Some (aqiScore (processing a))))
  | Forensics => Some (bool_decide (is_Some (authenticityScore (processing a))))
  | Explainability => None
  end.

(** The module's Results entry is non-null. *)
Definition result_set (m : Module) (a : Audio) : bool :=
  negb (nullish (result_of m a)).

(** The fields of the record that belong to module [m]. *)
Definition module_fields (m : Module) (a : Audio) :=
  (result_of m a,
   match m with
   | Enhancement =>
       (js_str (enhancedPath a), JBool (enhanced (processing a)),
        js_str (enhancementModel (processing a)))
   | Quality => (js_num (aqiScore (processing a)), JNull, JNull)
   | Forensics =>
       (js_num (authenticityScore (processing a)),
        js_bool (tamperingDetected (processing a)), JNull)
   | Explainability => (JNull, JNull, JNull)
   end).

(** *** Requests *)

Inductive Request :=
| Upload (file : option File) (id : ObjectId)
| RunModule (m : Module) (body : JsVal)
| Get (id : JsVal)
| Delete (id : JsVal).

(** The router (routes/audioRoutes.js). *)
Definition serve (pf : Platform) (req : Request) : Prog (option Response) :=
  match req with
  | Upload file id => uploadAudio pf file id
  | RunModule m body => handler pf m body
  | Get id => getAudio pf id
  | Delete id => deleteAudio pf id
  end.

(** *** A platform and a world to evaluate on *)

Fixpoint last_dot_suffix (s : string) : option string :=
  match s with
  | EmptyString => None
  | String c s' =>
      match last_dot_suffix s' with
      | Some r => Some r
      | None => if Ascii.eqb c "." then Some s else None
      end
  end.

Fixpoint after_last_slash (s : string) : string :=
  match s with
  | EmptyString => EmptyString
  | String c s' =>
      if occurs "/" s then after_last_slash s' else s
  end.

Definition is_hex (c : ascii) : bool :=
  let n := N_of_ascii c in
  (((48 <=? n) && (n <=? 57)) || ((97 <=? n) && (n <=? 102))
   || ((65 <=? n) && (n <=? 70)))%N.

Fixpoint all_hex (s : string) : bool :=
  match s with
  | EmptyString => true
  | String c s' => is_hex c && all_hex s'
  end.

(** Node on file names without directories, integers printed in decimal,
    24 hexadecimal digits as the ObjectIds; the conversions no evaluation
    below reaches are fixed arbitrarily. *)
Definition sample_platform : Platform :=
  {| path_extname := fun s =>
       match s with
       | EmptyString => EmptyString
       | String _ s' => default EmptyString (last_dot_suffix s')
       end;
     path_basename := after_last_slash;
     number_to_string := fun q => pretty (Qfloor q);
     composite_to_string := fun _ => "[object Object]";
     to_number := fun _ => None;
     to_object_id := fun v =>
       match v with
       | JStr s => if Nat.eqb (String.length s) 24 && all_hex s then Some s else None
       | _ => None
       end;
     valid_uncastable := fun v => match v with JNum _ => true | _ => false end;
     parse_float := fun v => match v with JNum q => Some q | _ => None end;
     parse_int := fun v =>
       match v with JNum q => Some (inject_Z (js_trunc q)) | _ => None end;
     to_fixed := fun q _ => pretty (Qfloor q);
     lib_message := fun e =>
       match e with
       | Error m => m
       | AxiosFailure a => ax_message a
       | TypeError k => "Cannot read properties of null (reading '" +:+ k +:+ "')"
       | ValidationError _ => "Audio validation failed"
       | DuplicateKey _ => "E11000 duplicate key error"
       | DocumentNotFound _ => "No document found"
       | QueryCastError _ => "Cast to ObjectId failed"
       end;
     env_PYTHON_SERVICE_URL := None |}.

Definition sample_id : ObjectId := "65a1b2c3d4e5f60718293a4b".

(** The record of a freshly registered clip.wav of 120000 bytes. *)
Definition sample_audio : Audio :=
  put_fileSize (Some 120000%Q)
    (put_format (Some "wav")
       (put_originalPath (Some "uploads/clip_1700000000000_42.wav")
          (put_filename (Some "clip.wav") default_audio))).

(** One record, its source file on disk, one connected client. *)
Definition sample_world : World :=
  {| db := {[sample_id := sample_audio]};
     fs := {["uploads/clip_1700000000000_42.wav"]};
     wss := Some [{| readyState := 1; inbox := [] |}] |}.

Definition sample_body : JsVal := JObj [("audioId", JStr sample_id)].

(** A Python service that answers every call with [data], and one that
    rejects every call with [e]. *)
Definition answering (data : JsVal) : Remote :=
  {| python := fun _ _ => inr data; ffprobe := fun _ => None |}.

Definition rejecting (e : AxiosError) : Remote :=
  {| python := fun _ _ => inl e; ffprobe := fun _ => None |}.

(** axios could not connect. *)
Definition refused : AxiosError :=
  {| ax_code := Some "ECONNREFUSED"; ax_response := None;
     ax_message := "connect ECONNREFUSED 127.0.0.1:8000" |}.

(** ** A registration in closed form *)

Section UploadClosedForm.
Context (pf : Platform) (rm : Remote).

(** What [streams.find(...)] evaluates to. *)
Fixpoint find_audio_result (streams : list JsVal) : JsError + JsVal :=
  match streams with
  | [] => inr JUndefined
  | s :: rest =>
      match prop "codec_type" s with
      | None => inl (TypeError "codec_type")
      | Some t => if is_string "audio" t then inr s else find_audio_result rest
      end
  end.

(** The document uploadAudio hands to [save()], or the TypeError raised
    on the way. *)
Definition upload_attempt (file : File) (id : ObjectId) : JsError + Document :=
  let probed := ffprobe rm (path file) in
  match probed_streams probed with
  | JArr l =>
      match find_audio_result l with
      | inl err => inl err
      | inr found =>
          inr (upload_document pf file id (probed_format probed)
                 (js_or found (JObj [])))
      end
  | _ => inl (TypeError "find")
  end.

(** The world after [safeUnlink(p)]. *)
Definition unlinked (p : string) (w : World) : World :=
  if String.eqb p "" then w
  else if bool_decide (p ∈ fs w) then with_fs (fun s => s ∖ {[p]}) w
  else w.

Definition upload_run (file : File) (id : ObjectId) (w : World)
    : World * list Action * (JsError + option Response) :=
  let rolled_back err :=
    (unlinked (path file) w, [], inr (Some (upload_failure pf err))) in
  match upload_attempt file id with
  | inl err => rolled_back err
  | inr d =>
      match save d (db w) with
      | (_, inl err) => rolled_back err
      | (db', inr saved) =>
          (with_db (fun _ => db') w, [], inr (Some (upload_answer pf file saved)))
      end
  end.
End UploadClosedForm.

(** What [save] does to the collection, case by case. *)
Inductive Saved (d : Document) (db : gmap string Audio)
  : gmap string Audio -> JsError + Document -> Prop :=
| Saved_invalid errs :
    validation_errors d = errs -> errs <> [] ->
    Saved d db db (inl (ValidationError errs))
| Saved_duplicate cur :
    validation_errors d = [] -> isNew d = true -> db !! _id d = Some cur ->
    Saved d db db (inl (DuplicateKey (_id d)))
| Saved_missing :
    validation_errors d = [] -> isNew d = false -> db !! _id d = None ->
    Saved d db db (inl (DocumentNotFound (_id d)))
| Saved_inserted :
    validation_errors d = [] -> isNew d = true -> db !! _id d = None ->
    Saved d db (<[_id d := inserted (doc (preSave d))]> db) (inr (clean (preSave d)))
| Saved_updated cur :
    validation_errors d = [] -> isNew d = false -> db !! _id d = Some cur ->
    Saved d db
      (<[_id d := write_paths (modified (preSave d)) (updated (doc (preSave d))) cur]> db)
      (inr (clean (preSave d))).

Definition sample_file : File :=
  {| originalname := "clip.wav"; path := "uploads/clip_1700000000000_42.wav";
     size := 120000 |}.

(** A file whose extension is outside the formats of the schema; multer
    lets it through on its MIME type. *)
Definition wma_file : File :=
  {| originalname := "track.wma"; path := "uploads/track_1700000000001_7.wma";
     size := 52000 |}.

(** No record yet; both uploaded files are on disk. *)
Definition fresh_world : World :=
  {| db := ∅;
     fs := {["uploads/clip_1700000000000_42.wav"; "uploads/track_1700000000001_7.wma"]};
     wss := Some [{| readyState := 1; inbox := [] |}] |}.

Definition other_id : ObjectId := "65a1b2c3d4e5f60718293a4c".

(** The path of ProcessingState that stores the module's score. *)
Definition score_path (m : Module) : Path :=
  match m with Forensics => PAuthenticityScore | _ => PAqiScore end.

(** A quality result whose score is above the range. *)
Definition score_105 : JsVal :=
  JObj [("aqiScore", JNum 105); ("metrics", JObj [("snr", JStr "35.2 dB")])].

(** Quality scoring of the sample record when the gateway answers 105. *)
Definition run_105 : World * list Action * (JsError + option Response) :=
  run (answering score_105) (handler sample_platform Quality sample_body) sample_world.

(** The record is there, its source file is not. *)
Definition orphaned_world : World :=
  {| db := {[sample_id := sample_audio]};
     fs := ∅;
     wss := Some [{| readyState := 1; inbox := [] |}] |}.

(** The service answered 500 with a message of its own. *)
Definition upstream_500 : AxiosError :=
  {| ax_code := Some "ERR_BAD_RESPONSE";
     ax_response := Some (500%N, JObj [("message", JStr "Model crashed")]);
     ax_message := "Request failed with status code 500" |}.

(** The client-side timeout of axios. *)
Definition timed_out : AxiosError :=
  {| ax_code := Some "ECONNABORTED"; ax_response := None;
     ax_message := "timeout of 300000ms exceeded" |}.

(** What a successful completion operation has stored in the headline
    fields of its module: the values it was given, cast to the types of
    the schema. *)
Definition headline_stored (pf : Platform) (op : Completion) (a : Audio) : Prop :=
  match op with
  | MarkEnhanced p model _ =>
      enhanced (processing a) = true /\
      castTrimmed pf p = CastOk (enhancedPath a) /\
      castString pf model = CastOk (enhancementModel (processing a))
  | SaveAQI score _ =>
      castNumber pf score = CastOk (aqiScore (processing a))
  | SaveForensics score tampered _ =>
      castNumber pf score = CastOk (authenticityScore (processing a)) /\
      castBoolean tampered = CastOk (tamperingDetected (processing a))
  | SaveExplainability _ => True
  end.

(** The one direction of the headline/Results agreement that the code
    keeps: where the enhancement Results entry is non-null, the enhanced
    flag is set. *)
Definition enhancement_result_flagged (a : Audio) : Prop :=
  result_set Enhancement a = true -> enhanced (processing a) = true.

(** An enhancement result without metrics. *)
Definition enhanced_no_metrics : JsVal :=
  JObj [("enhancedFilePath", JStr "/srv/enhanced/clip_enhanced.wav")].

(** An enhancement result whose metrics are an empty object. *)
Definition enhanced_empty_metrics : JsVal :=
  JObj [("enhancedFilePath", JStr "/srv/enhanced/clip_enhanced.wav");
        ("metrics", JObj [])].

(** A quality result within the range. *)
Definition score_87 : JsVal :=
  JObj [("aqiScore", JNum 87); ("metrics", JObj [("snr", JStr "35.2 dB")])].

(** The program never calls [save()]. *)
Fixpoint no_saves {R} (p : Prog R) : Prop :=
  match p with
  | Ret _ | Throw _ => True
  | Vis e k =>
      match e with SaveDoc _ => False | _ => True end /\ forall x, no_saves (k x)
  end.

(** The completion operation a module handler performs on the result of
    its gateway call. *)
Definition operation (m : Module) (body result : JsVal) : Completion :=
  match m with
  | Enhancement =>
      MarkEnhanced (result_path result) (request_model body) (opt_prop "metrics" result)
  | Explainability => SaveExplainability result
  | Quality => SaveAQI (opt_prop "aqiScore" result) result
  | Forensics =>
      SaveForensics (opt_prop "authenticityScore" result)
        (opt_prop "tamperingDetected" result) result
  end.

(** An enhancement result whose path points at no file. *)
Definition enhanced_elsewhere : JsVal :=
  JObj [("enhancedFilePath", JStr "/srv/enhanced/clip_enhanced.wav");
        ("metrics", JObj [("snrImprovement", JStr "+12.4 dB")])].

(** The sample record after the enhancement run that got
    [enhanced_elsewhere] from the gateway. *)
Definition enhanced_sample : Audio :=
  put_res_enhancement (JObj [("snrImprovement", JStr "+12.4 dB")])
    (put_enhancementModel (Some "CleanUNet")
       (put_enhanced true
          (put_enhancedPath (Some "/srv/enhanced/clip_enhanced.wav") sample_audio))).

Definition run_enhanced : World * list Action * (JsError + option Response) :=
  run (answering enhanced_elsewhere)
    (serve sample_platform (RunModule Enhancement sample_body)) sample_world.

(** Explainability of the sample record when the body of the gateway's
    200 response is the JSON value [null]. *)
Definition run_explain_null : World * list Action * (JsError + option Response) :=
  run (answering JNull) (explainDenoising sample_platform sample_body) sample_world.

(** The gateway call a module handler makes. *)
Definition gateway_request (pf : Platform) (m : Module) (body : JsVal) (a : Audio)
    (src : string) (w : World) : Prog JsVal :=
  match m with
  | Enhancement => callEnhance pf src (request_model body) (request_settings body)
  | Explainability => callExplain pf src (enhanced_on_disk w a)
  | Quality => callAQI pf src
  | Forensics => callForensics pf src
  end.

(** A quality result with a lower score, for a second run. *)
Definition score_64 : JsVal :=
  JObj [("aqiScore", JNum 64); ("metrics", JObj [("snr", JStr "21.0 dB")])].

(** An enhancement result whose path is not a string. *)
Definition enhanced_true : JsVal := JObj [("enhancedFilePath", JBool true)].

(** The stored sample record after the requests [reqs], served one after
    the other, the gateway answering the i-th with the i-th result. *)
Fixpoint serve_all (reqs : list (JsVal * Request)) (w : World) : World :=
  match reqs with
  | [] => w
  | (data, req) :: rest =>
      serve_all rest (run (answering data) (serve sample_platform req) w).1.1
  end.

(** *** Schedules

    One step of run [tid] of the pool, the collaborators answering as [rm]
    does; nothing happens when the run has ended or does not exist. *)
Definition step_at (rm : Remote) (c : Config) (tid : nat) : Config :=
  match pool c !! tid with
  | Some (Vis e k) =>
      let '(w', x) := perform rm e (world c) in
      {| pool := <[tid := k x]> (pool c); world := w';
         log := log c ++ map (pair tid) (observe e) |}
  | _ => c
  end.

(** The runs take their steps in the order [tids] gives. *)
Definition schedule (rm : Remote) (tids : list nat) (c : Config) : Config :=
  foldl (step_at rm) c tids.

(** A forensics result. *)
Definition authentic_56 : JsVal :=
  JObj [("authenticityScore", JNum 56); ("tamperingDetected", JBool true);
        ("detections", JArr [])].

(** A Python service that scores quality 87 and authenticity 56. *)
Definition scoring : Remote :=
  {| python := fun ep _ => if String.eqb ep "/aqi" then inr score_87 else inr authentic_56;
     ffprobe := fun _ => None |}.

(** Quality scoring and forensics of the sample record, requested
    together. *)
Definition two_runs : Config :=
  {| pool := [calculateAQI sample_platform sample_body;
              detectTampering sample_platform sample_body];
     world := sample_world; log := [] |}.

(** The two runs taking turns, one effect each, until both have ended: both
    load the record before either saves. *)
Definition taking_turns : Config :=
  schedule scoring [0; 1; 0; 1; 0; 1; 0; 1; 0; 1; 0; 1; 0; 1; 0; 1]%nat two_runs.

(** The progress messages of a log, in order. *)
Definition emitted (tr : list Action) : list Progress :=
  omap (fun a => match a with Emitted msg => Some msg | _ => None end) tr.

(** A client that is sent [msgs], one after the other. *)
Definition receive (msgs : list Progress) (c : Client) : Client :=
  if Nat.eqb (readyState c) 1
  then {| readyState := readyState c; inbox := inbox c ++ msgs |}
  else c.

(** The program contains no [throw] that escapes it, whatever answers its
    effects get. *)
Fixpoint never_throws {R} (p : Prog R) : Prop :=
  match p with
  | Ret _ => True
  | Throw _ => False
  | Vis _ k => forall x, never_throws (k x)
  end.

(** The path [safeUnlink(filePath)] acts on, if any. *)
Definition unlink_target (filePath : option string) : gset string :=
  match nonempty filePath with
  | Some p => {[p]}
  | None => ∅
  end.

(** The sample record once enhanced, both files on disk, and a second
    record. *)
Definition library_world : World :=
  {| db := {[sample_id := put_enhancedPath (Some "uploads/clip_enhanced.wav") sample_audio;
             other_id := put_filename (Some "talk.mp3") default_audio]};
     fs := {["uploads/clip_1700000000000_42.wav"; "uploads/clip_enhanced.wav";
             "uploads/talk_1700000000002_9.mp3"]};
     wss := None |}.

(** ** The upload middleware (middleware/upload.js) *)

Definition ALLOWED_MIME_TYPES : list string :=
  ["audio/mpeg"; "audio/mp3"; "audio/wav"; "audio/x-wav"; "audio/wave";
   "audio/flac"; "audio/x-flac"; "audio/ogg"; "audio/vorbis"; "audio/mp4";
   "audio/x-m4a"; "audio/aac"].

Definition ALLOWED_EXTENSIONS : list string := [".wav"; ".mp3"; ".flac"; ".ogg"; ".m4a"].

(** [set.has(s)] *)
Definition has (set : list string) (s : string) : bool := existsb (String.eqb s) set.

(** The file as multer hands it to the filter and to the storage engine. *)
Record Part := {
  part_originalname : string;
  part_mimetype : string;
}.

(** [list.join(sep)] *)
Fixpoint join (sep : string) (l : list string) : string :=
  match l with
  | [] => ""
  | [s] => s
  | s :: rest => s +:+ sep +:+ join sep rest
  end.

(** The double quote. *)
Definition dquote : string := String (ascii_of_N 34) EmptyString.

(** What the filter passes to its callback: [cb(null, true)], or
    [cb(new multer.MulterError(code, text), false)]. *)
Inductive Filtered :=
| Accepted
| Rejected (code text : string).

(** fileFilter *)
Definition fileFilter (pf : Platform) (file : Part) : Filtered :=
  let ext := toLowerCase (path_extname pf (part_originalname file)) in
  let mimeType := toLowerCase (part_mimetype file) in
  if has ALLOWED_EXTENSIONS ext || has ALLOWED_MIME_TYPES mimeType then Accepted
  else
    Rejected "LIMIT_UNEXPECTED_FILE"
      ("Unsupported file type " +:+ dquote
       +:+ (if String.eqb ext "" then mimeType else ext) +:+ dquote +:+ ". "
       +:+ "Allowed formats: " +:+ join ", " ALLOWED_EXTENSIONS).

(** A character the storage engine keeps: [[a-zA-Z0-9_-]]. *)
Definition is_safe (c : ascii) : bool :=
  let n := N_of_ascii c in
  (((97 <=? n) && (n <=? 122)) || ((65 <=? n) && (n <=? 90))
   || ((48 <=? n) && (n <=? 57)) || (n =? 95) || (n =? 45))%N.

(** [s.replace(/[^a-zA-Z0-9_-]/g, '_')] *)
Fixpoint sanitise (s : string) : string :=
  match s with
  | EmptyString => EmptyString
  | String c s' => String (if is_safe c then c else "_"%char) (sanitise s')
  end.

(** [s.slice(0, n)] *)
Fixpoint slice0 (n : nat) (s : string) : string :=
  match n, s with
  | S n', String c s' => String c (slice0 n' s')
  | _, _ => EmptyString
  end.

(** Every character of [s] is one the storage engine keeps. *)
Fixpoint all_safe (s : string) : bool :=
  match s with
  | EmptyString => true
  | String c s' => is_safe c && all_safe s'
  end.

Section Storage.
Context (pf : Platform).
(** [path.basename(name, ext)] *)
Context (basename_ext : string -> string -> string).

(** The sanitised, capped base of the stored name. *)
Definition stored_base (file : Part) : string :=
  let ext := toLowerCase (path_extname pf (part_originalname file)) in
  slice0 60 (sanitise (basename_ext (part_originalname file) ext)).

(** storage.filename: the name under which multer stores the file; [now]
    is [Date.now()] and [rnd] is [Math.random()]. *)
Definition stored_filename (file : Part) (now rnd : Q) : string :=
  let ext := toLowerCase (path_extname pf (part_originalname file)) in
  stored_base file +:+ "_" +:+ number_to_string pf now +:+ "_"
  +:+ number_to_string pf (js_round (rnd * 1000000)) +:+ ext.
End Storage.

(** ** The global error handler (middleware/errorHandler.js) *)








(** ** The browser's API client (client/src/services/api.js) *)

(** The error the response interceptor rejects with:
    [{ message, status, data }]. *)
Record ClientError := {
  ce_message : string;
  ce_status : N;
  ce_data : JsVal;
}.

(** The response interceptor's error branch. *)
Definition normalise (pf : Platform) (error : AxiosError) : ClientError :=
  let data := match ax_response error with Some (_, d) => d | None => JUndefined end in
  let status := match ax_response error with Some (s, _) => s | None => 0%N end in
  let message :=
    js_or (opt_prop "message" data)
      (js_or (opt_prop "error" data)
         (js_or (JStr (ax_message error)) (JStr "An unexpected error occurred."))) in
  {| ce_message := error_text pf message;
     ce_status := status;
     ce_data := js_coalesce data JNull |}.

(** The percentage uploadAudio reports for a progress event:
    [Math.round((e.loaded * 100) / e.total)], nothing when [e.total] is
    missing or zero. *)
Definition upload_percent (loaded : Q) (total : option Q) : option Q :=
  match total with
  | Some t => if Qeq_bool t 0 then None else Some (js_round (loaded * 100 / t))
  | None => None
  end.

(** The JSON body of a failure answer of the controller:
    [{ success: false, message, error? }]. *)
Definition failure_body (res : Response) : JsVal :=
  JObj ([("success", JBool (res_success res)); ("message", JStr (res_message res))]
        ++ match res_error res with
           | Some e => [("error", JStr e)]
           | None => []
           end).

(** The record passes every validator of the schema. *)
Definition record_valid (a : Audio) : Prop := forall p, path_ok a p = true.

(** Every stored record passes every validator of the schema. *)
Definition all_valid (db : gmap string Audio) : Prop :=
  forall id a, db !! id = Some a -> record_valid a.

(** An enhancement request whose settings are [null]. *)
Definition null_settings_body : JsVal :=
  JObj [("audioId", JStr sample_id); ("settings", JNull)].

(** * Properties *)

(** ** The model on small inputs *)

Example trim_spaces : trim "  wav " = "wav".
Proof. reflexivity. Qed.

Example lowercase_mixed : toLowerCase "FlAc" = "flac".
Proof. reflexivity. Qed.

Example extension_of_clip : extension sample_platform sample_file = "wav".
Proof. reflexivity. Qed.

Example cast_yes : castBoolean (JStr "yes") = CastOk (Some true).
Proof. reflexivity. Qed.

Example cast_empty_string_number : castNumber sample_platform (JStr "") = CastOk None.
Proof. reflexivity. Qed.

Example refused_names_endpoint :
  handlePythonError sample_platform (AxiosFailure refused) "/aqi" =
  Error "Python service is not reachable at http://localhost:8000/aqi. Is it running?".
Proof. reflexivity. Qed.

(** Quality scoring of the registered clip with a gateway that returns 87:
    the record then shows the score and the raw metrics. *)
Example quality_scenario :
  (fun a => (aqiScore (processing a), opt_prop "snr" (opt_prop "metrics" (aqi (results a)))))
    <$> db (serve_all [(score_87, RunModule Quality sample_body)] sample_world) !! sample_id
  = Some (Some 87%Q, JStr "35.2 dB").
Proof. vm_compute. reflexivity. Qed.

(** Running quality scoring twice: the second result overwrites the
    first. *)
Example quality_rerun :
  (fun a => (aqiScore (processing a), opt_prop "snr" (opt_prop "metrics" (aqi (results a)))))
    <$> db (serve_all [(score_87, RunModule Quality sample_body);
                       (score_64, RunModule Quality sample_body)] sample_world) !! sample_id
  = Some (Some 64%Q, JStr "21.0 dB").
Proof. vm_compute. reflexivity. Qed.

(** Deleting twice: the record is gone after the first request, and the
    second is answered 404. *)
Example delete_twice :
  let first := run (answering JNull) (deleteAudio sample_platform (JStr sample_id)) sample_world in
  db first.1.1 !! sample_id = None /\
  (run (answering JNull) (deleteAudio sample_platform (JStr sample_id)) first.1.1).2 =
    inr (Some (failure 404 "Audio record not found."))%N.
Proof. vm_compute. split; reflexivity. Qed.

(** An enhancement result whose path is the boolean [true]: the record is
    saved, complete is broadcast, and building the answer then fails on
    [path.basename], so that error is broadcast as well. *)
Example enhance_non_string_path :
  (run (answering enhanced_true) (enhanceAudio sample_platform sample_body) sample_world).1.2 =
    [Emitted (processing_event Enhancement (JStr sample_id));
     GatewayBegan "/enhance"; GatewayEnded "/enhance";
     Emitted (complete_event Enhancement (JStr sample_id));
     Emitted (error_event sample_platform Enhancement (JStr sample_id) (TypeError "path"))].
Proof. vm_compute. reflexivity. Qed.

(** ** Running programs *)

Lemma run_bind {A B} (rm : Remote) (p : Prog A) (f : A -> Prog B) (w : World) :
  run rm (bind p f) w =
  let '(w1, tr1, r) := run rm p w in
  match r with
  | inl e => (w1, tr1, inl e)
  | inr x => let '(w2, tr2, r2) := run rm (f x) w1 in (w2, tr1 ++ tr2, r2)
  end.
Proof.
  revert w. induction p as [r|e|X e k IH]; intros w; simpl.
  - destruct (run rm (f r) w) as [[w2 tr2] r2]. reflexivity.
  - reflexivity.
  - destruct (perform rm e w) as [w1 x]. rewrite IH.
    destruct (run rm (k x) w1) as [[w2 tr] [err|y]]; simpl.
    + reflexivity.
    + destruct (run rm (f y) w2) as [[w3 tr3] r3]. simpl.
      rewrite app_assoc. reflexivity.
Qed.

Lemma run_try_catch {A} (rm : Remote) (p : Prog A) (h : JsError -> Prog A) (w : World) :
  run rm (try_catch p h) w =
  let '(w1, tr1, r) := run rm p w in
  match r with
  | inl e => let '(w2, tr2, r2) := run rm (h e) w1 in (w2, tr1 ++ tr2, r2)
  | inr x => (w1, tr1, inr x)
  end.
Proof.
  revert w. induction p as [r|e|X e k IH]; intros w; simpl.
  - reflexivity.
  - destruct (run rm (h e) w) as [[w2 tr2] r2]. reflexivity.
  - destruct (perform rm e w) as [w1 x]. rewrite IH.
    destruct (run rm (k x) w1) as [[w2 tr] [err|y]]; simpl.
    + destruct (run rm (h err) w2) as [[w3 tr3] r3]. simpl.
      rewrite app_assoc. reflexivity.
    + reflexivity.
Qed.

Lemma prop_Some_get (pf : Platform) (k k' : string) (v x : JsVal) :
  prop k v = Some x -> exists y, get k' v = Ret y /\ prop k' v = Some y.
Proof.
  destruct v; simpl; intros H; try discriminate; unfold get; simpl; eauto.
Qed.

Lemma isValid_cast (pf : Platform) (v : JsVal) (id : ObjectId) :
  to_object_id pf v = Some id -> isValid pf v = true.
Proof.
  intros H. unfold isValid. rewrite H, bool_decide_eq_true_2 by eauto. reflexivity.
Qed.

(** When the opening checks pass, a module handler is its [try] block. *)
Lemma with_source_present (pf : Platform) (rm : Remote) (w : World)
    (audioId : JsVal) (id : ObjectId) (a : Audio) (p : string)
    (k : Document -> string -> Prog (option Response)) :
  truthy audioId = true -> to_object_id pf audioId = Some id ->
  db w !! id = Some a -> source_at w a p ->
  run rm (with_source pf audioId k) w = run rm (k (loaded id a) p) w.
Proof.
  intros Ht Hid Hdb [Hp Hfs]. unfold with_source.
  rewrite Ht, (isValid_cast pf _ _ Hid), Hid. simpl. rewrite Hdb. simpl. rewrite Hp. simpl.
  rewrite bool_decide_eq_true_2 by done.
  destruct (run rm (k (loaded id a) p) w) as [[w2 tr] r]. reflexivity.
Qed.

(** When the source file is gone, a module handler answers 404 and does
    nothing else. *)
Lemma with_source_missing (pf : Platform) (rm : Remote) (w : World)
    (audioId : JsVal) (id : ObjectId) (a : Audio)
    (k : Document -> string -> Prog (option Response)) :
  truthy audioId = true -> to_object_id pf audioId = Some id ->
  db w !! id = Some a -> source_missing w a ->
  run rm (with_source pf audioId k) w =
  (w, [], inr (Some (failure 404 "Original audio file not found on disk."))).
Proof.
  intros Ht Hid Hdb Hm. unfold with_source, source_missing in *.
  rewrite Ht, (isValid_cast pf _ _ Hid), Hid. simpl. rewrite Hdb. simpl.
  destruct (nonempty (originalPath a)) as [p|]; simpl; [|reflexivity].
  rewrite bool_decide_eq_false_2 by done. reflexivity.
Qed.

(** C6. An enhancement run on a record whose source file is absent from
    storage answers 404 "Original audio file not found on disk." before
    anything is broadcast: the log of the run is empty and the world (the
    collection, the disk and every client's inbox) is as it was. *)
Theorem enhance_source_missing_no_events (pf : Platform) (rm : Remote) (w : World)
    (body audioId : JsVal) (id : ObjectId) (a : Audio) :
  names_record pf w body audioId id a ->
  source_missing w a ->
  run rm (enhanceAudio pf body) w =
  (w, [], inr (Some (failure 404 "Original audio file not found on disk."))).
Proof.
  intros (Hb & Ht & Hid & Hdb) Hm. unfold enhanceAudio.
  destruct (prop_Some_get pf "audioId" "model" _ _ Hb) as (model & Hg1 & _).
  destruct (prop_Some_get pf "audioId" "settings" _ _ Hb) as (settings & Hg2 & _).
  destruct (prop_Some_get pf "audioId" "audioId" _ _ Hb) as (x & Hg0 & Hx).
  rewrite Hb in Hx. injection Hx as <-.
  rewrite Hg0, Hg1, Hg2. simpl.
  apply with_source_missing with (id := id) (a := a); assumption.
Qed.

Lemma enhance_source_missing_no_events_witness :
  run (answering JNull) (enhanceAudio sample_platform sample_body) orphaned_world =
  (orphaned_world, [], inr (Some (failure 404 "Original audio file not found on disk."))).
Proof.
  apply (enhance_source_missing_no_events sample_platform (answering JNull)
           orphaned_world sample_body (JStr sample_id) sample_id sample_audio).
  - repeat split; vm_compute; reflexivity.
  - apply (bool_decide_unpack _). vm_compute. exact I.
Defined.

Lemma db_broadcast (msg : Progress) (w : World) : db (broadcast msg w) = db w.
Proof. unfold broadcast. destruct (wss w); reflexivity. Qed.

Lemma fs_broadcast (msg : Progress) (w : World) : fs (broadcast msg w) = fs w.
Proof. unfold broadcast. destruct (wss w); reflexivity. Qed.

Lemma with_db_same (d : gmap string Audio) (w : World) :
  db w = d -> with_db (fun _ => d) w = w.
Proof. intros <-. destruct w; reflexivity. Qed.

(** ** The handlers compute the closed form *)

Lemma get_of_prop (k : string) (v x : JsVal) :
  prop k v = Some x -> get k v = Ret x.
Proof. unfold get. intros ->. reflexivity. Qed.

Lemma prop_opt_prop (k k' : string) (v x : JsVal) :
  prop k v = Some x -> prop k' v = Some (opt_prop k' v).
Proof. destruct v; simpl; intros H; try discriminate; reflexivity. Qed.

Lemma opt_prop_of_prop (k : string) (v x : JsVal) :
  prop k v = Some x -> opt_prop k v = x.
Proof. unfold opt_prop. intros ->. reflexivity. Qed.

Lemma nonempty_neq (o : option string) (p : string) :
  nonempty o = Some p -> String.eqb p "" = false.
Proof.
  destruct o as [s|]; simpl; [|discriminate].
  destruct (String.eqb s "") eqn:E; [discriminate|]. intros [= <-]. exact E.
Qed.

Lemma save_error_db d db0 db' err : save d db0 = (db', inl err) -> db' = db0.
Proof.
  unfold save. destruct (validation_errors d).
  - destruct (db0 !! _id (preSave d)); destruct (isNew (preSave d)); intros [= <- _] || intros [=]; reflexivity.
  - intros [= <- _]. reflexivity.
Qed.

Ltac exec :=
  cbn [run try_catch bind trigger perform observe post gateway_call
       callAQI callForensics callExplain callEnhance await_save on_error
       app fst snd].

Ltac save_cases :=
  rewrite ?db_broadcast;
  match goal with
  | |- context [save ?d (db ?w)] =>
      let H := fresh "Hsave" in
      destruct (save d (db w)) as [?db' [?err|?saved]] eqn:H;
      [ apply save_error_db in H; subst; rewrite with_db_same by apply db_broadcast | ];
      exec
  end.

Ltac fold_props :=
  repeat match goal with
         | H : prop ?k ?v = Some ?x |- context [opt_prop ?k ?v] =>
             rewrite (opt_prop_of_prop _ _ _ H)
         end.

Ltac post_cases :=
  match goal with
  | |- context [python ?r ?ep ?f] =>
      destruct (python r ep f) as [?e|?result]; exec
  end.

Ltac get_cases k :=
  unfold get at 1;
  match goal with
  | |- context [prop k ?v] =>
      let H := fresh "Hget" in
      destruct (prop k v) as [?x|] eqn:H; exec
  end.

Ltac get_more k :=
  match goal with
  | H : prop _ ?v = Some _ |- context [get k ?v] =>
      rewrite (get_of_prop _ _ _ (prop_opt_prop _ k _ _ H)); exec
  end.

Lemma quality_closed_form pf rm w body audioId id a src :
  names_record pf w body audioId id a -> source_at w a src ->
  run rm (calculateAQI pf body) w = module_run pf rm Quality body audioId id a src w.
Proof.
  intros (Hb & Ht & Hid & Hdb) Hsrc.
  unfold calculateAQI. rewrite (get_of_prop _ _ _ Hb). cbn [bind].
  rewrite (with_source_present pf rm w audioId id a src) by assumption.
  unfold module_run, gateway_outcome, request_form, completion, answer, caught.
  cbn [endpoint module_name].
  exec.
  destruct (python rm "/aqi" (buildAudioForm src [])) as [e|result]; exec.
  - reflexivity.
  - unfold get at 1. destruct (prop "aqiScore" result) as [score|] eqn:Hs; exec.
    + save_cases.
      * reflexivity.
      * rewrite (get_of_prop _ _ _ (prop_opt_prop _ "metrics" _ _ Hs)). exec.
        rewrite (opt_prop_of_prop _ _ _ Hs). reflexivity.
    + reflexivity.
Qed.

Lemma forensics_closed_form pf rm w body audioId id a src :
  names_record pf w body audioId id a -> source_at w a src ->
  run rm (detectTampering pf body) w = module_run pf rm Forensics body audioId id a src w.
Proof.
  intros (Hb & Ht & Hid & Hdb) Hsrc.
  unfold detectTampering. rewrite (get_of_prop _ _ _ Hb). cbn [bind].
  rewrite (with_source_present pf rm w audioId id a src) by assumption.
  unfold module_run, gateway_outcome, request_form, completion, answer, caught.
  cbn [endpoint module_name].
  exec.
  destruct (python rm "/forensics" (buildAudioForm src [])) as [e|result]; exec.
  - reflexivity.
  - unfold get at 1. destruct (prop "authenticityScore" result) as [score|] eqn:Hs; exec.
    + rewrite (get_of_prop _ _ _ (prop_opt_prop _ "tamperingDetected" _ _ Hs)). exec.
      save_cases.
      * reflexivity.
      * rewrite (get_of_prop _ _ _ (prop_opt_prop _ "detections" _ _ Hs)).
        rewrite (get_of_prop _ _ _ (prop_opt_prop _ "summary" _ _ Hs)). exec.
        rewrite (opt_prop_of_prop _ _ _ Hs). reflexivity.
    + reflexivity.
Qed.

Lemma explain_closed_form pf rm w body audioId id a src :
  names_record pf w body audioId id a -> source_at w a src ->
  run rm (explainDenoising pf body) w = module_run pf rm Explainability body audioId id a src w.
Proof.
  intros (Hb & Ht & Hid & Hdb) Hsrc.
  unfold explainDenoising. rewrite (get_of_prop _ _ _ Hb). cbn [bind].
  rewrite (with_source_present pf rm w audioId id a src) by assumption.
  unfold module_run, gateway_outcome, request_form, completion, answer, caught,
    enhanced_on_disk.
  cbn [endpoint module_name doc loaded].
  exec.
  destruct (nonempty (enhancedPath a)) as [p|] eqn:Hne; exec;
    [ rewrite fs_broadcast;
      destruct (bool_decide (p ∈ fs w)) eqn:Hin; exec;
      [ rewrite (nonempty_neq _ _ Hne); exec; rewrite fs_broadcast, Hin; exec | ] | ].
  all: post_cases; [reflexivity|].
  all: save_cases; [reflexivity|].
  all: get_cases "noiseDetections"; [|reflexivity].
  all: get_more "spectrograms"; get_more "report"; reflexivity.
Qed.

Lemma enhance_closed_form pf rm w body audioId id a src :
  names_record pf w body audioId id a -> source_at w a src ->
  run rm (enhanceAudio pf body) w = module_run pf rm Enhancement body audioId id a src w.
Proof.
  intros (Hb & Ht & Hid & Hdb) Hsrc.
  unfold enhanceAudio. rewrite (get_of_prop _ _ _ Hb).
  rewrite (get_of_prop _ _ _ (prop_opt_prop _ "model" _ _ Hb)).
  rewrite (get_of_prop _ _ _ (prop_opt_prop _ "settings" _ _ Hb)).
  cbn [bind].
  rewrite (with_source_present pf rm w audioId id a src) by assumption.
  unfold module_run, gateway_outcome, request_form, completion, answer, caught,
    request_model, request_settings, result_path.
  cbn [endpoint module_name doc loaded].
  set (model := default_arg (opt_prop "model" body) (JStr "CleanUNet")).
  set (settings := default_arg (opt_prop "settings" body) (JObj [])).
  assert (Hm : default_arg model (JStr "CleanUNet") = model).
  { unfold model. destruct (opt_prop "model" body); reflexivity. }
  assert (Hs : default_arg settings (JObj []) = settings).
  { unfold settings. destruct (opt_prop "settings" body); reflexivity. }
  exec. rewrite Hm, Hs.
  get_cases "noiseReductionStrength"; [|reflexivity].
  get_more "preserveSpeech". get_more "processingMode".
  post_cases; [reflexivity|].
  get_cases "enhancedFilePath"; [|reflexivity].
  get_more "enhanced_file_path". get_more "metrics".
  fold_props.
  save_cases; [reflexivity|].
  match goal with
  | |- context [truthy ?v] => destruct (truthy v) eqn:Htr; exec; [|reflexivity];
      destruct v; exec; reflexivity
  end.
Qed.

(** Once the opening checks have passed, a module handler run alone does
    what [module_run] says. *)
Lemma module_run_closed_form (pf : Platform) (rm : Remote) (m : Module) (w : World)
    (body audioId : JsVal) (id : ObjectId) (a : Audio) (src : string) :
  names_record pf w body audioId id a -> source_at w a src ->
  run rm (handler pf m body) w = module_run pf rm m body audioId id a src w.
Proof.
  destruct m; simpl.
  - apply enhance_closed_form.
  - apply explain_closed_form.
  - apply quality_closed_form.
  - apply forensics_closed_form.
Qed.

(** The gateway call of a module run changes nothing in the world, logs
    its start and its end, and settles as [gateway_outcome] says. *)
Lemma gateway_request_settles (pf : Platform) (rm : Remote) (m : Module) (body : JsVal)
    (a : Audio) (src : string) (w : World) :
  run rm (gateway_request pf m body a src w) w =
  (w, [GatewayBegan (endpoint m); GatewayEnded (endpoint m)],
   gateway_outcome pf rm m body a src w).
Proof.
  unfold gateway_outcome, request_form.
  destruct m; cbn [gateway_request endpoint]; exec.
  - assert (Hm : default_arg (request_model body) (JStr "CleanUNet") = request_model body).
    { unfold request_model. destruct (opt_prop "model" body); reflexivity. }
    assert (Hs : default_arg (request_settings body) (JObj []) = request_settings body).
    { unfold request_settings. destruct (opt_prop "settings" body); reflexivity. }
    rewrite Hm, Hs.
    get_cases "noiseReductionStrength"; [|reflexivity].
    get_more "preserveSpeech". get_more "processingMode".
    post_cases; reflexivity.
  - unfold enhanced_on_disk.
    destruct (nonempty (enhancedPath a)) as [p|] eqn:Hne; exec.
    + destruct (bool_decide (p ∈ fs w)) eqn:Hin; exec.
      * rewrite (nonempty_neq _ _ Hne). exec. rewrite Hin. exec.
        post_cases; reflexivity.
      * post_cases; reflexivity.
    + post_cases; reflexivity.
  - post_cases; reflexivity.
  - post_cases; reflexivity.
Qed.

(** ** Gateway failures

    C4. When the gateway call of a module run fails, throwing [err], the
    run broadcasts exactly one processing and one error message, in that
    order around the gateway call, answers 502 with the message of [err],
    and leaves the collection and the disk as they were. *)
Theorem gateway_failure_reported (pf : Platform) (rm : Remote) (w : World) (m : Module)
    (body audioId : JsVal) (id : ObjectId) (a : Audio) (src : string) (err : JsError) :
  names_record pf w body audioId id a ->
  source_at w a src ->
  (run rm (gateway_request pf m body a src w) w).2 = inl err ->
  exists w',
    run rm (handler pf m body) w =
      (w',
       [Emitted (processing_event m audioId);
        GatewayBegan (endpoint m); GatewayEnded (endpoint m);
        Emitted (error_event pf m audioId err)],
       inr (Some (failure 502 (err_message pf err)))) /\
    w' = broadcast (error_event pf m audioId err)
           (broadcast (processing_event m audioId) w) /\
    db w' = db w /\ fs w' = fs w.
Proof.
  intros Hrec Hsrc Hfail. rewrite gateway_request_settles in Hfail. simpl in Hfail.
  eexists. split.
  - rewrite (module_run_closed_form pf rm m w body audioId id a src Hrec Hsrc).
    unfold module_run. rewrite Hfail. reflexivity.
  - split; [reflexivity|].
    rewrite !db_broadcast, !fs_broadcast. split; reflexivity.
Qed.

Lemma gateway_failure_reported_witness :
  exists w',
    run (rejecting timed_out) (handler sample_platform Forensics sample_body) sample_world =
      (w',
       [Emitted (processing_event Forensics (JStr sample_id));
        GatewayBegan "/forensics"; GatewayEnded "/forensics";
        Emitted (error_event sample_platform Forensics (JStr sample_id)
                   (Error "Python service timed out on /forensics. Try a shorter audio file."))],
       inr (Some (failure 502
                    "Python service timed out on /forensics. Try a shorter audio file."))) /\
    w' = broadcast (error_event sample_platform Forensics (JStr sample_id)
                      (Error "Python service timed out on /forensics. Try a shorter audio file."))
           (broadcast (processing_event Forensics (JStr sample_id)) sample_world) /\
    db w' = db sample_world /\ fs w' = fs sample_world.
Proof.
  apply (gateway_failure_reported sample_platform (rejecting timed_out) sample_world
           Forensics sample_body (JStr sample_id) sample_id sample_audio
           "uploads/clip_1700000000000_42.wav"
           (Error "Python service timed out on /forensics. Try a shorter audio file.")).
  - repeat split; vm_compute; reflexivity.
  - split; [reflexivity|]. apply (bool_decide_unpack _). vm_compute. exact I.
  - vm_compute. reflexivity.
Defined.

(** ** Saving *)

Lemma write_paths_proj {T} (f : Audio -> T) (p0 : Path) :
  (forall src p dst, f (copy_path src p dst) = if decide (p = p0) then f src else f dst) ->
  forall ps src cur,
    f (write_paths ps src cur) = if decide (p0 ∈ ps) then f src else f cur.
Proof.
  intros Hcopy ps src cur. induction ps as [|p ps IH].
  - case_decide as H; [by apply elem_of_nil in H | done].
  - change (write_paths (p :: ps) src cur)
      with (copy_path src p (write_paths ps src cur)).
    rewrite Hcopy, IH.
    destruct (decide (p = p0)) as [->|Hne], (decide (p0 ∈ ps)) as [Hin|Hnin],
      (decide (p0 ∈ _ :: ps)) as [Hin'|Hnin']; try reflexivity.
    all: exfalso.
    all: try (rewrite elem_of_cons in Hnin'; apply Hnin'; auto; fail).
    all: rewrite elem_of_cons in Hin'; destruct Hin'; [congruence|contradiction].
Qed.

Ltac copy_path_proj := let p := fresh "p" in intros ? p ?; destruct p; reflexivity.

Lemma write_paths_aqiScore ps src cur :
  aqiScore (processing (write_paths ps src cur)) =
  if decide (PAqiScore ∈ ps) then aqiScore (processing src) else aqiScore (processing cur).
Proof. apply (write_paths_proj (fun a => aqiScore (processing a))). copy_path_proj. Qed.

Lemma write_paths_authenticityScore ps src cur :
  authenticityScore (processing (write_paths ps src cur)) =
  if decide (PAuthenticityScore ∈ ps) then authenticityScore (processing src)
  else authenticityScore (processing cur).
Proof. apply (write_paths_proj (fun a => authenticityScore (processing a))). copy_path_proj. Qed.

Lemma write_paths_format ps src cur :
  format (write_paths ps src cur) =
  if decide (PFormat ∈ ps) then format src else format cur.
Proof. apply (write_paths_proj format). copy_path_proj. Qed.

(** ** Values and marks *)

Lemma deepEqual_eq (x y : JsVal) : deepEqual x y = true <-> x = y.
Proof.
  revert y. induction x as [x IH] using (induction_ltof1 _ size_of). unfold ltof in IH.
  intros y. destruct x as [| |a|a|a|xs|ps], y as [| |b|b|b|ys|qs];
    simpl; try (split; [discriminate|discriminate]); try (split; reflexivity).
  - rewrite Bool.eqb_true_iff. split; [intros ->; reflexivity|intros [= ->]; reflexivity].
  - destruct a as [n1 d1], b as [n2 d2]. simpl.
    rewrite andb_true_iff, Z.eqb_eq, Pos.eqb_eq.
    split; [intros [-> ->]; reflexivity|intros [= -> ->]; split; reflexivity].
  - rewrite String.eqb_eq. split; [intros ->; reflexivity|intros [= ->]; reflexivity].
  - revert ys. induction xs as [|x xs IHxs]; intros [|y ys];
      try (split; [discriminate|discriminate]).
    + split; reflexivity.
    + rewrite andb_true_iff, (IH x) by (simpl; lia).
      rewrite IHxs.
      * split; [intros [-> [= ->]]; reflexivity|intros [= -> ->]; split; reflexivity].
      * intros z Hz. apply IH. simpl in *. lia.
  - revert qs. induction ps as [|[k x] ps IHps]; intros [|[l y] qs];
      try (split; [discriminate|discriminate]).
    + split; reflexivity.
    + rewrite !andb_true_iff, String.eqb_eq, (IH x) by (simpl; lia).
      rewrite IHps.
      * split; [intros [[-> ->] [= ->]]; reflexivity
               |intros [= -> -> ->]; repeat split; reflexivity].
      * intros z Hz. apply IH. simpl in *. lia.
Qed.

Lemma deepEqual_refl (x : JsVal) : deepEqual x x = true.
Proof. by apply deepEqual_eq. Qed.

Lemma marked_elem (p q : Path) (a : Audio) (d : Document) :
  q ∈ marked p a d -> q = p \/ q ∈ modified d.
Proof.
  unfold marked. destruct (isNew d || negb (deepEqual _ _)); [|auto].
  intros [->|H]%elem_of_cons; auto.
Qed.

Lemma marked_incl (p q : Path) (a : Audio) (d : Document) :
  q ∈ modified d -> q ∈ marked p a d.
Proof.
  unfold marked. destruct (isNew d || negb (deepEqual _ _)); [|auto].
  intros H. by apply list_elem_of_further.
Qed.

Lemma marked_differs (p : Path) (a : Audio) (d : Document) :
  value_at p a <> value_at p (doc d) -> p ∈ marked p a d.
Proof.
  intros H. unfold marked. destruct (deepEqual (value_at p a) (value_at p (doc d))) eqn:E.
  - apply deepEqual_eq in E. contradiction.
  - rewrite orb_true_r. apply list_elem_of_here.
Qed.

Lemma unmarked_same (p : Path) (a : Audio) (d : Document) :
  p ∉ marked p a d -> isNew d = false /\ value_at p a = value_at p (doc d).
Proof.
  unfold marked. destruct (isNew d); simpl.
  { intros H. exfalso. apply H, list_elem_of_here. }
  destruct (deepEqual (value_at p a) (value_at p (doc d))) eqn:E; simpl.
  - intros _. split; [reflexivity|]. apply deepEqual_eq, E.
  - intros H. exfalso. apply H, list_elem_of_here.
Qed.

Lemma value_at_copy (p q : Path) (src dst : Audio) :
  value_at p (copy_path src q dst) = if decide (q = p) then value_at p src else value_at p dst.
Proof.
  destruct (decide (q = p)) as [->|Hne].
  - destruct p; reflexivity.
  - destruct p, q; try reflexivity; contradiction.
Qed.

Lemma value_at_write (p : Path) (ps : list Path) (src cur : Audio) :
  value_at p (write_paths ps src cur) =
  if decide (p ∈ ps) then value_at p src else value_at p cur.
Proof. apply (write_paths_proj (value_at p) p). intros. apply value_at_copy. Qed.

Lemma js_str_inj (x y : option string) : js_str x = js_str y -> x = y.
Proof. destruct x, y; simpl; congruence. Qed.

Lemma js_num_inj (x y : option Q) : js_num x = js_num y -> x = y.
Proof. destruct x, y; simpl; congruence. Qed.

Lemma js_bool_inj (x y : option bool) : js_bool x = js_bool y -> x = y.
Proof. destruct x, y; simpl; congruence. Qed.

(** A record is its values at the paths of the schema. *)
Lemma value_at_ext (x y : Audio) : (forall p, value_at p x = value_at p y) -> x = y.
Proof.
  intros H.
  pose proof (js_str_inj _ _ (H PFilename)) as H1.
  pose proof (js_str_inj _ _ (H POriginalPath)) as H2.
  pose proof (js_str_inj _ _ (H PEnhancedPath)) as H3.
  pose proof (js_str_inj _ _ (H PFormat)) as H4.
  pose proof (js_num_inj _ _ (H PDuration)) as H5.
  pose proof (js_num_inj _ _ (H PSampleRate)) as H6.
  pose proof (js_num_inj _ _ (H PChannels)) as H7.
  pose proof (js_num_inj _ _ (H PFileSize)) as H8.
  pose proof (js_num_inj _ _ (H PBitrate)) as H9.
  pose proof (H PEnhanced) as H10.
  pose proof (js_str_inj _ _ (H PEnhancementModel)) as H11.
  pose proof (js_num_inj _ _ (H PAqiScore)) as H12.
  pose proof (js_num_inj _ _ (H PAuthenticityScore)) as H13.
  pose proof (js_bool_inj _ _ (H PTamperingDetected)) as H14.
  pose proof (H PResEnhancement) as H15.
  pose proof (H PResExplainability) as H16.
  pose proof (H PResAqi) as H17.
  pose proof (H PResForensics) as H18.
  destruct x as [? ? ? ? ? ? ? ? ? [] []], y as [? ? ? ? ? ? ? ? ? [] []].
  simpl in *. congruence.
Qed.

Lemma value_at_updated (p : Path) (x : Audio) :
  value_at p (updated x) = if is_result p then store_mixed (value_at p x) else value_at p x.
Proof. destruct p; reflexivity. Qed.

Lemma filter_none {A} (f : A -> bool) (l : list A) :
  (forall x, x ∈ l -> f x = false) -> filter f l = [].
Proof.
  induction l as [|x l IH]; intros H; [reflexivity|].
  rewrite filter_cons, (H x) by apply list_elem_of_here. simpl.
  apply IH. intros y Hy. apply H, list_elem_of_further, Hy.
Qed.

(** ** Documents that track the record they were loaded from *)

Lemma tracks_unmarked (a : Audio) (d : Document) (p : Path) :
  tracks a d -> p ∉ modified d -> value_at p (doc d) = value_at p a.
Proof.
  intros [_ Ht] Hp. destruct (deepEqual (value_at p (doc d)) (value_at p a)) eqn:E.
  - apply deepEqual_eq, E.
  - exfalso. apply Hp, Ht. intros H. apply deepEqual_eq in H. congruence.
Qed.

Lemma tracks_loaded (id : ObjectId) (a : Audio) : tracks a (loaded id a).
Proof.
  split; [reflexivity|]. intros p. simpl. split.
  - intros H. apply elem_of_nil in H. contradiction.
  - intros H. contradiction.
Qed.

Lemma tracks_assign_raw (a : Audio) (p : Path) (put : Audio -> Audio) (d : Document) :
  (forall q x, q <> p -> value_at q (put x) = value_at q x) ->
  p ∉ modified d ->
  tracks a d -> tracks a (assign_raw p put d).
Proof.
  intros Hput Hp Ht. pose proof (tracks_unmarked a d p Ht Hp) as Hsame.
  destruct Ht as [Hnew Ht]. split; [exact Hnew|]. intros q. simpl.
  destruct (decide (q = p)) as [->|Hne].
  - rewrite <- Hsame. split.
    + intros Hin Heq. unfold marked in Hin. rewrite Hnew, Heq, deepEqual_refl in Hin.
      simpl in Hin. contradiction.
    + apply marked_differs.
  - rewrite Hput by exact Hne. rewrite <- Ht. split.
    + intros [->|H]%marked_elem; [contradiction|exact H].
    + apply marked_incl.
Qed.

Lemma tracks_cast_error (a : Audio) (p : Path) (d : Document) :
  tracks a d ->
  tracks a {| _id := _id d; isNew := isNew d; doc := doc d; modified := modified d;
              invalid := p :: invalid d |}.
Proof. intros Ht. exact Ht. Qed.

Ltac put_local := let q := fresh "q" in
  intros; match goal with H : ?q <> _ |- _ => destruct q; try reflexivity; contradiction end.

Ltac not_marked := let H := fresh "H" in
  intros H; repeat (apply marked_elem in H as [H|H]; [discriminate|]);
  apply elem_of_nil in H; exact H.

Lemma tracks_completion (pf : Platform) (id : ObjectId) (op : Completion) (a : Audio) :
  tracks a (apply_completion pf op (loaded id a)).
Proof.
  destruct op as [x mdl metrics|score details|score tampered details|data]; simpl;
    unfold markEnhanced, saveAQI, saveForensics, saveExplainability.
  - destruct (castTrimmed pf x) as [v1|], (castString pf mdl) as [v2|]; unfold assign;
      repeat first [ apply tracks_loaded
                   | apply tracks_cast_error
                   | apply tracks_assign_raw; [put_local|not_marked|] ].
  - destruct (castNumber pf score) as [v1|]; unfold assign;
      repeat first [ apply tracks_loaded
                   | apply tracks_cast_error
                   | apply tracks_assign_raw; [put_local|not_marked|] ].
  - destruct (castNumber pf score) as [v1|], (castBoolean tampered) as [v2|]; unfold assign;
      repeat first [ apply tracks_loaded
                   | apply tracks_cast_error
                   | apply tracks_assign_raw; [put_local|not_marked|] ].
  - repeat first [ apply tracks_loaded
                 | apply tracks_assign_raw; [put_local|not_marked|] ].
Qed.

Lemma module_paths_disjoint (m1 m2 : Module) (p : Path) :
  m1 <> m2 -> p ∈ module_paths m1 -> p ∉ module_paths m2.
Proof.
  intros Hm H1 H2. destruct m1, m2; try contradiction; simpl in *;
    repeat (apply elem_of_cons in H1 as [->|H1]);
    try (apply elem_of_nil in H1; contradiction);
    repeat (apply elem_of_cons in H2 as [H2|H2]; [discriminate|]);
    apply elem_of_nil in H2; contradiction.
Qed.

Lemma module_paths_format (m : Module) : PFormat ∉ module_paths m.
Proof.
  intros H. destruct m; simpl in H;
    repeat (apply elem_of_cons in H as [H|H]; [discriminate|]);
    apply elem_of_nil in H; contradiction.
Qed.

Ltac in_paths :=
  simpl; repeat first [apply list_elem_of_here | apply list_elem_of_further].

(** The paths a completion marks are paths of its module. *)
Lemma completion_marks (pf : Platform) (id : ObjectId) (op : Completion) (a : Audio) (p : Path) :
  p ∈ modified (apply_completion pf op (loaded id a)) -> p ∈ module_paths (module_of op).
Proof.
  destruct op as [x mdl metrics|score details|score tampered details|data]; simpl;
    unfold markEnhanced, saveAQI, saveForensics, saveExplainability.
  - destruct (castTrimmed pf x) as [v1|], (castString pf mdl) as [v2|]; simpl; intros H;
      repeat (apply marked_elem in H as [->|H]; [in_paths|]);
      apply elem_of_nil in H; contradiction.
  - destruct (castNumber pf score) as [v1|]; simpl; intros H;
      repeat (apply marked_elem in H as [->|H]; [in_paths|]);
      apply elem_of_nil in H; contradiction.
  - destruct (castNumber pf score) as [v1|], (castBoolean tampered) as [v2|]; simpl; intros H;
      repeat (apply marked_elem in H as [->|H]; [in_paths|]);
      apply elem_of_nil in H; contradiction.
  - intros H. repeat (apply marked_elem in H as [->|H]; [in_paths|]).
    apply elem_of_nil in H; contradiction.
Qed.

Lemma tracks_preSave (a : Audio) (d : Document) :
  PFormat ∉ modified d -> tracks a d -> tracks a (preSave d).
Proof.
  intros Hp Ht. unfold preSave. destruct (format (doc d)) as [s|]; [|exact Ht].
  destruct (String.eqb s ""); [exact Ht|].
  apply tracks_assign_raw; [put_local|exact Hp|exact Ht].
Qed.

Lemma tracks_saved (pf : Platform) (id : ObjectId) (op : Completion) (a : Audio) :
  tracks a (preSave (apply_completion pf op (loaded id a))).
Proof.
  apply tracks_preSave; [|apply tracks_completion].
  intros H. apply completion_marks in H. exact (module_paths_format _ H).
Qed.

(** What an update from a tracking document leaves in the record: outside
    Results, the fields of the document. *)
Lemma stored_value (a : Audio) (d : Document) (p : Path) :
  tracks a d ->
  value_at p (write_paths (modified d) (updated (doc d)) a) =
  if is_result p && bool_decide (p ∈ modified d) then store_mixed (value_at p (doc d))
  else value_at p (doc d).
Proof.
  intros Ht. rewrite value_at_write, value_at_updated.
  destruct (decide (p ∈ modified d)) as [Hin|Hnin].
  - rewrite bool_decide_eq_true_2 by exact Hin. rewrite andb_true_r. reflexivity.
  - rewrite bool_decide_eq_false_2 by exact Hnin. rewrite andb_false_r.
    symmetry. apply tracks_unmarked; assumption.
Qed.

Lemma stored_minimized (a : Audio) (d : Document) :
  tracks a d -> minimized a ->
  write_paths (modified d) (updated (doc d)) a = updated (doc d).
Proof.
  intros Ht Hmin. apply value_at_ext. intros p.
  rewrite (stored_value a d p Ht), value_at_updated.
  destruct (is_result p) eqn:Hr; [|reflexivity]. simpl.
  destruct (bool_decide (p ∈ modified d)) eqn:Hin; [reflexivity|].
  apply bool_decide_eq_false in Hin.
  rewrite (tracks_unmarked a d p Ht Hin). pose proof (f_equal (value_at p) Hmin) as Hp.
  rewrite value_at_updated, Hr in Hp. symmetry. exact Hp.
Qed.

Lemma stored_processing (a : Audio) (d : Document) :
  tracks a d ->
  processing (write_paths (modified d) (updated (doc d)) a) = processing (doc d).
Proof.
  intros Ht.
  pose proof (stored_value a d PEnhanced Ht) as H1.
  pose proof (stored_value a d PEnhancementModel Ht) as H2.
  pose proof (stored_value a d PAqiScore Ht) as H3.
  pose proof (stored_value a d PAuthenticityScore Ht) as H4.
  pose proof (stored_value a d PTamperingDetected Ht) as H5.
  simpl in *. apply js_str_inj in H2. apply js_num_inj in H3, H4. apply js_bool_inj in H5.
  destruct (processing (write_paths _ _ _)), (processing (doc d)). simpl in *. congruence.
Qed.

Lemma stored_enhancedPath (a : Audio) (d : Document) :
  tracks a d ->
  enhancedPath (write_paths (modified d) (updated (doc d)) a) = enhancedPath (doc d).
Proof. intros Ht. apply js_str_inj. exact (stored_value a d PEnhancedPath Ht). Qed.

Lemma stored_format (a : Audio) (d : Document) :
  tracks a d ->
  format (write_paths (modified d) (updated (doc d)) a) = format (doc d).
Proof. intros Ht. apply js_str_inj. exact (stored_value a d PFormat Ht). Qed.

Lemma preSave_id d : _id (preSave d) = _id d.
Proof.
  unfold preSave. destruct (format (doc d)) as [s|]; [|reflexivity].
  destruct (String.eqb s ""); reflexivity.
Qed.

Lemma preSave_isNew d : isNew (preSave d) = isNew d.
Proof.
  unfold preSave. destruct (format (doc d)) as [s|]; [|reflexivity].
  destruct (String.eqb s ""); reflexivity.
Qed.

Lemma save_Saved d db : Saved d db (save d db).1 (save d db).2.
Proof.
  unfold save. destruct (validation_errors d) as [|p errs] eqn:Hv.
  - rewrite preSave_id, preSave_isNew.
    destruct (db !! _id d) as [cur|] eqn:Hl; destruct (isNew d) eqn:Hn; simpl.
    + eapply Saved_duplicate; eauto.
    + eapply Saved_updated; eauto.
    + eapply Saved_inserted; eauto.
    + eapply Saved_missing; eauto.
  - simpl. apply Saved_invalid; [assumption|discriminate].
Qed.

Lemma save_loaded (d : Document) (db : gmap string Audio) (cur : Audio) :
  isNew d = false -> db !! _id d = Some cur ->
  save d db =
  match validation_errors d with
  | [] => (<[_id d := write_paths (modified (preSave d)) (updated (doc (preSave d))) cur]> db,
           inr (clean (preSave d)))
  | errs => (db, inl (ValidationError errs))
  end.
Proof.
  intros Hn Hcur. unfold save. destruct (validation_errors d); [|reflexivity].
  rewrite preSave_id, preSave_isNew, Hcur, Hn. reflexivity.
Qed.

(** ** Registration computes its closed form *)

Lemma run_find_audio (pf : Platform) (rm : Remote) (l : list JsVal) (w : World) :
  run rm (find_audio l) w = (w, [], find_audio_result l).
Proof.
  induction l as [|s rest IH]; simpl; [reflexivity|].
  unfold get. destruct (prop "codec_type" s) as [t|]; simpl; [|reflexivity].
  destruct (is_string "audio" t); [reflexivity|exact IH].
Qed.

Lemma run_safeUnlink (rm : Remote) (p : string) (w : World) :
  run rm (safeUnlink (Some p)) w = (unlinked p w, [], inr tt).
Proof.
  unfold safeUnlink, unlinked, nonempty.
  destruct (String.eqb p ""); [reflexivity|]. simpl.
  destruct (bool_decide (p ∈ fs w)) eqn:Hin; simpl; [|reflexivity].
  rewrite Hin. reflexivity.
Qed.

Lemma upload_closed_form (pf : Platform) (rm : Remote) (file : File) (id : ObjectId)
    (w : World) :
  run rm (uploadAudio pf (Some file) id) w = upload_run pf rm file id w.
Proof.
  unfold uploadAudio, upload_run, upload_attempt. cbv zeta.
  cbn [run try_catch bind trigger perform observe app].
  destruct (probed_streams (ffprobe rm (path file))) as [| | | | |l|];
    cbn [run try_catch bind app];
    try (rewrite run_bind, run_safeUnlink; reflexivity).
  rewrite run_try_catch, run_bind, (run_find_audio pf).
  destruct (find_audio_result l) as [err|found].
  - rewrite run_bind, run_safeUnlink. reflexivity.
  - cbn [run try_catch bind trigger perform observe app await_save].
    destruct (save _ (db w)) as [db' [err|saved]] eqn:Hsave;
      cbn [run try_catch bind app].
    + apply save_error_db in Hsave. subst db'. rewrite with_db_same by reflexivity.
      rewrite run_bind, run_safeUnlink. reflexivity.
    + reflexivity.
Qed.

(** ** Registration *)

Lemma save_inv (d : Document) (db db' : gmap string Audio) (r : JsError + Document) :
  save d db = (db', r) -> Saved d db db' r.
Proof. intros H. pose proof (save_Saved d db) as HS. rewrite H in HS. exact HS. Qed.

Lemma inserted_processing a : processing (inserted a) = processing a.
Proof. reflexivity. Qed.

Lemma inserted_enhancedPath a : enhancedPath (inserted a) = enhancedPath a.
Proof. reflexivity. Qed.

Lemma inserted_format a : format (inserted a) = format a.
Proof. reflexivity. Qed.

Lemma updated_processing a : processing (updated a) = processing a.
Proof. reflexivity. Qed.

Lemma updated_enhancedPath a : enhancedPath (updated a) = enhancedPath a.
Proof. reflexivity. Qed.

Lemma updated_format a : format (updated a) = format a.
Proof. reflexivity. Qed.

(** A record whose Results entries are all null is inserted as it is. *)
Lemma inserted_blank a : results a = default_results -> results (inserted a) = default_results.
Proof. intros H. unfold inserted, map_results. simpl. rewrite H. reflexivity. Qed.

Lemma preSave_processing d : processing (doc (preSave d)) = processing (doc d).
Proof.
  unfold preSave. destruct (format (doc d)) as [s|]; [|reflexivity].
  destruct (String.eqb s ""); reflexivity.
Qed.

Lemma preSave_results d : results (doc (preSave d)) = results (doc d).
Proof.
  unfold preSave. destruct (format (doc d)) as [s|]; [|reflexivity].
  destruct (String.eqb s ""); reflexivity.
Qed.

Lemma preSave_enhancedPath d : enhancedPath (doc (preSave d)) = enhancedPath (doc d).
Proof.
  unfold preSave. destruct (format (doc d)) as [s|]; [|reflexivity].
  destruct (String.eqb s ""); reflexivity.
Qed.

(** An assignment that leaves [f] alone. *)
Lemma assign_frame {A T} (f : Audio -> T) (p : Path) (c : Cast A)
    (put : option A -> Audio -> Audio) (d : Document) :
  (forall v a, f (put v a) = f a) -> f (doc (assign p c put d)) = f (doc d).
Proof. intros H. destruct c; simpl; [apply H|reflexivity]. Qed.

Lemma assign_isNew {A} (p : Path) (c : Cast A) (put : option A -> Audio -> Audio)
    (d : Document) : isNew (assign p c put d) = isNew d.
Proof. destruct c; reflexivity. Qed.

Lemma assign_id {A} (p : Path) (c : Cast A) (put : option A -> Audio -> Audio)
    (d : Document) : _id (assign p c put d) = _id d.
Proof. destruct c; reflexivity. Qed.

Lemma new_Audio_frame {T} (f : Audio -> T) pf id v1 v2 v3 v4 v5 v6 v7 c :
  (forall v a, f (put_filename v a) = f a) ->
  (forall v a, f (put_originalPath v a) = f a) ->
  (forall v a, f (put_format v a) = f a) ->
  (forall v a, f (put_duration v a) = f a) ->
  (forall v a, f (put_sampleRate v a) = f a) ->
  (forall v a, f (put_channels v a) = f a) ->
  (forall v a, f (put_fileSize v a) = f a) ->
  (forall v a, f (put_bitrate v a) = f a) ->
  f (doc (new_Audio pf id v1 v2 v3 v4 v5 v6 v7 c)) = f default_audio.
Proof.
  intros. unfold new_Audio. rewrite !assign_frame by assumption. reflexivity.
Qed.

Lemma new_Audio_isNew pf id v1 v2 v3 v4 v5 v6 v7 c :
  isNew (new_Audio pf id v1 v2 v3 v4 v5 v6 v7 c) = true.
Proof. unfold new_Audio. rewrite !assign_isNew. reflexivity. Qed.

Lemma new_Audio_id pf id v1 v2 v3 v4 v5 v6 v7 c :
  _id (new_Audio pf id v1 v2 v3 v4 v5 v6 v7 c) = id.
Proof. unfold new_Audio. rewrite !assign_id. reflexivity. Qed.

(** A registration that is answered 201 has stored the document it
    built, after the pre-save hook. *)
Lemma upload_stored (pf : Platform) (rm : Remote) (file : option File) (id : ObjectId)
    (w w' : World) (tr : list Action) (res : Response) :
  run rm (uploadAudio pf file id) w = (w', tr, inr (Some res)) ->
  res_status res = 201%N ->
  exists f d,
    file = Some f /\ upload_attempt pf rm f id = inr d /\
    db w !! id = None /\
    w' = with_db (fun _ => <[id := inserted (doc (preSave d))]> (db w)) w.
Proof.
  intros Hrun Hst. destruct file as [f|].
  2:{ simpl in Hrun. injection Hrun as _ _ <-. discriminate. }
  rewrite upload_closed_form in Hrun. unfold upload_run in Hrun.
  destruct (upload_attempt pf rm f id) as [err|d] eqn:Hat.
  { injection Hrun as _ _ <-. discriminate. }
  destruct (save d (db w)) as [db' [err|saved]] eqn:Hsave.
  { injection Hrun as _ _ <-. discriminate. }
  injection Hrun as <- _ _.
  assert (Hd : isNew d = true /\ _id d = id).
  { unfold upload_attempt in Hat.
    destruct (probed_streams (ffprobe rm (path f))); try discriminate.
    destruct (find_audio_result items); [discriminate|].
    injection Hat as <-. unfold upload_document.
    split; [apply new_Audio_isNew | apply new_Audio_id]. }
  destruct Hd as [Hnew Hid].
  apply save_inv in Hsave. inversion Hsave; subst; try congruence.
  exists f, d. repeat split; assumption || reflexivity.
Qed.

(** C9. A registration that succeeds (201) stores a record whose
    processing flags are all false or null ([enhanced = false];
    [enhancementModel], [aqiScore], [authenticityScore],
    [tamperingDetected] null), whose four Results entries are null and
    whose enhanced path is null. *)
Theorem registration_starts_blank (pf : Platform) (rm : Remote) (file : option File)
    (id : ObjectId) (w w' : World) (tr : list Action) (res : Response) :
  run rm (uploadAudio pf file id) w = (w', tr, inr (Some res)) ->
  res_status res = 201%N ->
  exists a, db w' !! id = Some a /\
    processing a = default_processing /\
    results a = default_results /\
    enhancedPath a = None.
Proof.
  intros Hrun Hst.
  destruct (upload_stored pf rm file id w w' tr res Hrun Hst)
    as (f & d & -> & Hat & Hfree & ->).
  exists (inserted (doc (preSave d))). split; [apply lookup_insert_eq|].
  rewrite inserted_processing, inserted_enhancedPath.
  rewrite (inserted_blank (doc (preSave d))); rewrite ?preSave_results;
  rewrite ?preSave_processing, ?preSave_enhancedPath.
  all: unfold upload_attempt in Hat.
  all: destruct (probed_streams (ffprobe rm (path f))); try discriminate.
  all: destruct (find_audio_result items); [discriminate|].
  all: injection Hat as <-; unfold upload_document.
  all: repeat split; apply new_Audio_frame; reflexivity.
Qed.

Lemma registration_starts_blank_witness :
  exists a,
    db (run (answering JNull) (uploadAudio sample_platform (Some sample_file) sample_id)
          fresh_world).1.1 !! sample_id = Some a /\
    processing a = default_processing /\
    results a = default_results /\
    enhancedPath a = None.
Proof.
  eapply (registration_starts_blank sample_platform (answering JNull)
            (Some sample_file) sample_id fresh_world).
  - vm_compute. reflexivity.
  - reflexivity.
Defined.

Lemma unlinked_gone (p : string) (w : World) :
  p <> "" -> p ∉ fs (unlinked p w).
Proof.
  intros Hp. unfold unlinked.
  destruct (String.eqb p "") eqn:E; [apply String.eqb_eq in E; contradiction|].
  destruct (bool_decide (p ∈ fs w)) eqn:Hin.
  - simpl. intros [_ H]%elem_of_difference. apply H. by apply elem_of_singleton.
  - apply bool_decide_eq_false in Hin. exact Hin.
Qed.

Lemma db_unlinked (p : string) (w : World) : db (unlinked p w) = db w.
Proof.
  unfold unlinked. destruct (String.eqb p ""); [reflexivity|].
  destruct (bool_decide (p ∈ fs w)); reflexivity.
Qed.

(** C8, as the code has it. A registration that fails after multer wrote
    the file (the probe result cannot be read, or the save is rejected) is
    answered 500 "Upload processing failed.", and the registration itself
    has removed the written file: the catch block calls safeUnlink on it.
    The collection is unchanged. *)
Theorem registration_failure_rolls_back (pf : Platform) (rm : Remote) (file : File)
    (id : ObjectId) (w w' : World) (tr : list Action) (r : JsError + option Response) :
  run rm (uploadAudio pf (Some file) id) w = (w', tr, r) ->
  (forall res, r = inr (Some res) -> res_status res <> 201%N) ->
  (exists err, r = inr (Some (upload_failure pf err))) /\
  w' = unlinked (path file) w /\
  db w' = db w /\
  (path file <> "" -> path file ∉ fs w').
Proof.
  intros Hrun Hfail. rewrite upload_closed_form in Hrun. unfold upload_run in Hrun.
  assert (Hrb : forall err,
    (unlinked (path file) w, @nil Action,
     @inr JsError _ (Some (upload_failure pf err))) = (w', tr, r) ->
    (exists err, r = inr (Some (upload_failure pf err))) /\
    w' = unlinked (path file) w /\ db w' = db w /\
    (path file <> "" -> path file ∉ fs w')).
  { intros err [= <- <- <-]. split; [eauto|]. split; [reflexivity|].
    split; [apply db_unlinked | apply unlinked_gone]. }
  destruct (upload_attempt pf rm file id) as [err|d]; [eapply Hrb; eassumption|].
  destruct (save d (db w)) as [db' [err|saved]]; [eapply Hrb; eassumption|].
  injection Hrun as <- <- <-. exfalso. eapply Hfail; reflexivity.
Qed.

(** C8 as stated fails: the registration of track.wma is rejected by the
    format validator, and the file multer wrote is gone afterwards. *)
Lemma registration_failure_removes_file :
  exists w' tr res,
    run (answering JNull) (uploadAudio sample_platform (Some wma_file) sample_id)
      fresh_world = (w', tr, inr (Some res)) /\
    res_status res = 500%N /\
    path wma_file ∈ fs fresh_world /\
    path wma_file ∉ fs w'.
Proof.
  do 3 eexists. split; [vm_compute; reflexivity|].
  split; [reflexivity|].
  split; apply (bool_decide_unpack _); vm_compute; exact I.
Qed.

Lemma registration_failure_rolls_back_witness :
  (exists err,
     (run (answering JNull) (uploadAudio sample_platform (Some wma_file) sample_id)
        fresh_world).2 = inr (Some (upload_failure sample_platform err))) /\
  (run (answering JNull) (uploadAudio sample_platform (Some wma_file) sample_id)
     fresh_world).1.1 = unlinked (path wma_file) fresh_world /\
  db (run (answering JNull) (uploadAudio sample_platform (Some wma_file) sample_id)
        fresh_world).1.1 = db fresh_world /\
  (path wma_file <> "" ->
   path wma_file ∉ fs (run (answering JNull)
     (uploadAudio sample_platform (Some wma_file) sample_id) fresh_world).1.1).
Proof.
  eapply (registration_failure_rolls_back sample_platform (answering JNull) wma_file
            sample_id fresh_world).
  - vm_compute. reflexivity.
  - intros res H. vm_compute in H. injection H as <-. discriminate.
Defined.

(** ** Invariants of the collection *)

(** Whatever a program does, it changes the collection through [save] and
    [findByIdAndDelete] only. *)
Lemma run_invariant (I : gmap string Audio -> Prop) :
  (forall d db, I db -> I (save d db).1) ->
  (forall id db, I db -> I (delete id db)) ->
  forall {R} (p : Prog R) (rm : Remote) (w : World),
    I (db w) -> I (db (run rm p w).1.1).
Proof.
  intros Hsave Hdel R p rm. induction p as [r|e|X e k IH]; intros w Hw; simpl.
  - exact Hw.
  - exact Hw.
  - destruct (perform rm e w) as [w1 x] eqn:Hp.
    assert (Hw1 : I (db w1)).
    { destruct e; simpl in Hp.
      - injection Hp as <- _. exact Hw.
      - destruct (save d (db w)) as [db' r] eqn:Hs. injection Hp as <- _. simpl.
        specialize (Hsave d (db w) Hw). rewrite Hs in Hsave. exact Hsave.
      - injection Hp as <- _. simpl. apply Hdel, Hw.
      - injection Hp as <- _. exact Hw.
      - destruct (bool_decide (p ∈ fs w)); injection Hp as <- _; exact Hw.
      - injection Hp as <- _. rewrite db_broadcast. exact Hw.
      - injection Hp as <- _. exact Hw.
      - injection Hp as <- _. exact Hw.
      - injection Hp as <- _. exact Hw.
      - injection Hp as <- _. exact Hw. }
    specialize (IH x w1 Hw1).
    destruct (run rm (k x) w1) as [[w2 tr] r]. exact IH.
Qed.

Lemma lower_ascii_not_upper (c : ascii) : is_upper (lower_ascii c) = false.
Proof. destruct c as [[] [] [] [] [] [] [] []]; reflexivity. Qed.

Lemma toLowerCase_all_lower (s : string) : all_lower (toLowerCase s) = true.
Proof.
  induction s as [|c s IH]; simpl; [reflexivity|].
  rewrite lower_ascii_not_upper, IH. reflexivity.
Qed.

(** The format a document carries out of the pre-save hook is lowercase. *)
Lemma preSave_format_lower (d : Document) (f : string) :
  format (doc (preSave d)) = Some f -> all_lower f = true.
Proof.
  unfold preSave. destruct (format (doc d)) as [s|] eqn:Hf; [|rewrite Hf; discriminate].
  destruct (String.eqb s "") eqn:E.
  - rewrite Hf. intros [= <-]. apply String.eqb_eq in E. subst. reflexivity.
  - simpl. intros [= <-]. apply toLowerCase_all_lower.
Qed.

Lemma formats_lowercase_insert (db : gmap string Audio) (id : ObjectId) (a : Audio) :
  formats_lowercase db ->
  (forall f, format a = Some f -> all_lower f = true) ->
  formats_lowercase (<[id := a]> db).
Proof.
  intros Hdb Ha id' a' f Hl Hf.
  destruct (decide (id = id')) as [->|Hne].
  - rewrite lookup_insert_eq in Hl. injection Hl as <-. eauto.
  - rewrite lookup_insert_ne in Hl by assumption. eauto.
Qed.

Lemma save_formats_lowercase (d : Document) (db : gmap string Audio) :
  formats_lowercase db -> formats_lowercase (save d db).1.
Proof.
  intros Hdb. destruct (save_Saved d db); try assumption.
  - apply formats_lowercase_insert; [assumption|]. apply preSave_format_lower.
  - apply formats_lowercase_insert; [assumption|]. intros f.
    rewrite write_paths_format. case_decide.
    + apply preSave_format_lower.
    + intros Hf. eapply Hdb; eassumption.
Qed.

Lemma delete_formats_lowercase (id : ObjectId) (db : gmap string Audio) :
  formats_lowercase db -> formats_lowercase (delete id db).
Proof.
  intros Hdb id' a f Hl Hf. apply lookup_delete_Some in Hl as [_ Hl]. eauto.
Qed.

Lemma new_Audio_format pf id v1 v2 ext v4 v5 v6 v7 c :
  format (doc (new_Audio pf id v1 v2 (JStr ext) v4 v5 v6 v7 c)) = Some (trim ext).
Proof.
  unfold new_Audio.
  rewrite !(assign_frame format) by reflexivity.
  reflexivity.
Qed.

Lemma toLowerCase_empty (s : string) : String.eqb s "" = true -> toLowerCase s = s.
Proof. intros E. apply String.eqb_eq in E. subst. reflexivity. Qed.

(** C10. If every stored format is lowercase, it still is after any
    request has been served: a save stores the format that comes out of the
    pre-save hook, which lowercases it, or leaves the stored one alone.
    A registration that succeeds stores the lowercased (and trimmed)
    extension of the original file name. *)
Theorem formats_stay_lowercase (pf : Platform) (rm : Remote) (req : Request)
    (w w' : World) (tr : list Action) (r : JsError + option Response) :
  formats_lowercase (db w) ->
  run rm (serve pf req) w = (w', tr, r) ->
  formats_lowercase (db w') /\
  (forall file id res,
     req = Upload (Some file) id -> r = inr (Some res) -> res_status res = 201%N ->
     exists a, db w' !! id = Some a /\
       format a = Some (toLowerCase (trim (extension pf file)))).
Proof.
  intros Hw Hrun. split.
  - pose proof (run_invariant formats_lowercase save_formats_lowercase
                  delete_formats_lowercase (serve pf req) rm w Hw) as H.
    rewrite Hrun in H. exact H.
  - intros file id res -> -> Hst. simpl in Hrun.
    destruct (upload_stored pf rm (Some file) id w w' tr res Hrun Hst)
      as (f & d & [= <-] & Hat & Hfree & ->).
    exists (inserted (doc (preSave d))). split; [apply lookup_insert_eq|].
    rewrite inserted_format.
    unfold upload_attempt in Hat.
    destruct (probed_streams (ffprobe rm (path file))); try discriminate.
    destruct (find_audio_result items); [discriminate|].
    injection Hat as <-. unfold preSave, upload_document.
    rewrite new_Audio_format.
    destruct (String.eqb (trim (extension pf file)) "") eqn:E.
    + rewrite new_Audio_format, (toLowerCase_empty _ E). reflexivity.
    + reflexivity.
Qed.

Lemma formats_stay_lowercase_witness :
  formats_lowercase
    (db (run (answering JNull) (serve sample_platform (Upload (Some sample_file) other_id))
           sample_world).1.1) /\
  (forall file id res,
     Upload (Some sample_file) other_id = Upload (Some file) id ->
     (run (answering JNull) (serve sample_platform (Upload (Some sample_file) other_id))
        sample_world).2 = inr (Some res) ->
     res_status res = 201%N ->
     exists a,
       db (run (answering JNull)
             (serve sample_platform (Upload (Some sample_file) other_id))
             sample_world).1.1 !! id = Some a /\
       format a = Some (toLowerCase (trim (extension sample_platform file)))).
Proof.
  eapply (formats_stay_lowercase sample_platform (answering JNull)
            (Upload (Some sample_file) other_id) sample_world).
  - intros id a f Hl Hf. change (db sample_world) with ({[sample_id := sample_audio]} : gmap string Audio) in Hl.
    apply lookup_singleton_Some in Hl as [_ <-].
    vm_compute in Hf. injection Hf as <-. reflexivity.
  - vm_compute. reflexivity.
Defined.

Lemma validation_passed (d : Document) :
  validation_errors d = [] ->
  invalid d = [] /\ forall p, p ∈ validated_paths d -> path_ok (doc d) p = true.
Proof.
  unfold validation_errors. intros H. apply app_eq_nil in H as [Hi Hf].
  split; [exact Hi|]. intros p Hp.
  destruct (path_ok (doc d) p) eqn:E; [reflexivity|].
  assert (Hin : p ∈ filter (fun p => negb (path_ok (doc d) p)) (validated_paths d)).
  { apply list_elem_of_filter. split; [|exact Hp]. rewrite E. exact I. }
  rewrite Hf in Hin. by apply elem_of_nil in Hin.
Qed.

Lemma range_ok (lo hi : Q) (v : option Q) :
  min_ok lo v && max_ok hi v = true ->
  match v with Some q => (lo <= q)%Q /\ (q <= hi)%Q | None => True end.
Proof.
  destruct v as [q|]; simpl; [|trivial].
  intros [H1 H2]%andb_true_iff. split; apply Qle_bool_iff; assumption.
Qed.

Lemma preSave_modified (d : Document) (p : Path) :
  p ∈ modified (preSave d) -> p = PFormat \/ p ∈ modified d.
Proof.
  unfold preSave. destruct (format (doc d)) as [s|]; [|auto].
  destruct (String.eqb s ""); [auto|]. simpl.
  intros [->|H]%marked_elem; auto.
Qed.

Lemma scores_in_range_insert (db : gmap string Audio) (id : ObjectId) (a : Audio) :
  scores_in_range db ->
  within_0_100 (aqiScore (processing a)) ->
  within_0_100 (authenticityScore (processing a)) ->
  scores_in_range (<[id := a]> db).
Proof.
  intros Hdb H1 H2 id' a' Hl.
  destruct (decide (id = id')) as [->|Hne].
  - rewrite lookup_insert_eq in Hl. injection Hl as <-. auto.
  - rewrite lookup_insert_ne in Hl by assumption. eauto.
Qed.

(** A score that passed validation lies in [0, 100]. *)
Lemma validated_score (d : Document) (p : Path) :
  validation_errors d = [] -> p ∈ validated_paths d ->
  (p = PAqiScore -> within_0_100 (aqiScore (processing (doc d)))) /\
  (p = PAuthenticityScore -> within_0_100 (authenticityScore (processing (doc d)))).
Proof.
  intros Hv Hp. destruct (validation_passed d Hv) as [_ Hok].
  specialize (Hok p Hp). split; intros ->; apply (range_ok 0 100); exact Hok.
Qed.

Lemma save_scores_in_range (d : Document) (db : gmap string Audio) :
  scores_in_range db -> scores_in_range (save d db).1.
Proof.
  intros Hdb. destruct (save_Saved d db) as [| | |Hv Hnew Hfree|cur Hv Hnew Hcur];
    try assumption.
  - apply scores_in_range_insert; [assumption| |]; rewrite ?inserted_processing, ?updated_processing, ?preSave_processing.
    + eapply (validated_score d PAqiScore); [assumption| |reflexivity].
      unfold validated_paths. rewrite Hnew. unfold all_paths.
      rewrite !elem_of_cons. tauto.
    + eapply (validated_score d PAuthenticityScore); [assumption| |reflexivity].
      unfold validated_paths. rewrite Hnew. unfold all_paths.
      rewrite !elem_of_cons. tauto.
  - destruct (Hdb _ _ Hcur) as [Hc1 Hc2].
    apply scores_in_range_insert; [assumption| |].
    + rewrite write_paths_aqiScore. case_decide as Hin; [|exact Hc1].
      rewrite ?inserted_processing, ?updated_processing, ?preSave_processing.
      apply preSave_modified in Hin as [|Hin]; [discriminate|].
      eapply (validated_score d PAqiScore); [assumption| |reflexivity].
      unfold validated_paths. rewrite Hnew. exact Hin.
    + rewrite write_paths_authenticityScore. case_decide as Hin; [|exact Hc2].
      rewrite ?inserted_processing, ?updated_processing, ?preSave_processing.
      apply preSave_modified in Hin as [|Hin]; [discriminate|].
      eapply (validated_score d PAuthenticityScore); [assumption| |reflexivity].
      unfold validated_paths. rewrite Hnew. exact Hin.
Qed.

Lemma delete_scores_in_range (id : ObjectId) (db : gmap string Audio) :
  scores_in_range db -> scores_in_range (delete id db).
Proof.
  intros Hdb id' a Hl. apply lookup_delete_Some in Hl as [_ Hl]. eauto.
Qed.

(** ** Scores *)


Lemma preSave_modified_incl (d : Document) (p : Path) :
  p ∈ modified d -> p ∈ modified (preSave d).
Proof.
  unfold preSave. destruct (format (doc d)) as [s|]; [|auto].
  destruct (String.eqb s ""); [auto|]. simpl. intros H. by apply marked_incl.
Qed.

(** The document a scored module hands to [save()] carries the gateway's
    score as it came. *)
Lemma completion_score (pf : Platform) (m : Module) (body : JsVal) (id : ObjectId)
    (a : Audio) (result : JsVal) (q : Q) :
  scored m = true ->
  prop (score_field m) result = Some (JNum q) ->
  exists d, completion pf m body id a result = inr d /\
    headline_score m (doc d) = Some q /\
    (headline_score m a <> Some q -> score_path m ∈ modified d) /\
    isNew d = false /\ _id d = id /\ tracks a (preSave d).
Proof.
  intros Hm Hp. destruct m; try discriminate; simpl in *; rewrite Hp.
  - eexists. split; [reflexivity|]. unfold saveAQI.
    split; [reflexivity|]. split; [|split; [reflexivity|split; [reflexivity|]]].
    + intros Hne. apply marked_incl, marked_differs. simpl. intros E.
      apply Hne. apply js_num_inj. symmetry. exact E.
    + apply (tracks_saved pf id (SaveAQI (JNum q) result) a).
  - eexists. split; [reflexivity|]. unfold saveForensics.
    split; [destruct (castBoolean (opt_prop "tamperingDetected" result)); reflexivity|].
    split; [|split; [|split]].
    + intros Hne.
      assert (Hin : PAuthenticityScore ∈
                modified (assign PAuthenticityScore (castNumber pf (JNum q))
                            put_authenticityScore (loaded id a))).
      { apply marked_differs. simpl. intros E.
        apply Hne. apply js_num_inj. symmetry. exact E. }
      apply marked_incl.
      destruct (castBoolean (opt_prop "tamperingDetected" result)); [|exact Hin].
      apply marked_incl, Hin.
    + destruct (castBoolean (opt_prop "tamperingDetected" result)); reflexivity.
    + destruct (castBoolean (opt_prop "tamperingDetected" result)); reflexivity.
    + apply (tracks_saved pf id
               (SaveForensics (JNum q) (opt_prop "tamperingDetected" result) result) a).
Qed.

Lemma headline_path_ok (m : Module) (a : Audio) (q : Q) :
  scored m = true -> headline_score m a = Some q ->
  path_ok a (score_path m) = Qle_bool 0 q && Qle_bool q 100.
Proof.
  intros Hm Hq. destruct m; try discriminate; simpl in *; rewrite Hq; reflexivity.
Qed.

(** A loaded document whose modified score is out of range is rejected,
    and nothing is written. *)
Lemma save_rejects_out_of_range (m : Module) (d : Document) (db : gmap string Audio) (q : Q) :
  scored m = true -> headline_score m (doc d) = Some q ->
  score_path m ∈ modified d -> isNew d = false ->
  ~ ((0 <= q)%Q /\ (q <= 100)%Q) ->
  exists errs, save d db = (db, inl (ValidationError errs)).
Proof.
  intros Hm Hq Hin Hnew Hout. unfold save.
  destruct (validation_errors d) as [|p errs] eqn:Hv; [|eauto].
  exfalso. destruct (validation_passed d Hv) as [_ Hok].
  specialize (Hok (score_path m)). unfold validated_paths in Hok. rewrite Hnew in Hok.
  specialize (Hok Hin). rewrite (headline_path_ok m _ q Hm Hq) in Hok.
  apply andb_true_iff in Hok as [H1 H2]. apply Hout.
  split; apply Qle_bool_iff; assumption.
Qed.

Lemma preSave_headline (m : Module) (d : Document) :
  headline_score m (doc (preSave d)) = headline_score m (doc d).
Proof. unfold headline_score. rewrite preSave_processing. reflexivity. Qed.

(** C1, as the code has it. A run of quality scoring or of forensics
    keeps every stored score within [0, 100], by validation and not by
    clamping: a score of the gateway inside [0, 100] is stored as it came
    whenever the run answers 200, and a score outside [0, 100] makes
    [save()] fail validation, so that the run broadcasts error, answers 502
    and stores nothing. *)
Theorem scores_validated_not_clamped (pf : Platform) (rm : Remote) (m : Module)
    (w w' : World) (body audioId : JsVal) (id : ObjectId) (a : Audio) (src : string)
    (tr : list Action) (r : JsError + option Response) (result : JsVal) (q : Q) :
  scored m = true ->
  scores_in_range (db w) ->
  names_record pf w body audioId id a ->
  source_at w a src ->
  gateway_outcome pf rm m body a src w = inr result ->
  prop (score_field m) result = Some (JNum q) ->
  run rm (handler pf m body) w = (w', tr, r) ->
  scores_in_range (db w') /\
  ((0 <= q)%Q /\ (q <= 100)%Q ->
   forall res, r = inr (Some res) -> res_status res = 200%N ->
   exists a', db w' !! id = Some a' /\ headline_score m a' = Some q) /\
  (~ ((0 <= q)%Q /\ (q <= 100)%Q) ->
   db w' = db w /\
   exists err,
     r = inr (Some (failure 502 (err_message pf err))) /\
     last tr = Some (Emitted (error_event pf m audioId err))).
Proof.
  intros Hm Hinv Hrec Hsrc Hgw Hscore Hrun. split.
  { pose proof (run_invariant scores_in_range save_scores_in_range
                  delete_scores_in_range (handler pf m body) rm w Hinv) as H.
    rewrite Hrun in H. exact H. }
  rewrite (module_run_closed_form pf rm m w body audioId id a src Hrec Hsrc) in Hrun.
  unfold module_run in Hrun. rewrite Hgw in Hrun.
  destruct (completion_score pf m body id a result q Hm Hscore)
    as (d & Hd & Hq & Hin & Hnew & Hid & Ht).
  rewrite Hd in Hrun. destruct Hrec as (_ & _ & _ & Hdb). split.
  - intros _ res -> Hst.
    destruct (save d (db w)) as [db' [err|saved]] eqn:Hsave.
    { unfold caught in Hrun. injection Hrun as _ _ <-. discriminate. }
    apply save_inv in Hsave.
    inversion Hsave as [| | | |cur Hv Hn Hcur]; subst; try congruence.
    rewrite Hdb in Hcur. injection Hcur as <-.
    assert (Hw' : db w' = <[_id d := write_paths (modified (preSave d))
                                     (updated (doc (preSave d))) a]> (db w)).
    { destruct (answer pf m body audioId result (clean (preSave d))) as [err|res'].
      - unfold caught in Hrun. injection Hrun as <- _ _.
        rewrite !db_broadcast. reflexivity.
      - injection Hrun as <- _ _. rewrite !db_broadcast. reflexivity. }
    eexists. split; [rewrite Hw'; apply lookup_insert_eq|].
    unfold headline_score.
    rewrite (stored_processing a (preSave d)) by exact Ht.
    fold (headline_score m (doc (preSave d))). rewrite preSave_headline. exact Hq.
  - intros Hout.
    assert (Hne : headline_score m a <> Some q).
    { intros E. apply Hout. destruct (Hinv _ a Hdb) as [H1 H2].
      destruct m; try discriminate; simpl in E.
      - rewrite E in H1. exact H1.
      - rewrite E in H2. exact H2. }
    destruct (save_rejects_out_of_range m d (db w) q Hm Hq (Hin Hne) Hnew Hout)
      as [errs Hsave].
    rewrite Hsave in Hrun. unfold caught in Hrun. injection Hrun as <- <- <-.
    split; [rewrite !db_broadcast; reflexivity|].
    exists (ValidationError errs). split; reflexivity.
Qed.


(** C1 as stated fails: with a gateway score of 105 nothing is clamped and
    stored; the run answers 502 and the stored score is still null, not
    100. *)
Lemma quality_score_105_not_clamped :
  exists w' tr res,
    run (answering score_105) (calculateAQI sample_platform sample_body) sample_world
      = (w', tr, inr (Some res)) /\
    res_status res = 502%N /\
    db w' = db sample_world /\
    forall a', db w' !! sample_id = Some a' ->
      aqiScore (processing a') <> Some (spec_clamp 105).
Proof.
  do 3 eexists. split; [vm_compute; reflexivity|].
  split; [reflexivity|]. split; [reflexivity|].
  intros a' Hl. vm_compute in Hl. injection Hl as <-. discriminate.
Qed.

Lemma scores_validated_not_clamped_witness :
  scores_in_range (db run_105.1.1) /\
  ((0 <= 105)%Q /\ (105 <= 100)%Q ->
   forall res, run_105.2 = inr (Some res) -> res_status res = 200%N ->
   exists a', db run_105.1.1 !! sample_id = Some a' /\ headline_score Quality a' = Some 105%Q) /\
  (~ ((0 <= 105)%Q /\ (105 <= 100)%Q) ->
   db run_105.1.1 = db sample_world /\
   exists err,
     run_105.2 = inr (Some (failure 502 (err_message sample_platform err))) /\
     last run_105.1.2 = Some (Emitted (error_event sample_platform Quality (JStr sample_id) err))).
Proof.
  apply (scores_validated_not_clamped sample_platform (answering score_105) Quality
           sample_world run_105.1.1 sample_body (JStr sample_id) sample_id sample_audio
           "uploads/clip_1700000000000_42.wav" run_105.1.2 run_105.2 score_105 105%Q).
  - reflexivity.
  - intros id a Hl.
    change (db sample_world) with ({[sample_id := sample_audio]} : gmap string Audio) in Hl.
    apply lookup_singleton_Some in Hl as [_ <-]. split; exact I.
  - repeat split; vm_compute; reflexivity.
  - split; [reflexivity|]. apply (bool_decide_unpack _). vm_compute. exact I.
  - vm_compute. reflexivity.
  - reflexivity.
  - vm_compute. reflexivity.
Defined.

(** ** Error normalization *)

Lemma starts_with_app (s post : string) : starts_with s (s +:+ post) = true.
Proof.
  induction s as [|c s IH]; simpl; [reflexivity|].
  rewrite Ascii.eqb_refl. exact IH.
Qed.

Lemma occurs_app (pre s post : string) : occurs s (pre +:+ s +:+ post) = true.
Proof.
  induction pre as [|c pre IH]; simpl.
  - destruct (s +:+ post) eqn:E; simpl; rewrite <- ?E, starts_with_app; reflexivity.
  - rewrite IH. apply orb_true_r.
Qed.

Lemma mentions_occurs (t s : string) : mentions t s -> occurs s t = true.
Proof. intros (pre & post & ->). apply occurs_app. Qed.

Lemma mentions_intro (pre s post : string) : mentions (pre +:+ s +:+ post) s.
Proof. exists pre, post. reflexivity. Qed.

Lemma string_app_assoc (a b c : string) : (a +:+ b) +:+ c = a +:+ (b +:+ c).
Proof.
  induction a as [|x a IH]; [reflexivity|].
  change (String x ((a +:+ b) +:+ c) = String x (a +:+ (b +:+ c))). f_equal. exact IH.
Qed.

Lemma string_app_nil (s : string) : s +:+ "" = s.
Proof.
  induction s as [|c s IH]; [reflexivity|].
  change (String c (s +:+ "") = String c s). f_equal. exact IH.
Qed.

(** C7, as the code has it. handlePythonError turns an axios rejection
    into a plain [Error] told apart by its message only:
    - connection refused: the message names the base URL followed by the
      endpoint;
    - a response (not 2xx): the message is the body's [message], else the
      body's [error], else a text with the status and the endpoint, so the
      status is named only when the body carries neither;
    - a client-side timeout: the message names the endpoint;
    - anything else is thrown again as it is. *)
Theorem gateway_errors_told_by_message (pf : Platform) (e : AxiosError) (ep : string) :
  (ax_code e = Some "ECONNREFUSED" ->
   exists msg, handlePythonError pf (AxiosFailure e) ep = Error msg /\
     mentions msg (PYTHON_BASE_URL pf +:+ ep)) /\
  (ax_code e <> Some "ECONNREFUSED" ->
   forall status data, ax_response e = Some (status, data) ->
     handlePythonError pf (AxiosFailure e) ep =
       Error (error_text pf
         (js_or (opt_prop "message" data)
            (js_or (opt_prop "error" data)
               (JStr ("Python service error " +:+ pretty status +:+ " on " +:+ ep))))) /\
     (forall s, opt_prop "message" data = JStr s -> s <> "" ->
        handlePythonError pf (AxiosFailure e) ep = Error s) /\
     (truthy (opt_prop "message" data) = false ->
      truthy (opt_prop "error" data) = false ->
      exists msg, handlePythonError pf (AxiosFailure e) ep = Error msg /\
        mentions msg (pretty status) /\ mentions msg ep)) /\
  (ax_code e = Some "ECONNABORTED" -> ax_response e = None ->
   exists msg, handlePythonError pf (AxiosFailure e) ep = Error msg /\
     mentions msg ep) /\
  (ax_code e <> Some "ECONNREFUSED" -> ax_code e <> Some "ECONNABORTED" ->
   ax_response e = None ->
   handlePythonError pf (AxiosFailure e) ep = AxiosFailure e).
Proof.
  unfold handlePythonError. split; [|split; [|split]].
  - intros Hc. rewrite bool_decide_eq_true_2 by assumption.
    eexists. split; [reflexivity|].
    rewrite <- (string_app_assoc (PYTHON_BASE_URL pf) ep).
    apply mentions_intro.
  - intros Hc status data Hr. rewrite bool_decide_eq_false_2 by assumption.
    rewrite Hr. split; [reflexivity|]. split.
    + intros s Hs Hne. rewrite Hs. unfold js_or. simpl.
      destruct (String.eqb s "") eqn:E; [|reflexivity].
      apply String.eqb_eq in E. contradiction.
    + intros Hm He. unfold js_or. rewrite Hm, He. simpl.
      eexists. split; [reflexivity|]. split.
      * apply mentions_intro.
      * exists ("Python service error " +:+ pretty status +:+ " on "), "".
        rewrite string_app_nil, !string_app_assoc. reflexivity.
  - intros Hc Hr. rewrite bool_decide_eq_false_2 by (rewrite Hc; discriminate).
    rewrite Hr. rewrite bool_decide_eq_true_2 by assumption.
    eexists. split; [reflexivity|]. apply mentions_intro.
  - intros Hc1 Hc2 Hr. rewrite bool_decide_eq_false_2 by assumption. rewrite Hr.
    rewrite bool_decide_eq_false_2 by assumption. reflexivity.
Qed.

(** C7 as stated fails: the error for a 500 response whose body has a
    message carries that message and not the status. *)
Lemma upstream_error_drops_status :
  handlePythonError sample_platform (AxiosFailure upstream_500) "/aqi"
    = Error "Model crashed" /\
  ~ mentions "Model crashed" "500".
Proof.
  split; [reflexivity|]. intros H. apply mentions_occurs in H. discriminate.
Qed.

Lemma gateway_errors_told_by_message_witness :
  exists msg,
    handlePythonError sample_platform (AxiosFailure timed_out) "/forensics" = Error msg /\
    mentions msg "/forensics".
Proof.
  destruct (gateway_errors_told_by_message sample_platform timed_out "/forensics")
    as (_ & _ & H & _).
  apply H; reflexivity.
Defined.

(** ** Completion operations *)

Lemma loaded_not_new (id : ObjectId) (a : Audio) (op : Completion) (pf : Platform) :
  isNew (apply_completion pf op (loaded id a)) = false /\
  _id (apply_completion pf op (loaded id a)) = id.
Proof.
  destruct op; simpl; unfold markEnhanced, saveAQI, saveForensics, saveExplainability,
    assign_raw; simpl; rewrite ?assign_isNew, ?assign_id; simpl;
    rewrite ?assign_isNew, ?assign_id; split; reflexivity.
Qed.

(** An accepted completion: the document passed validation, and the
    record holds what the update of its marked paths leaves. *)
Lemma complete_accepted (pf : Platform) (id : ObjectId) (op : Completion)
    (db db' : gmap string Audio) (saved : Document) (a : Audio) :
  db !! id = Some a ->
  complete pf id op db = (db', inr saved) ->
  validation_errors (apply_completion pf op (loaded id a)) = [] /\
  saved = clean (preSave (apply_completion pf op (loaded id a))) /\
  db' = <[id := write_paths (modified (preSave (apply_completion pf op (loaded id a))))
                  (updated (doc (preSave (apply_completion pf op (loaded id a))))) a]> db /\
  tracks a (preSave (apply_completion pf op (loaded id a))).
Proof.
  intros Hdb Hc. unfold complete in Hc. rewrite Hdb in Hc.
  destruct (loaded_not_new id a op pf) as [Hnew Hid].
  rewrite (save_loaded _ db a) in Hc by (rewrite ?Hid; assumption).
  destruct (validation_errors (apply_completion pf op (loaded id a))); [|discriminate].
  rewrite Hid in Hc. injection Hc as <- <-.
  split; [reflexivity|]. split; [reflexivity|]. split; [reflexivity|].
  apply tracks_saved.
Qed.

Lemma complete_rejected (pf : Platform) (id : ObjectId) (op : Completion)
    (db db' : gmap string Audio) (e : JsError) :
  complete pf id op db = (db', inl e) -> db' = db.
Proof.
  unfold complete. destruct (db !! id) as [a|]; [|intros [= <- _]; reflexivity].
  apply save_error_db.
Qed.

Lemma minimized_results (a : Audio) :
  minimized a ->
  store_mixed (enhancement (results a)) = enhancement (results a) /\
  store_mixed (explainability (results a)) = explainability (results a) /\
  store_mixed (aqi (results a)) = aqi (results a) /\
  store_mixed (forensics (results a)) = forensics (results a).
Proof.
  intros H. unfold minimized in H.
  pose proof (f_equal (fun x => enhancement (results x)) H) as H1.
  pose proof (f_equal (fun x => explainability (results x)) H) as H2.
  pose proof (f_equal (fun x => aqi (results x)) H) as H3.
  pose proof (f_equal (fun x => forensics (results x)) H) as H4.
  auto.
Qed.

Lemma completion_format (pf : Platform) (id : ObjectId) (op : Completion) (a : Audio) :
  format (doc (apply_completion pf op (loaded id a))) = format a.
Proof.
  destruct op as [p mdl metrics|score details|score tampered details|data]; simpl;
    unfold markEnhanced, saveAQI, saveForensics, saveExplainability.
  - destruct (castTrimmed pf p), (castString pf mdl); reflexivity.
  - destruct (castNumber pf score); reflexivity.
  - destruct (castNumber pf score), (castBoolean tampered); reflexivity.
  - reflexivity.
Qed.

(** The format the pre-save hook leaves. *)
Lemma preSave_format (d : Document) :
  format (doc (preSave d)) =
  match format (doc d) with
  | Some s => Some (toLowerCase s)
  | None => None
  end.
Proof.
  unfold preSave. destruct (format (doc d)) as [s|] eqn:E; [|exact E].
  destruct (String.eqb s "") eqn:Es; [|reflexivity].
  apply String.eqb_eq in Es. subst s. exact E.
Qed.

Lemma preSave_value (d : Document) (p : Path) :
  p <> PFormat -> value_at p (doc (preSave d)) = value_at p (doc d).
Proof.
  intros Hp. unfold preSave. destruct (format (doc d)) as [s|]; [|reflexivity].
  destruct (String.eqb s ""); [reflexivity|].
  destruct p; try reflexivity; contradiction.
Qed.

Lemma preSave_marks (d : Document) (p : Path) :
  p <> PFormat -> p ∈ modified (preSave d) <-> p ∈ modified d.
Proof.
  intros Hp. split; [|apply preSave_modified_incl].
  intros H. apply preSave_modified in H as [->|H]; [contradiction|exact H].
Qed.

(** A completion leaves the other paths of the document alone. *)
Lemma completion_frame (pf : Platform) (id : ObjectId) (op : Completion) (a : Audio) (p : Path) :
  p ∉ module_paths (module_of op) ->
  value_at p (doc (apply_completion pf op (loaded id a))) = value_at p a.
Proof.
  intros Hp.
  apply tracks_unmarked; [apply tracks_completion|].
  intros H. apply Hp, (completion_marks pf id op a p H).
Qed.

(** The casts of a completion do not depend on the record. *)
Lemma completion_invalid (pf : Platform) (id : ObjectId) (op : Completion) (a a1 : Audio) :
  invalid (apply_completion pf op (loaded id a)) =
  invalid (apply_completion pf op (loaded id a1)).
Proof.
  destruct op as [x mdl metrics|score details|score tampered details|data]; simpl;
    unfold markEnhanced, saveAQI, saveForensics, saveExplainability.
  - destruct (castTrimmed pf x), (castString pf mdl); reflexivity.
  - destruct (castNumber pf score); reflexivity.
  - destruct (castNumber pf score), (castBoolean tampered); reflexivity.
  - reflexivity.
Qed.

(** Nor do the values it assigns, once they cast. *)
Lemma completion_values (pf : Platform) (id : ObjectId) (op : Completion) (a a1 : Audio)
    (p : Path) :
  invalid (apply_completion pf op (loaded id a)) = [] ->
  p ∈ module_paths (module_of op) ->
  value_at p (doc (apply_completion pf op (loaded id a))) =
  value_at p (doc (apply_completion pf op (loaded id a1))).
Proof.
  destruct op as [x mdl metrics|score details|score tampered details|data]; simpl;
    unfold markEnhanced, saveAQI, saveForensics, saveExplainability.
  - destruct (castTrimmed pf x), (castString pf mdl); simpl; try discriminate.
    intros _ H. repeat (apply elem_of_cons in H as [->|H]; [reflexivity|]).
    apply elem_of_nil in H; contradiction.
  - destruct (castNumber pf score); simpl; try discriminate.
    intros _ H. repeat (apply elem_of_cons in H as [->|H]; [reflexivity|]).
    apply elem_of_nil in H; contradiction.
  - destruct (castNumber pf score), (castBoolean tampered); simpl; try discriminate.
    intros _ H. repeat (apply elem_of_cons in H as [->|H]; [reflexivity|]).
    apply elem_of_nil in H; contradiction.
  - intros _ H. repeat (apply elem_of_cons in H as [->|H]; [reflexivity|]).
    apply elem_of_nil in H; contradiction.
Qed.

Lemma result_path_ok (a : Audio) (p : Path) : is_result p = true -> path_ok a p = true.
Proof. destruct p; try discriminate; reflexivity. Qed.

(** What an accepted completion has stored at the paths of its module:
    the values it assigned, the Results entry minimized if it was
    marked. *)
Lemma completion_stored_value (pf : Platform) (id : ObjectId) (op : Completion) (a : Audio)
    (p : Path) :
  p <> PFormat ->
  let d := apply_completion pf op (loaded id a) in
  value_at p (write_paths (modified (preSave d)) (updated (doc (preSave d))) a) =
  if is_result p && bool_decide (p ∈ modified d) then store_mixed (value_at p (doc d))
  else value_at p (doc d).
Proof.
  intros Hp d. rewrite (stored_value a (preSave d) p (tracks_saved pf id op a)).
  rewrite (preSave_value d p Hp).
  destruct (is_result p); [|reflexivity]. simpl.
  rewrite (bool_decide_ext _ _ (preSave_marks d p Hp)). reflexivity.
Qed.

(** The fields of a module are the values at its paths. *)
Lemma module_fields_values (m : Module) (x y : Audio) :
  (forall p, p ∈ module_paths m -> value_at p x = value_at p y) ->
  module_fields m x = module_fields m y.
Proof.
  intros H. unfold module_fields, result_of.
  assert (Hv : forall p, p ∈ module_paths m -> value_at p x = value_at p y) by exact H.
  destruct m; simpl in H.
  - pose proof (H PResEnhancement ltac:(in_paths)) as H0.
    pose proof (H PEnhancedPath ltac:(in_paths)) as H1.
    pose proof (H PEnhanced ltac:(in_paths)) as H2.
    pose proof (H PEnhancementModel ltac:(in_paths)) as H3.
    simpl in H0, H1, H2, H3. rewrite H0, H1, H2, H3. reflexivity.
  - pose proof (H PResExplainability ltac:(in_paths)) as H0.
    simpl in H0. rewrite H0. reflexivity.
  - pose proof (H PResAqi ltac:(in_paths)) as H0.
    pose proof (H PAqiScore ltac:(in_paths)) as H1.
    simpl in H0, H1. rewrite H0, H1. reflexivity.
  - pose proof (H PResForensics ltac:(in_paths)) as H0.
    pose proof (H PAuthenticityScore ltac:(in_paths)) as H1.
    pose proof (H PTamperingDetected ltac:(in_paths)) as H2.
    simpl in H0, H1, H2. rewrite H0, H1, H2. reflexivity.
Qed.

(** The Results entry a completion assigns is its payload, or null. *)
Lemma completion_payload (pf : Platform) (id : ObjectId) (op : Completion) (a : Audio) :
  invalid (apply_completion pf op (loaded id a)) = [] ->
  result_of (module_of op) (doc (apply_completion pf op (loaded id a))) =
  js_or (payload op) JNull.
Proof.
  destruct op as [x mdl metrics|score details|score tampered details|data]; simpl;
    unfold markEnhanced, saveAQI, saveForensics, saveExplainability.
  - destruct (castTrimmed pf x), (castString pf mdl); simpl; try discriminate. reflexivity.
  - destruct (castNumber pf score); simpl; try discriminate. reflexivity.
  - destruct (castNumber pf score), (castBoolean tampered); simpl; try discriminate.
    reflexivity.
  - reflexivity.
Qed.

Lemma results_path_value (m : Module) (a : Audio) :
  value_at (results_path m) a = result_of m a.
Proof. destruct m; reflexivity. Qed.

(** C2, as the code has it. A completion operation assigns its module's
    ProcessingState fields (explainability has none) and its Results entry
    and stores them with one [save()]. When the save is accepted, the
    stored record holds as the Results entry the payload, minimized (null
    for a falsy payload and for an object left without properties), or,
    when the payload is the very value the record held, that value
    untouched; on a record as Mongoose stores it (minimized) the two are
    the same. It holds the given values, cast, in the headline fields,
    and the fields of the other modules are untouched. When the save is
    rejected the collection is as before. A set headline does not imply
    a non-null Results entry; the converse holds for enhancement and is
    kept by every operation. *)
Theorem completion_stores_both (pf : Platform) (id : ObjectId) (op : Completion)
    (db db' : gmap string Audio) (r : JsError + Document) (a : Audio) :
  db !! id = Some a ->
  complete pf id op db = (db', r) ->
  match r with
  | inr _ =>
      exists a', db' = <[id := a']> db /\
        (result_of (module_of op) a' = store_mixed (js_or (payload op) JNull) \/
         result_of (module_of op) a' = js_or (payload op) JNull /\
         result_of (module_of op) a = js_or (payload op) JNull) /\
        (minimized a ->
         result_of (module_of op) a' = store_mixed (js_or (payload op) JNull)) /\
        headline_stored pf op a' /\
        (forall m, m <> module_of op -> module_fields m a' = module_fields m a) /\
        (enhancement_result_flagged a -> enhancement_result_flagged a')
  | inl _ => db' = db
  end.
Proof.
  intros Hdb Hc. destruct r as [e|saved]; [eapply complete_rejected, Hc|].
  destruct (complete_accepted pf id op db db' saved a Hdb Hc) as (Hv & _ & -> & Ht).
  set (d := apply_completion pf op (loaded id a)) in *.
  set (a' := write_paths (modified (preSave d)) (updated (doc (preSave d))) a).
  assert (Hinv : invalid d = []).
  { unfold validation_errors in Hv. apply app_eq_nil in Hv as [H _]. exact H. }
  assert (Hpay : result_of (module_of op) (doc d) = js_or (payload op) JNull).
  { apply completion_payload, Hinv. }
  assert (Hres : result_of (module_of op) a' = store_mixed (js_or (payload op) JNull) \/
                 result_of (module_of op) a' = js_or (payload op) JNull /\
                 result_of (module_of op) a = js_or (payload op) JNull).
  { rewrite <- Hpay, <- !results_path_value.
    assert (Hpf : results_path (module_of op) <> PFormat) by (destruct op; discriminate).
    assert (Hst : value_at (results_path (module_of op)) a' =
                  if is_result (results_path (module_of op))
                     && bool_decide (results_path (module_of op) ∈ modified d)
                  then store_mixed (value_at (results_path (module_of op)) (doc d))
                  else value_at (results_path (module_of op)) (doc d)).
    { apply completion_stored_value, Hpf. }
    rewrite Hst.
    destruct (bool_decide (results_path (module_of op) ∈ modified d)) eqn:E.
    - left. destruct op; reflexivity.
    - right. rewrite andb_false_r. split; [reflexivity|].
      apply bool_decide_eq_false in E. symmetry.
      apply (tracks_unmarked a d _ (tracks_completion pf id op a) E). }
  assert (Hother : forall m, m <> module_of op -> module_fields m a' = module_fields m a).
  { intros m Hm. apply module_fields_values. intros p Hp. unfold a'.
    rewrite value_at_write. destruct (decide (p ∈ modified (preSave d))) as [Hin|_];
      [|reflexivity].
    exfalso. apply preSave_modified in Hin as [->|Hin].
    - exact (module_paths_format _ Hp).
    - apply completion_marks in Hin. exact (module_paths_disjoint _ _ p Hm Hp Hin). }
  assert (Hproc : processing a' = processing (doc d)).
  { unfold a'. rewrite (stored_processing a _ Ht). apply preSave_processing. }
  assert (Hpath : enhancedPath a' = enhancedPath (doc d)).
  { unfold a'. rewrite (stored_enhancedPath a _ Ht). apply preSave_enhancedPath. }
  exists a'. split; [reflexivity|]. split; [exact Hres|]. split.
  { intros Hmin. destruct Hres as [H|[H1 H2]]; [exact H|].
    rewrite H1, <- H2. destruct (minimized_results a Hmin) as (M1 & M2 & M3 & M4).
    destruct op; simpl; congruence. }
  split.
  { unfold headline_stored. rewrite Hproc, Hpath. unfold d.
    destruct op as [p mdl metrics|score details|score tampered details|data];
      cbn [apply_completion] in *;
      unfold markEnhanced, saveAQI, saveForensics, saveExplainability in *.
    - destruct (castTrimmed pf p) as [v1|], (castString pf mdl) as [v2|];
        cbn in Hinv; try discriminate. repeat split; reflexivity.
    - destruct (castNumber pf score) as [v1|]; cbn in Hinv; try discriminate. reflexivity.
    - destruct (castNumber pf score) as [v1|], (castBoolean tampered) as [v2|];
        cbn in Hinv; try discriminate. split; reflexivity.
    - exact I. }
  split; [exact Hother|].
  unfold enhancement_result_flagged, result_set.
  destruct (decide (module_of op = Enhancement)) as [He|Hne].
  - intros _ _. rewrite Hproc. unfold d.
    destruct op as [p mdl metrics| | |]; try discriminate. cbn [apply_completion].
    unfold markEnhanced.
    destruct (castTrimmed pf p) as [v1|], (castString pf mdl) as [v2|]; reflexivity.
  - assert (Hm : Enhancement <> module_of op) by congruence.
    pose proof (Hother Enhancement Hm) as H.
    pose proof (f_equal fst H) as H1.
    pose proof (f_equal (fun t => snd (fst (snd t))) H) as H2.
    cbn in H1, H2. injection H2 as H2. unfold result_of. rewrite H1, H2. auto.
Qed.

(** C2 as stated fails: an enhancement run whose result has no metrics
    answers 200 and stores [enhanced = true] with a null Results entry. *)
Lemma enhancement_flag_without_result :
  exists w' tr res a',
    run (answering enhanced_no_metrics) (enhanceAudio sample_platform sample_body)
      sample_world = (w', tr, inr (Some res)) /\
    res_status res = 200%N /\
    db w' !! sample_id = Some a' /\
    headline_set Enhancement a' = Some true /\
    result_set Enhancement a' = false /\
    headline_set Enhancement a' <> Some (result_set Enhancement a').
Proof.
  do 4 eexists. split; [vm_compute; reflexivity|].
  split; [reflexivity|]. split; [vm_compute; reflexivity|].
  split; [reflexivity|]. split; [reflexivity|]. discriminate.
Qed.

(** Metrics that are an empty object are answered as they came and not
    stored: the Results entry stays null. *)
Example empty_metrics_are_not_stored :
  exists w' tr res a',
    run (answering enhanced_empty_metrics) (enhanceAudio sample_platform sample_body)
      sample_world = (w', tr, inr (Some res)) /\
    res_status res = 200%N /\
    opt_prop "metrics" (res_data res) = JObj [] /\
    db w' !! sample_id = Some a' /\
    enhanced (processing a') = true /\
    enhancement (results a') = JNull.
Proof.
  do 4 eexists. split; [vm_compute; reflexivity|].
  split; [reflexivity|]. split; [reflexivity|]. split; [vm_compute; reflexivity|].
  split; reflexivity.
Qed.

Lemma completion_stores_both_witness :
  exists a',
    (complete sample_platform sample_id (SaveAQI (JNum 87) score_87) (db sample_world)).1
      = <[sample_id := a']> (db sample_world) /\
    (result_of Quality a' = store_mixed (js_or score_87 JNull) \/
     result_of Quality a' = js_or score_87 JNull /\
     result_of Quality sample_audio = js_or score_87 JNull) /\
    (minimized sample_audio -> result_of Quality a' = store_mixed (js_or score_87 JNull)) /\
    headline_stored sample_platform (SaveAQI (JNum 87) score_87) a' /\
    (forall m, m <> Quality -> module_fields m a' = module_fields m sample_audio) /\
    (enhancement_result_flagged sample_audio -> enhancement_result_flagged a').
Proof.
  apply (completion_stores_both sample_platform sample_id (SaveAQI (JNum 87) score_87)
           (db sample_world)
           (complete sample_platform sample_id (SaveAQI (JNum 87) score_87) (db sample_world)).1
           (inr (clean (preSave (saveAQI sample_platform (JNum 87) score_87
                                   (loaded sample_id sample_audio)))))
           sample_audio).
  - vm_compute. reflexivity.
  - vm_compute. reflexivity.
Defined.

(** ** The enhanced path *)

(** A module handler either stops at its opening checks, leaving the world
    alone and the log empty, or names a stored record whose source file is
    on disk. *)
Ltac open_handler Hb :=
  unfold enhanceAudio, explainDenoising, calculateAQI, detectTampering;
  rewrite ?(get_of_prop _ _ _ Hb),
    ?(get_of_prop _ _ _ (prop_opt_prop _ "model" _ _ Hb)),
    ?(get_of_prop _ _ _ (prop_opt_prop _ "settings" _ _ Hb));
  cbn [bind].

Lemma handler_cases (pf : Platform) (rm : Remote) (m : Module) (body : JsVal) (w : World) :
  (exists r, run rm (handler pf m body) w = (w, [], r)) \/
  (exists audioId id a src,
     names_record pf w body audioId id a /\ source_at w a src).
Proof.
  destruct (prop "audioId" body) as [audioId|] eqn:Hb.
  2:{ left. destruct m; simpl; unfold enhanceAudio, explainDenoising, calculateAQI,
        detectTampering, get; rewrite Hb; simpl; eauto. }
  destruct (truthy audioId) eqn:Ht.
  2:{ left. destruct m; simpl; open_handler Hb; unfold with_source;
      rewrite Ht; simpl; eauto. }
  destruct (to_object_id pf audioId) as [id|] eqn:Hid.
  2:{ left. destruct m; simpl; open_handler Hb; unfold with_source;
      rewrite Ht, Hid; simpl; destruct (isValid pf audioId); simpl; eauto. }
  destruct (db w !! id) as [a|] eqn:Hdb.
  2:{ left. destruct m; simpl; open_handler Hb; unfold with_source;
      rewrite Ht, (isValid_cast pf _ _ Hid), Hid; simpl; rewrite Hdb; simpl; eauto. }
  assert (Hstop : source_missing w a ->
                  exists r, run rm (handler pf m body) w = (w, [], r)).
  { intros Hmiss. eexists.
    destruct m; simpl; open_handler Hb; eapply with_source_missing; eassumption. }
  destruct (nonempty (originalPath a)) as [src|] eqn:Hsrc.
  - destruct (decide (src ∈ fs w)) as [Hin|Hnin].
    + right. exists audioId, id, a, src. repeat split; assumption.
    + left. apply Hstop. unfold source_missing. rewrite Hsrc. exact Hnin.
  - left. apply Hstop. unfold source_missing. rewrite Hsrc. exact I.
Qed.

Lemma completion_operation (pf : Platform) (m : Module) (body : JsVal) (id : ObjectId)
    (a : Audio) (result : JsVal) (d : Document) :
  completion pf m body id a result = inr d ->
  d = apply_completion pf (operation m body result) (loaded id a).
Proof.
  destruct m; simpl.
  - destruct (prop "enhancedFilePath" result); intros [= <-]; reflexivity.
  - intros [= <-]. reflexivity.
  - destruct (prop "aqiScore" result) as [x|] eqn:Hp; intros [= <-].
    rewrite (opt_prop_of_prop _ _ _ Hp). reflexivity.
  - destruct (prop "authenticityScore" result) as [x|] eqn:Hp; intros [= <-].
    rewrite (opt_prop_of_prop _ _ _ Hp). reflexivity.
Qed.

(** A module run leaves the collection alone, or has stored the result of
    its gateway call through the module's completion operation. *)
Lemma module_run_stored (pf : Platform) (rm : Remote) (m : Module) (body audioId : JsVal)
    (id : ObjectId) (a : Audio) (src : string) (w w' : World) (tr : list Action)
    (r : JsError + option Response) :
  db w !! id = Some a ->
  module_run pf rm m body audioId id a src w = (w', tr, r) ->
  db w' = db w \/
  exists result saved,
    gateway_outcome pf rm m body a src w = inr result /\
    complete pf id (operation m body result) (db w) = (db w', inr saved).
Proof.
  intros Hdb Hrun. unfold module_run in Hrun.
  destruct (gateway_outcome pf rm m body a src w) as [err|result] eqn:Hgw.
  { left. unfold caught in Hrun. injection Hrun as <- _ _. by rewrite !db_broadcast. }
  destruct (completion pf m body id a result) as [err|d] eqn:Hd.
  { left. unfold caught in Hrun. injection Hrun as <- _ _. by rewrite !db_broadcast. }
  apply completion_operation in Hd. subst d.
  destruct (save _ (db w)) as [db' [err|saved]] eqn:Hsave.
  { left. unfold caught in Hrun. injection Hrun as <- _ _. by rewrite !db_broadcast. }
  right. exists result, saved. split; [reflexivity|].
  unfold complete. rewrite Hdb, Hsave.
  destruct (answer pf m body audioId result saved); unfold caught in Hrun;
    injection Hrun as <- _ _; rewrite !db_broadcast; reflexivity.
Qed.

Lemma no_saves_bind {A B} (p : Prog A) (f : A -> Prog B) :
  no_saves p -> (forall x, no_saves (f x)) -> no_saves (bind p f).
Proof.
  intros Hp Hf. induction p as [r|e|X e k IH]; simpl in *; auto.
  destruct Hp as [He Hk]. split; [exact He|]. intros x. apply IH, Hk.
Qed.

(** A program without [save()] adds and changes no record. *)
Lemma no_saves_db {R} (p : Prog R) (rm : Remote) (w : World) (id : ObjectId) (a : Audio) :
  no_saves p -> db (run rm p w).1.1 !! id = Some a -> db w !! id = Some a.
Proof.
  revert w. induction p as [r|e|X e k IH]; intros w Hp; simpl; auto.
  destruct Hp as [He Hk].
  destruct (perform rm e w) as [w1 x] eqn:Hperf.
  specialize (IH x w1 (Hk x)).
  destruct (run rm (k x) w1) as [[w2 tr] r]. simpl in *. intros Hl.
  specialize (IH Hl).
  destruct e; simpl in Hperf; try contradiction.
  - injection Hperf as <- _. exact IH.
  - injection Hperf as <- _. simpl in IH.
    apply lookup_delete_Some in IH as [_ IH]. exact IH.
  - injection Hperf as <- _. exact IH.
  - destruct (bool_decide (p ∈ fs w)); injection Hperf as <- _; exact IH.
  - injection Hperf as <- _. rewrite db_broadcast in IH. exact IH.
  - injection Hperf as <- _. exact IH.
  - injection Hperf as <- _. exact IH.
  - injection Hperf as <- _. exact IH.
  - injection Hperf as <- _. exact IH.
Qed.

Lemma no_saves_safeUnlink (o : option string) : no_saves (safeUnlink o).
Proof.
  unfold safeUnlink. destruct (nonempty o); simpl; [|exact I].
  split; [exact I|]. intros [|]; simpl; auto.
Qed.

Lemma no_saves_with_record (pf : Platform) (id : JsVal)
    (k : Document -> Prog (option Response)) :
  (forall d, no_saves (k d)) -> no_saves (with_record pf id k).
Proof.
  intros Hk. unfold with_record. destruct (to_object_id pf id); simpl; [|exact I].
  split; [exact I|]. intros [d|]; simpl; auto.
Qed.

Lemma no_saves_getAudio (pf : Platform) (id : JsVal) : no_saves (getAudio pf id).
Proof. apply no_saves_with_record. intros d. exact I. Qed.

Lemma no_saves_deleteAudio (pf : Platform) (id : JsVal) : no_saves (deleteAudio pf id).
Proof.
  apply no_saves_with_record. intros d.
  apply no_saves_bind; [apply no_saves_safeUnlink|]. intros _.
  apply no_saves_bind; [apply no_saves_safeUnlink|]. intros _.
  simpl. auto.
Qed.

(** What an accepted completion operation does to the enhanced path. *)
Lemma complete_enhancedPath (pf : Platform) (id : ObjectId) (op : Completion)
    (db db' : gmap string Audio) (saved : Document) (a : Audio) :
  db !! id = Some a ->
  complete pf id op db = (db', inr saved) ->
  exists a', db' = <[id := a']> db /\
    match op with
    | MarkEnhanced p _ _ =>
        castTrimmed pf p = CastOk (enhancedPath a') /\
        enhanced (processing a') = true
    | _ => enhancedPath a' = enhancedPath a
    end.
Proof.
  intros Hdb Hc.
  destruct (complete_accepted pf id op db db' saved a Hdb Hc) as (Hv & _ & -> & Ht).
  eexists. split; [reflexivity|].
  rewrite (stored_enhancedPath a _ Ht), (stored_processing a _ Ht).
  rewrite preSave_enhancedPath, preSave_processing.
  unfold validation_errors in Hv. apply app_eq_nil in Hv as [Hinv _].
  destruct op as [p mdl metrics|score details|score tampered details|data];
    cbn [apply_completion] in *;
    unfold markEnhanced, saveAQI, saveForensics, saveExplainability in *.
  - destruct (castTrimmed pf p) as [v1|], (castString pf mdl) as [v2|];
      cbn in Hinv; try discriminate. split; reflexivity.
  - destruct (castNumber pf score) as [v1|]; reflexivity.
  - destruct (castNumber pf score) as [v1|], (castBoolean tampered) as [v2|]; reflexivity.
  - reflexivity.
Qed.

(** C3, as the code has it. Whatever request is served, the enhanced path
    of a stored record is what it was, or null on a record just
    registered, or it was written by an enhancement run after its gateway
    call returned: it is then the path the gateway gave, trimmed (null when
    it gave none), stored together with [enhanced = true]. No check that a
    file exists at that path is involved. *)
Theorem enhanced_path_from_gateway (pf : Platform) (rm : Remote) (req : Request)
    (w w' : World) (tr : list Action) (r : JsError + option Response)
    (id : ObjectId) (a' : Audio) :
  run rm (serve pf req) w = (w', tr, r) ->
  db w' !! id = Some a' ->
  (exists a, db w !! id = Some a /\ enhancedPath a' = enhancedPath a) \/
  (db w !! id = None /\ enhancedPath a' = None) \/
  (exists body a src result,
     req = RunModule Enhancement body /\
     db w !! id = Some a /\ source_at w a src /\
     gateway_outcome pf rm Enhancement body a src w = inr result /\
     castTrimmed pf (result_path result) = CastOk (enhancedPath a') /\
     enhanced (processing a') = true).
Proof.
  intros Hrun Hl. destruct req as [file uid|m body|gid|did]; simpl in Hrun.
  - (* registration *)
    destruct file as [f|].
    2:{ simpl in Hrun. injection Hrun as <- _ _. left. eauto. }
    rewrite upload_closed_form in Hrun. unfold upload_run in Hrun.
    destruct (upload_attempt pf rm f uid) as [err|d] eqn:Hat.
    { injection Hrun as <- _ _. rewrite db_unlinked in Hl. left. eauto. }
    destruct (save d (db w)) as [db' [err|saved]] eqn:Hsave.
    { injection Hrun as <- _ _. rewrite db_unlinked in Hl. left. eauto. }
    injection Hrun as <- _ _. simpl in Hl.
    assert (Hd : isNew d = true /\ _id d = uid /\ enhancedPath (doc d) = None).
    { unfold upload_attempt in Hat.
      destruct (probed_streams (ffprobe rm (path f))); try discriminate.
      destruct (find_audio_result items); [discriminate|].
      injection Hat as <-. unfold upload_document.
      split; [apply new_Audio_isNew|]. split; [apply new_Audio_id|].
      apply (new_Audio_frame enhancedPath); reflexivity. }
    destruct Hd as (Hnew & Hid & Hep).
    apply save_inv in Hsave. inversion Hsave; subst; try congruence.
    destruct (decide (_id d = id)) as [<-|Hne].
    + rewrite lookup_insert_eq in Hl. injection Hl as <-.
      right. left. split; [assumption|].
      rewrite inserted_enhancedPath, preSave_enhancedPath. exact Hep.
    + rewrite lookup_insert_ne in Hl by assumption. left. eauto.
  - (* a module *)
    destruct (handler_cases pf rm m body w) as [[r0 H0]|(audioId & rid & a & src & Hrec & Hsrc)].
    { rewrite H0 in Hrun. injection Hrun as <- _ _. left. eauto. }
    rewrite (module_run_closed_form pf rm m w body audioId rid a src Hrec Hsrc) in Hrun.
    destruct Hrec as (Hb & Ht & Hid & Hdb).
    destruct (module_run_stored pf rm m body audioId rid a src w w' tr r Hdb Hrun)
      as [Hsame|(result & saved & Hgw & Hc)].
    { rewrite Hsame in Hl. left. eauto. }
    destruct (complete_enhancedPath pf rid (operation m body result) (db w) (db w')
                saved a Hdb Hc) as (a2 & Hw' & Hpath).
    rewrite Hw' in Hl.
    destruct (decide (rid = id)) as [<-|Hne].
    2:{ rewrite lookup_insert_ne in Hl by assumption. left. eauto. }
    rewrite lookup_insert_eq in Hl. injection Hl as <-.
    destruct m; simpl in Hpath; try (left; exists a; split; assumption).
    right. right. exists body, a, src, result. destruct Hpath as [Hp He].
    split; [reflexivity|]. split; [assumption|]. split; [assumption|].
    split; [assumption|]. split; assumption.
  - (* get *)
    left. exists a'. split; [|reflexivity].
    apply (no_saves_db (getAudio pf gid) rm w id a' (no_saves_getAudio pf gid)).
    rewrite Hrun. exact Hl.
  - (* delete *)
    left. exists a'. split; [|reflexivity].
    apply (no_saves_db (deleteAudio pf did) rm w id a' (no_saves_deleteAudio pf did)).
    rewrite Hrun. exact Hl.
Qed.

(** C3 as stated fails: the enhancement run stores the path the gateway
    returned although no file exists there. *)
Lemma enhanced_path_without_file :
  exists w' tr res a' p,
    run (answering enhanced_elsewhere) (enhanceAudio sample_platform sample_body)
      sample_world = (w', tr, inr (Some res)) /\
    res_status res = 200%N /\
    db w' !! sample_id = Some a' /\
    enhancedPath a' = Some p /\
    p ∉ fs w'.
Proof.
  do 5 eexists. split; [vm_compute; reflexivity|].
  split; [reflexivity|]. split; [vm_compute; reflexivity|].
  split; [reflexivity|]. apply (bool_decide_unpack _). vm_compute. exact I.
Qed.

Lemma enhanced_path_from_gateway_witness :
  (exists a, db sample_world !! sample_id = Some a /\
     enhancedPath enhanced_sample = enhancedPath a) \/
  (db sample_world !! sample_id = None /\ enhancedPath enhanced_sample = None) \/
  (exists body a src result,
     RunModule Enhancement sample_body = RunModule Enhancement body /\
     db sample_world !! sample_id = Some a /\ source_at sample_world a src /\
     gateway_outcome sample_platform (answering enhanced_elsewhere) Enhancement body a src
       sample_world = inr result /\
     castTrimmed sample_platform (result_path result)
       = CastOk (enhancedPath enhanced_sample) /\
     enhanced (processing enhanced_sample) = true).
Proof.
  apply (enhanced_path_from_gateway sample_platform (answering enhanced_elsewhere)
           (RunModule Enhancement sample_body) sample_world
           run_enhanced.1.1 run_enhanced.1.2 run_enhanced.2 sample_id enhanced_sample).
  - vm_compute. reflexivity.
  - vm_compute. reflexivity.
Defined.

(** ** One run, two closing events

    C5 fails on the code. The gateway answers the explainability call
    with 200 and the JSON body [null]: the run stores the (null) result,
    broadcasts complete, then fails to read [result.noiseDetections] while
    building its answer and broadcasts error as well. One run has emitted
    both complete and error. *)
Theorem explain_null_body_complete_then_error :
  run_explain_null.1.2 =
    [Emitted (processing_event Explainability (JStr sample_id));
     GatewayBegan "/explain"; GatewayEnded "/explain";
     Emitted (complete_event Explainability (JStr sample_id));
     Emitted (error_event sample_platform Explainability (JStr sample_id)
                (TypeError "noiseDetections"))] /\
  run_explain_null.2 =
    inr (Some (failure 502
      (err_message sample_platform (TypeError "noiseDetections")))).
Proof. split; vm_compute; reflexivity. Qed.

(** ** The order of events, in every interleaving *)

Ltac order_step :=
  cbn [keeps_order handles bind try_catch trigger post get gateway_call
       callAQI callForensics callExplain callEnhance await_save on_error];
  first
    [ match goal with
      | |- exists ph', _ /\ _ => eexists; split; [reflexivity|]; intros ?
      end
    | match goal with
      | H : prop _ ?v = Some _ |- context [prop ?k ?v] =>
          rewrite (prop_opt_prop _ k _ _ H)
      end
    | match goal with
      | |- context [match prop ?k ?v with _ => _ end] =>
          let H := fresh "Hget" in destruct (prop k v) eqn:H
      end
    | match goal with
      | |- context [match ?x with inl _ => _ | inr _ => _ end] => destruct x
      end
    | match goal with
      | |- context [match ?x with Some _ => _ | None => _ end] => destruct x
      end
    | match goal with
      | |- context [if ?b then _ else _] => destruct b
      end
    | progress unfold get
    | match goal with
      | |- context [match ?x with JStr _ => _ | _ => _ end] => destruct x
      end
    | reflexivity ].

Lemma with_source_handles (pf : Platform) (m : Module) (audioId : JsVal)
    (k : Document -> string -> Prog (option Response)) :
  (forall audio src, handles m (k audio src) Idle) ->
  handles m (with_source pf audioId k) Idle.
Proof.
  intros Hk. unfold with_source, handles in *.
  destruct (truthy audioId); simpl; [|reflexivity].
  destruct (isValid pf audioId); simpl; [|reflexivity].
  destruct (to_object_id pf audioId); simpl; [|reflexivity].
  eexists. split; [reflexivity|]. intros [audio|]; simpl; [|reflexivity].
  destruct (nonempty (originalPath (doc audio))); simpl; [|reflexivity].
  eexists. split; [reflexivity|]. intros [|]; simpl; [apply Hk|reflexivity].
Qed.

Lemma quality_handles (pf : Platform) (body : JsVal) :
  handles Quality (calculateAQI pf body) Idle.
Proof.
  unfold calculateAQI, get. destruct (prop "audioId" body) as [audioId|]; [|reflexivity].
  cbn [bind]. apply with_source_handles. intros audio src. unfold handles.
  repeat order_step.
Qed.

Lemma forensics_handles (pf : Platform) (body : JsVal) :
  handles Forensics (detectTampering pf body) Idle.
Proof.
  unfold detectTampering, get. destruct (prop "audioId" body) as [audioId|]; [|reflexivity].
  cbn [bind]. apply with_source_handles. intros audio src. unfold handles.
  repeat order_step.
Qed.

Lemma explain_handles (pf : Platform) (body : JsVal) :
  handles Explainability (explainDenoising pf body) Idle.
Proof.
  unfold explainDenoising, get. destruct (prop "audioId" body) as [audioId|]; [|reflexivity].
  cbn [bind]. apply with_source_handles. intros audio src. unfold handles.
  repeat order_step.
Qed.

Lemma enhance_handles (pf : Platform) (body : JsVal) :
  handles Enhancement (enhanceAudio pf body) Idle.
Proof.
  unfold enhanceAudio, get. destruct (prop "audioId" body) as [audioId|] eqn:Hb; [|reflexivity].
  rewrite (prop_opt_prop _ "model" _ _ Hb), (prop_opt_prop _ "settings" _ _ Hb).
  cbn [bind]. apply with_source_handles. intros audio src. unfold handles.
  repeat order_step.
Qed.

Lemma handler_handles (pf : Platform) (m : Module) (body : JsVal) :
  handles m (handler pf m body) Idle.
Proof.
  destruct m; simpl.
  - apply enhance_handles.
  - apply explain_handles.
  - apply quality_handles.
  - apply forensics_handles.
Qed.

Lemma log_of_app (tid : nat) (l1 l2 : list (nat * Action)) :
  log_of tid (l1 ++ l2) = log_of tid l1 ++ log_of tid l2.
Proof. unfold log_of. rewrite filter_app, fmap_app. reflexivity. Qed.

Lemma log_of_own (tid : nat) (l : list Action) : log_of tid (map (pair tid) l) = l.
Proof.
  unfold log_of. induction l as [|a l IH]; [reflexivity|].
  simpl. rewrite filter_cons_True by reflexivity. simpl. f_equal. exact IH.
Qed.

Lemma log_of_other (tid tid' : nat) (l : list Action) :
  tid <> tid' -> log_of tid (map (pair tid') l) = [].
Proof.
  intros Hne. unfold log_of. induction l as [|a l IH]; [reflexivity|].
  simpl. rewrite filter_cons_False by (simpl; congruence). exact IH.
Qed.

Lemma advances_app (m : Module) (ph : Phase) (l1 l2 : list Action) :
  advances m ph (l1 ++ l2) =
  match advances m ph l1 with
  | Some ph' => advances m ph' l2
  | None => None
  end.
Proof.
  revert ph. induction l1 as [|a l1 IH]; intros ph; simpl; [reflexivity|].
  destruct (advance m ph a); [apply IH|reflexivity].
Qed.

(** A step of the pool, by any run, keeps run [tid] in order. *)
Lemma pstep_in_order (m : Module) (tid : nat) (c c' : Config) :
  in_order m tid c -> pstep c c' -> in_order m tid c'.
Proof.
  intros (p & ph & Hp & Hlog & Hh) Hstep.
  destruct Hstep as [c tid0 X e k rm w' x Hl Hperf|c q]; simpl.
  - destruct (decide (tid0 = tid)) as [->|Hne].
    + rewrite Hp in Hl. injection Hl as ->.
      unfold handles in Hh. simpl in Hh. destruct Hh as (ph' & Ha & Hk).
      exists (k x), ph'. simpl. split.
      { apply list_lookup_insert_eq. eapply lookup_lt_Some. eassumption. }
      split; [|apply Hk].
      rewrite log_of_app, log_of_own, advances_app, Hlog. exact Ha.
    + exists p, ph. simpl. split.
      { rewrite list_lookup_insert_ne by assumption. exact Hp. }
      split; [|exact Hh].
      rewrite log_of_app, (log_of_other tid tid0) by congruence.
      rewrite app_nil_r. exact Hlog.
  - exists p, ph. simpl. split; [|split; assumption].
    apply lookup_app_l_Some. exact Hp.
Qed.

Lemma psteps_in_order (m : Module) (tid : nat) (c c' : Config) :
  psteps c c' -> in_order m tid c -> in_order m tid c'.
Proof.
  induction 1 as [c|c1 c2 c3 H12 IH H23]; intros Hc; [exact Hc|].
  eapply pstep_in_order; [apply IH, Hc|exact H23].
Qed.

(** The logs the order accepts for a run that has ended. *)
Lemma final_logs (m : Module) (l : list Action) (ph : Phase) :
  advances m Idle l = Some ph -> final ph = true ->
  l = [] \/
  (exists p z,
     l = [Emitted p; GatewayBegan (endpoint m); GatewayEnded (endpoint m); Emitted z] /\
     is_event m SProcessing p = true /\
     (is_event m SComplete z = true \/ is_event m SError z = true)) \/
  (exists p z e,
     answers_late m = true /\
     l = [Emitted p; GatewayBegan (endpoint m); GatewayEnded (endpoint m);
          Emitted z; Emitted e] /\
     is_event m SProcessing p = true /\
     is_event m SComplete z = true /\ is_event m SError e = true).
Proof.
  intros Ha Hf.
  destruct l as [|a1 l]; [left; reflexivity|]. right.
  simpl in Ha. destruct a1 as [p| |]; try discriminate.
  destruct (is_event m SProcessing p) eqn:Ep; [|discriminate].
  destruct l as [|a2 l]; [injection Ha as <-; discriminate|].
  simpl in Ha. destruct a2 as [|ep1|]; try discriminate.
  destruct (String.eqb ep1 (endpoint m)) eqn:E1; [|discriminate].
  apply String.eqb_eq in E1. subst ep1.
  destruct l as [|a3 l]; [injection Ha as <-; discriminate|].
  simpl in Ha. destruct a3 as [| |ep2]; try discriminate.
  destruct (String.eqb ep2 (endpoint m)) eqn:E2; [|discriminate].
  apply String.eqb_eq in E2. subst ep2.
  destruct l as [|a4 l]; [injection Ha as <-; discriminate|].
  simpl in Ha. destruct a4 as [z| |]; try discriminate.
  destruct (is_event m SComplete z) eqn:Ec.
  - destruct l as [|a5 l].
    + left. exists p, z. repeat split; auto.
    + simpl in Ha. destruct a5 as [e| |]; try discriminate.
      destruct (answers_late m) eqn:El; [|discriminate]. simpl in Ha.
      destruct (is_event m SError e) eqn:Ee; [|discriminate].
      destruct l as [|a6 l]; [|discriminate].
      right. exists p, z, e. repeat split; auto.
  - destruct (is_event m SError z) eqn:Ee; [|discriminate].
    destruct l as [|a5 l]; [|discriminate].
    left. exists p, z. repeat split; auto.
Qed.

(** X1. However the runs of a pool interleave, the run of a module handler
    logs its events in order: processing before the gateway call begins, then,
    after the call has settled, complete or error, and for the two modules
    that answer late possibly an error after complete. When the run has
    returned, its log is empty (it stopped at the opening checks) or
    complete in that sense. *)
Theorem module_runs_keep_order (pf : Platform) (m : Module) (body : JsVal)
    (c c' : Config) (tid : nat) :
  pool c !! tid = Some (handler pf m body) ->
  log_of tid (log c) = [] ->
  psteps c c' ->
  exists ph,
    advances m Idle (log_of tid (log c')) = Some ph /\
    forall r, pool c' !! tid = Some (Ret r) -> final ph = true.
Proof.
  intros Hp Hlog Hsteps.
  assert (H0 : in_order m tid c).
  { exists (handler pf m body), Idle. rewrite Hlog. repeat split; auto.
    apply handler_handles. }
  destruct (psteps_in_order m tid c c' Hsteps H0) as (p & ph & Hp' & Ha & Hh).
  exists ph. split; [exact Ha|]. intros r Hr. rewrite Hp' in Hr. injection Hr as ->.
  exact Hh.
Qed.

(** ** Interleaved runs *)

Lemma step_at_psteps (rm : Remote) (c : Config) (tid : nat) : psteps c (step_at rm c tid).
Proof.
  unfold step_at. destruct (pool c !! tid) as [[r|e|X e k]|] eqn:Hp; try apply psteps_refl.
  destruct (perform rm e (world c)) as [w' x] eqn:Hperf.
  eapply psteps_step; [apply psteps_refl|].
  eapply pstep_effect; eassumption.
Qed.

Lemma psteps_trans (c1 c2 c3 : Config) : psteps c1 c2 -> psteps c2 c3 -> psteps c1 c3.
Proof.
  intros H12 H23. induction H23 as [c|c2 c3 c4 H23 IH H34]; [exact H12|].
  eapply psteps_step; [apply IH, H12|exact H34].
Qed.

(** Every schedule is an interleaving of the pool. *)
Lemma schedule_psteps (rm : Remote) (tids : list nat) (c : Config) :
  psteps c (schedule rm tids c).
Proof.
  revert c. induction tids as [|tid tids IH]; intros c; [apply psteps_refl|].
  simpl. eapply psteps_trans; [apply step_at_psteps|apply IH].
Qed.

Lemma module_runs_keep_order_witness :
  exists ph,
    advances Quality Idle (log_of 0 (log taking_turns)) = Some ph /\
    forall r, pool taking_turns !! 0%nat = Some (Ret r) -> final ph = true.
Proof.
  apply (module_runs_keep_order sample_platform Quality sample_body two_runs taking_turns 0).
  - reflexivity.
  - reflexivity.
  - apply schedule_psteps.
Defined.

(** X2. However the runs of a pool interleave, a quality or forensics run
    that has returned has logged nothing at all (it was turned away by the
    opening checks), or exactly four entries: one processing event, the
    start and the end of its gateway call, and one closing event, complete
    or error. *)
Theorem scored_runs_close_once (pf : Platform) (m : Module) (body : JsVal)
    (c c' : Config) (tid : nat) (r : option Response) :
  scored m = true ->
  pool c !! tid = Some (handler pf m body) ->
  log_of tid (log c) = [] ->
  psteps c c' ->
  pool c' !! tid = Some (Ret r) ->
  log_of tid (log c') = [] \/
  exists p z,
    log_of tid (log c') =
      [Emitted p; GatewayBegan (endpoint m); GatewayEnded (endpoint m); Emitted z] /\
    is_event m SProcessing p = true /\
    (is_event m SComplete z = true \/ is_event m SError z = true).
Proof.
  intros Hm Hp Hlog Hsteps Hr.
  assert (H0 : in_order m tid c).
  { exists (handler pf m body), Idle. rewrite Hlog. repeat split; auto.
    apply handler_handles. }
  destruct (psteps_in_order m tid c c' Hsteps H0) as (p & ph & Hp' & Ha & Hh).
  rewrite Hp' in Hr. injection Hr as ->. unfold handles in Hh. simpl in Hh.
  destruct (final_logs m _ ph Ha Hh) as [Hl|[Hl|(p & z & e & Hlate & _)]].
  - left. exact Hl.
  - right. exact Hl.
  - destruct m; discriminate.
Qed.

Lemma scored_runs_close_once_witness :
  log_of 1 (log taking_turns) = [] \/
  exists p z,
    log_of 1 (log taking_turns) =
      [Emitted p; GatewayBegan "/forensics"; GatewayEnded "/forensics"; Emitted z] /\
    is_event Forensics SProcessing p = true /\
    (is_event Forensics SComplete z = true \/ is_event Forensics SError z = true).
Proof.
  apply (scored_runs_close_once sample_platform Forensics sample_body two_runs taking_turns 1
           (Some (success 200 "Tampering analysis complete."
              (JObj [("audioId", JStr sample_id);
                     ("authenticityScore", JNum 56);
                     ("tamperingDetected", JBool true);
                     ("detections", JArr []);
                     ("summary", JObj [])])))).
  - reflexivity.
  - reflexivity.
  - reflexivity.
  - apply schedule_psteps.
  - vm_compute. reflexivity.
Defined.

(** Both runs loaded the record before either saved; the record ends up
    with both scores. *)
Example taking_turns_stores_both :
  (fun a => (aqiScore (processing a), authenticityScore (processing a)))
    <$> db (world taking_turns) !! sample_id = Some (Some 87%Q, Some 56%Q).
Proof. vm_compute. reflexivity. Qed.

(** X3. Stored scores stay within [0, 100] and stored formats stay
    lowercase in every interleaving of any programs over these effects:
    the collection changes through [save()] and [findByIdAndDelete] only,
    and both keep the two invariants. *)
Theorem stored_invariants_in_every_interleaving (c c' : Config) :
  psteps c c' ->
  scores_in_range (db (world c)) ->
  formats_lowercase (db (world c)) ->
  scores_in_range (db (world c')) /\ formats_lowercase (db (world c')).
Proof.
  intros Hsteps Hs Hf.
  induction Hsteps as [c|c1 c2 c3 H12 IH H23]; [split; assumption|].
  destruct (IH Hs Hf) as [Hs2 Hf2]. clear IH Hs Hf H12.
  destruct H23 as [c tid X e k rm w' x Hl Hperf|c q]; simpl; [|split; assumption].
  pose proof (run_invariant scores_in_range save_scores_in_range delete_scores_in_range
                (Vis e (@Ret X)) rm (world c) Hs2) as H1.
  pose proof (run_invariant formats_lowercase save_formats_lowercase delete_formats_lowercase
                (Vis e (@Ret X)) rm (world c) Hf2) as H2.
  simpl in H1, H2. rewrite Hperf in H1, H2. simpl in H1, H2. split; assumption.
Qed.

Lemma stored_invariants_in_every_interleaving_witness :
  scores_in_range (db (world taking_turns)) /\ formats_lowercase (db (world taking_turns)).
Proof.
  apply (stored_invariants_in_every_interleaving two_runs taking_turns).
  - apply schedule_psteps.
  - intros id a Hl.
    change (db (world two_runs)) with ({[sample_id := sample_audio]} : gmap string Audio) in Hl.
    apply lookup_singleton_Some in Hl as [_ <-]. split; exact I.
  - intros id a f Hl Hfmt.
    change (db (world two_runs)) with ({[sample_id := sample_audio]} : gmap string Audio) in Hl.
    apply lookup_singleton_Some in Hl as [_ <-]. injection Hfmt as <-. reflexivity.
Defined.

(** ** What the clients are sent *)

Lemma receive_nil (c : Client) : receive [] c = c.
Proof.
  unfold receive. destruct c as [st box]. simpl.
  destruct (Nat.eqb st 1); [rewrite app_nil_r|]; reflexivity.
Qed.

Lemma receive_deliver (msg : Progress) (msgs : list Progress) (c : Client) :
  receive msgs (deliver msg c) = receive (msg :: msgs) c.
Proof.
  unfold receive, deliver. destruct (Nat.eqb (readyState c) 1) eqn:E; simpl.
  - rewrite E. rewrite <- app_assoc. reflexivity.
  - rewrite E. reflexivity.
Qed.

Lemma wss_perform (rm : Remote) {X} (e : Eff X) (w : World) :
  wss (perform rm e w).1 = map (receive (emitted (observe e))) <$> wss w.
Proof.
  assert (Hid : wss w = map (receive []) <$> wss w).
  { destruct (wss w) as [cl|]; [|reflexivity]. simpl. f_equal.
    induction cl as [|c cl IH]; [reflexivity|]. simpl.
    rewrite receive_nil. f_equal. exact IH. }
  destruct e; simpl; try exact Hid.
  - destruct (save d (db w)). simpl. exact Hid.
  - destruct (bool_decide (p ∈ fs w)); simpl; exact Hid.
  - clear Hid. unfold broadcast. destruct (wss w) as [cl|] eqn:E; simpl; [|exact E].
    reflexivity.
Qed.

Lemma emitted_app (l1 l2 : list Action) : emitted (l1 ++ l2) = emitted l1 ++ emitted l2.
Proof. unfold emitted. apply omap_app. Qed.

Lemma receive_app (l1 l2 : list Progress) (c : Client) :
  receive l2 (receive l1 c) = receive (l1 ++ l2) c.
Proof.
  unfold receive. destruct (Nat.eqb (readyState c) 1) eqn:E; simpl.
  - rewrite E. rewrite <- app_assoc. reflexivity.
  - rewrite E. reflexivity.
Qed.

(** X4. Whatever a handler does, the connected clients are sent exactly
    the progress messages of its log, in the order of the log: a client
    whose socket is open (readyState 1) has them appended to what it had
    received, a client in any other state receives nothing, and without a
    WebSocket server nothing is sent at all. *)
Theorem clients_receive_the_log {R} (p : Prog R) (rm : Remote) (w : World) :
  wss (run rm p w).1.1 = map (receive (emitted (run rm p w).1.2)) <$> wss w.
Proof.
  revert w. induction p as [r|e|X e k IH]; intros w.
  - simpl. destruct (wss w) as [cl|]; [|reflexivity]. simpl. f_equal.
    induction cl as [|c cl IHc]; [reflexivity|]. simpl. rewrite receive_nil.
    f_equal. exact IHc.
  - simpl. destruct (wss w) as [cl|]; [|reflexivity]. simpl. f_equal.
    induction cl as [|c cl IHc]; [reflexivity|]. simpl. rewrite receive_nil.
    f_equal. exact IHc.
  - simpl. pose proof (wss_perform rm e w) as Hw.
    destruct (perform rm e w) as [w1 x]. simpl in Hw.
    specialize (IH x w1). destruct (run rm (k x) w1) as [[w2 tr] r]. simpl in *.
    rewrite IH, Hw, emitted_app. destruct (wss w) as [cl|]; [|reflexivity].
    simpl. f_equal. rewrite map_map. apply map_ext. intros c. apply receive_app.
Qed.

(** ** Reading and deleting a record *)

(** X5. getAudio only reads: it leaves the collection, the disk and the
    clients as they are and logs nothing; it answers 400 when the id is
    not an ObjectId, 404 when no record has it and 200 otherwise. *)
Theorem getAudio_reads_only (pf : Platform) (rm : Remote) (id : JsVal) (w : World) :
  exists res,
    run rm (getAudio pf id) w = (w, [], inr (Some res)) /\
    res_status res =
      match to_object_id pf id with
      | None => 400%N
      | Some i => match db w !! i with Some _ => 200%N | None => 404%N end
      end.
Proof.
  unfold getAudio, with_record. destruct (to_object_id pf id) as [i|].
  - simpl. destruct (db w !! i) as [a|]; simpl; eexists; split; reflexivity.
  - eexists. split; reflexivity.
Qed.

Lemma never_throws_bind {A B} (p : Prog A) (f : A -> Prog B) :
  never_throws p -> (forall x, never_throws (f x)) -> never_throws (bind p f).
Proof.
  intros Hp Hf. induction p as [r|e|X e k IH]; simpl in *.
  - apply Hf.
  - contradiction.
  - intros x. apply IH, Hp.
Qed.

Lemma difference_absent (s : gset string) (p : string) : p ∉ s -> s ∖ {[p]} = s.
Proof.
  intros Hp. apply set_eq. intros x. rewrite elem_of_difference, elem_of_singleton.
  split; [intros [Hx _]; exact Hx|]. intros Hx. split; [exact Hx|]. intros ->. contradiction.
Qed.

Lemma difference_empty (s : gset string) : s ∖ ∅ = s.
Proof.
  apply set_eq. intros x. rewrite elem_of_difference.
  split; [intros [Hx _]; exact Hx|]. intros Hx. split; [exact Hx|]. apply not_elem_of_empty.
Qed.

Lemma safeUnlink_run (rm : Remote) (o : option string) (w : World) :
  run rm (safeUnlink o) w = (with_fs (fun s => s ∖ unlink_target o) w, [], inr tt)
  \/ (run rm (safeUnlink o) w = (w, [], inr tt) /\ fs w ∖ unlink_target o = fs w).
Proof.
  unfold safeUnlink, unlink_target. destruct (nonempty o) as [p|].
  - simpl. destruct (bool_decide (p ∈ fs w)) eqn:E; simpl.
    + rewrite E. left. reflexivity.
    + right. split; [reflexivity|].
      apply bool_decide_eq_false in E. apply difference_absent, E.
  - right. split; [reflexivity|]. apply difference_empty.
Qed.

Lemma unlinked_world (rm : Remote) (filePath : option string) (w : World) :
  exists w',
    run rm (safeUnlink filePath) w = (w', [], inr tt) /\
    fs w' = fs w ∖ unlink_target filePath /\
    db w' = db w /\ wss w' = wss w.
Proof.
  destruct (safeUnlink_run rm filePath w) as [H|[H Hfs]]; rewrite H.
  - eexists. split; [reflexivity|]. simpl. repeat split.
  - eexists. split; [reflexivity|]. rewrite Hfs. repeat split.
Qed.

(** X6. safeUnlink never throws, whatever [existsSync] and [unlinkSync]
    answer or raise; it logs nothing, creates no file, removes no file
    other than the one at the given path, and leaves the collection and
    the clients alone. Whether the file at the path is gone afterwards
    depends on [unlinkSync], whose failure safeUnlink swallows. *)
Theorem safeUnlink_never_throws (rm : Remote) (filePath : option string) (w : World) :
  never_throws (safeUnlink filePath) /\
  exists w',
    run rm (safeUnlink filePath) w = (w', [], inr tt) /\
    fs w' ⊆ fs w /\
    (forall q, q ∈ fs w -> q ∉ unlink_target filePath -> q ∈ fs w') /\
    db w' = db w /\ wss w' = wss w.
Proof.
  split.
  - unfold safeUnlink. destruct (nonempty filePath) as [p|]; simpl; [|exact I].
    intros [|]; simpl; [intros _|]; exact I.
  - destruct (unlinked_world rm filePath w) as (w' & Hrun & Hfs & Hdb & Hwss).
    exists w'. split; [exact Hrun|]. rewrite Hfs.
    split; [|split; [|split; assumption]].
    + intros q Hq. apply elem_of_difference in Hq as [Hq _]. exact Hq.
    + intros q Hq Hn. apply elem_of_difference. split; assumption.
Qed.

(** X7. deleteAudio of a stored record removes the record, answers 200
    and broadcasts nothing, whether or not the files at its original and
    enhanced paths could be removed; it creates no file and removes none
    but these two, and the other records are left as they are. *)
Theorem deleteAudio_removes_the_record (pf : Platform) (rm : Remote) (id : JsVal)
    (i : ObjectId) (a : Audio) (w : World) :
  to_object_id pf id = Some i ->
  db w !! i = Some a ->
  exists w',
    run rm (deleteAudio pf id) w =
      (w', [], inr (Some (success 200 "Audio file and record deleted successfully."
                            (JObj [("id", id)])))) /\
    db w' = delete i (db w) /\
    fs w' ⊆ fs w /\
    (forall q, q ∈ fs w -> q ∉ unlink_target (originalPath a) ->
               q ∉ unlink_target (enhancedPath a) -> q ∈ fs w') /\
    wss w' = wss w.
Proof.
  intros Hid Hdb. unfold deleteAudio, with_record. rewrite Hid.
  cbn [bind trigger run perform observe app]. rewrite Hdb.
  cbn [fmap option_fmap option_map loaded doc _id].
  destruct (unlinked_world rm (originalPath a) w) as (w1 & H1 & Hfs1 & Hdb1 & Hw1).
  destruct (unlinked_world rm (enhancedPath a) w1) as (w2 & H2 & Hfs2 & Hdb2 & Hw2).
  rewrite run_bind, H1. cbn beta iota. rewrite run_bind, H2. simpl.
  eexists. split; [reflexivity|]. simpl. rewrite Hfs2, Hfs1, Hdb2, Hdb1, Hw2, Hw1.
  split; [reflexivity|]. split; [|split; [|reflexivity]].
  - intros q Hq. apply elem_of_difference in Hq as [Hq _].
    apply elem_of_difference in Hq as [Hq _]. exact Hq.
  - intros q Hq Hn1 Hn2. apply elem_of_difference. split; [|exact Hn2].
    apply elem_of_difference. split; assumption.
Qed.

Lemma deleteAudio_removes_the_record_witness :
  exists w',
    run (answering JNull) (deleteAudio sample_platform (JStr sample_id)) library_world =
      (w', [], inr (Some (success 200 "Audio file and record deleted successfully."
                            (JObj [("id", JStr sample_id)])))) /\
    db w' = delete sample_id (db library_world) /\
    fs w' ⊆ fs library_world /\
    (forall q, q ∈ fs library_world ->
               q ∉ unlink_target (Some "uploads/clip_1700000000000_42.wav") ->
               q ∉ unlink_target (Some "uploads/clip_enhanced.wav") -> q ∈ fs w') /\
    wss w' = wss library_world.
Proof.
  apply (deleteAudio_removes_the_record sample_platform (answering JNull)
           (JStr sample_id) sample_id
           (put_enhancedPath (Some "uploads/clip_enhanced.wav") sample_audio) library_world).
  - reflexivity.
  - vm_compute. reflexivity.
Defined.

(** ** Requests the opening checks turn away *)

Lemma handler_no_body (pf : Platform) (rm : Remote) (m : Module) (body : JsVal) (w : World) :
  prop "audioId" body = None ->
  run rm (handler pf m body) w = (w, [], inl (TypeError "audioId")).
Proof.
  intros Hb. destruct m; simpl;
    unfold enhanceAudio, explainDenoising, calculateAQI, detectTampering, get;
    rewrite Hb; reflexivity.
Qed.

Lemma handler_opening (pf : Platform) (rm : Remote) (m : Module) (body audioId : JsVal)
    (w : World) (r : option Response) :
  prop "audioId" body = Some audioId ->
  (forall k, run rm (with_source pf audioId k) w = (w, [], inr r)) ->
  run rm (handler pf m body) w = (w, [], inr r).
Proof.
  intros Hb Hk. destruct m; simpl; open_handler Hb; apply Hk.
Qed.

Lemma with_source_no_id (pf : Platform) (rm : Remote) (audioId : JsVal) (w : World)
    (k : Document -> string -> Prog (option Response)) :
  truthy audioId = false ->
  run rm (with_source pf audioId k) w = (w, [], inr None).
Proof. intros Ht. unfold with_source. rewrite Ht. reflexivity. Qed.

Lemma with_source_invalid (pf : Platform) (rm : Remote) (audioId : JsVal) (w : World)
    (k : Document -> string -> Prog (option Response)) :
  truthy audioId = true -> isValid pf audioId = false ->
  run rm (with_source pf audioId k) w =
  (w, [], inr (Some (failure 400 "Invalid audio ID."))).
Proof. intros Ht Hid. unfold with_source. rewrite Ht, Hid. reflexivity. Qed.

Lemma with_source_uncastable (pf : Platform) (rm : Remote) (audioId : JsVal) (w : World)
    (k : Document -> string -> Prog (option Response)) :
  truthy audioId = true -> isValid pf audioId = true -> to_object_id pf audioId = None ->
  run rm (with_source pf audioId k) w = (w, [], inl (QueryCastError audioId)).
Proof. intros Ht Hv Hid. unfold with_source. rewrite Ht, Hv, Hid. reflexivity. Qed.

Lemma with_source_absent (pf : Platform) (rm : Remote) (audioId : JsVal) (i : ObjectId)
    (w : World) (k : Document -> string -> Prog (option Response)) :
  truthy audioId = true -> to_object_id pf audioId = Some i -> db w !! i = None ->
  run rm (with_source pf audioId k) w =
  (w, [], inr (Some (failure 404 "Audio record not found."))).
Proof.
  intros Ht Hid Hdb. unfold with_source.
  rewrite Ht, (isValid_cast pf _ _ Hid), Hid. simpl. rewrite Hdb. reflexivity.
Qed.

Lemma handler_opening_throws (pf : Platform) (rm : Remote) (m : Module)
    (body audioId : JsVal) (w : World) (e : JsError) :
  prop "audioId" body = Some audioId ->
  (forall k, run rm (with_source pf audioId k) w = (w, [], inl e)) ->
  run rm (handler pf m body) w = (w, [], inl e).
Proof.
  intros Hb Hk. destruct m; simpl; open_handler Hb; apply Hk.
Qed.

(** X8. The opening checks of the four module handlers. A request without
    a body object fails with the runtime's TypeError before anything is
    done; a request whose [audioId] is missing or falsy gets no answer at
    all (the handler returns without sending one); an [audioId] that fails
    [ObjectId.isValid] is answered 400; one that passes it and that
    [findById] cannot cast (a number) makes [findById] reject before the
    [try] block is entered, so that the handler fails with Mongoose's
    CastError and sends no answer; one that names no record is answered
    404. In every one of these cases nothing is broadcast, the Python
    service is not called and the collection, the disk and the clients
    are as before. *)
Theorem module_request_turned_away (pf : Platform) (rm : Remote) (m : Module)
    (body : JsVal) (w : World) :
  (prop "audioId" body = None ->
   run rm (handler pf m body) w = (w, [], inl (TypeError "audioId"))) /\
  (forall audioId, prop "audioId" body = Some audioId ->
     (truthy audioId = false ->
      run rm (handler pf m body) w = (w, [], inr None)) /\
     (truthy audioId = true -> isValid pf audioId = false ->
      run rm (handler pf m body) w =
        (w, [], inr (Some (failure 400 "Invalid audio ID.")))) /\
     (truthy audioId = true -> isValid pf audioId = true ->
      to_object_id pf audioId = None ->
      run rm (handler pf m body) w = (w, [], inl (QueryCastError audioId))) /\
     (forall i, truthy audioId = true -> to_object_id pf audioId = Some i ->
        db w !! i = None ->
        run rm (handler pf m body) w =
          (w, [], inr (Some (failure 404 "Audio record not found."))))).
Proof.
  split; [apply handler_no_body|].
  intros audioId Hb. repeat split.
  - intros Ht. apply (handler_opening pf rm m body audioId w None Hb).
    intros k. apply with_source_no_id, Ht.
  - intros Ht Hid. apply (handler_opening pf rm m body audioId w _ Hb).
    intros k. apply with_source_invalid; assumption.
  - intros Ht Hv Hid. apply (handler_opening_throws pf rm m body audioId w _ Hb).
    intros k. apply with_source_uncastable; assumption.
  - intros i Ht Hid Hdb. apply (handler_opening pf rm m body audioId w _ Hb).
    intros k. eapply with_source_absent; eassumption.
Qed.

Lemma module_request_turned_away_witness :
  run (answering score_87) (handler sample_platform Quality (JObj [])) sample_world =
    (sample_world, [], inr None) /\
  run (answering score_87)
    (handler sample_platform Quality (JObj [("audioId", JStr "clip.wav")])) sample_world =
    (sample_world, [], inr (Some (failure 400 "Invalid audio ID."))) /\
  run (answering score_87)
    (handler sample_platform Quality (JObj [("audioId", JNum 5)])) sample_world =
    (sample_world, [], inl (QueryCastError (JNum 5))).
Proof.
  split; [|split].
  - destruct (module_request_turned_away sample_platform (answering score_87) Quality
                (JObj []) sample_world) as [_ H].
    destruct (H JUndefined eq_refl) as (H1 & _ & _). apply H1. reflexivity.
  - destruct (module_request_turned_away sample_platform (answering score_87) Quality
                (JObj [("audioId", JStr "clip.wav")]) sample_world) as [_ H].
    destruct (H (JStr "clip.wav") eq_refl) as (_ & H2 & _). apply H2; reflexivity.
  - destruct (module_request_turned_away sample_platform (answering score_87) Quality
                (JObj [("audioId", JNum 5)]) sample_world) as [_ H].
    destruct (H (JNum 5) eq_refl) as (_ & _ & H3 & _). apply H3; reflexivity.
Defined.

(** X9. Once deleteAudio has deleted a record, the record is gone for every
    later request: getAudio and a second deleteAudio of the same id answer
    404, and so does every module request that names it, without a
    broadcast; none of them changes anything. *)
Theorem deleted_record_is_gone (pf : Platform) (rm rm' : Remote) (id : JsVal)
    (i : ObjectId) (a : Audio) (w : World) (m : Module) (body : JsVal) :
  to_object_id pf id = Some i ->
  db w !! i = Some a ->
  let w' := (run rm (deleteAudio pf id) w).1.1 in
  run rm' (getAudio pf id) w' =
    (w', [], inr (Some (failure 404 "Audio record not found."))) /\
  run rm' (deleteAudio pf id) w' =
    (w', [], inr (Some (failure 404 "Audio record not found."))) /\
  (prop "audioId" body = Some id -> truthy id = true ->
   run rm' (handler pf m body) w' =
     (w', [], inr (Some (failure 404 "Audio record not found.")))).
Proof.
  intros Hid Hdb w'.
  assert (Hgone : db w' !! i = None).
  { unfold w'.
    destruct (unlinked_world rm (originalPath a) w) as (w1 & H1 & _ & Hdb1 & _).
    destruct (unlinked_world rm (enhancedPath a) w1) as (w2 & H2 & _ & Hdb2 & _).
    unfold deleteAudio, with_record. rewrite Hid.
    cbn [bind trigger run perform observe app]. rewrite Hdb.
    cbn [fmap option_fmap option_map loaded doc _id].
    rewrite run_bind, H1. cbn beta iota. rewrite run_bind, H2. simpl.
    apply lookup_delete_eq. }
  repeat split.
  - unfold getAudio, with_record. rewrite Hid. simpl. rewrite Hgone. reflexivity.
  - unfold deleteAudio, with_record. rewrite Hid. simpl. rewrite Hgone. reflexivity.
  - intros Hb Ht. apply (handler_opening pf rm' m body id w' _ Hb).
    intros k. eapply with_source_absent; eassumption.
Qed.

Lemma deleted_record_is_gone_witness :
  let w' := (run (answering JNull) (deleteAudio sample_platform (JStr sample_id))
               library_world).1.1 in
  run scoring (getAudio sample_platform (JStr sample_id)) w' =
    (w', [], inr (Some (failure 404 "Audio record not found."))) /\
  run scoring (deleteAudio sample_platform (JStr sample_id)) w' =
    (w', [], inr (Some (failure 404 "Audio record not found."))) /\
  (prop "audioId" sample_body = Some (JStr sample_id) -> truthy (JStr sample_id) = true ->
   run scoring (handler sample_platform Forensics sample_body) w' =
     (w', [], inr (Some (failure 404 "Audio record not found.")))).
Proof.
  apply (deleted_record_is_gone sample_platform (answering JNull) scoring (JStr sample_id)
           sample_id (put_enhancedPath (Some "uploads/clip_enhanced.wav") sample_audio)
           library_world Forensics sample_body).
  - reflexivity.
  - vm_compute. reflexivity.
Defined.

(** ** Completions from a stale snapshot *)

Lemma toLowerCase_idem (s : string) : toLowerCase (toLowerCase s) = toLowerCase s.
Proof.
  induction s as [|c s IH]; [reflexivity|]. simpl. rewrite IH. f_equal.
  unfold lower_ascii at 1. rewrite lower_ascii_not_upper. reflexivity.
Qed.

(** *** Two documents of one completion *)

Lemma agree_loaded (P : list Path) (id : ObjectId) (x y : Audio) :
  (forall p, p ∈ P -> value_at p x = value_at p y) ->
  agree P (loaded id x) (loaded id y).
Proof. intros H. repeat split. exact H. Qed.

Lemma agree_assign_raw (P : list Path) (p : Path) (put : Audio -> Audio) (d d' : Document) :
  p ∈ P ->
  (forall x y, value_at p (put x) = value_at p (put y)) ->
  (forall q x, q <> p -> value_at q (put x) = value_at q x) ->
  agree P d d' -> agree P (assign_raw p put d) (assign_raw p put d').
Proof.
  intros Hp Hu Hl (Hn & Hm & Hi & Hv). unfold agree, assign_raw, marked. simpl.
  rewrite Hn, Hm, Hi, (Hu (doc d) (doc d')), (Hv p Hp).
  repeat split. intros q Hq. destruct (decide (q = p)) as [->|Hne].
  - apply Hu.
  - rewrite !Hl by exact Hne. apply Hv, Hq.
Qed.

Lemma agree_cast_error (P : list Path) (p : Path) (d d' : Document) :
  agree P d d' ->
  agree P {| _id := _id d; isNew := isNew d; doc := doc d; modified := modified d;
             invalid := p :: invalid d |}
          {| _id := _id d'; isNew := isNew d'; doc := doc d'; modified := modified d';
             invalid := p :: invalid d' |}.
Proof.
  intros (Hn & Hm & Hi & Hv). unfold agree. simpl. rewrite Hn, Hm, Hi. repeat split. exact Hv.
Qed.

Ltac agree_chain :=
  repeat first [ apply agree_loaded; assumption
               | apply agree_cast_error
               | apply agree_assign_raw; [in_paths|reflexivity|put_local|] ].

(** The marks and the cast failures of a completion depend on the record
    through the paths of its module only. *)
Lemma agree_completion (pf : Platform) (id : ObjectId) (op : Completion) (x y : Audio) :
  (forall p, p ∈ module_paths (module_of op) -> value_at p x = value_at p y) ->
  agree (module_paths (module_of op))
    (apply_completion pf op (loaded id x)) (apply_completion pf op (loaded id y)).
Proof.
  intros H.
  destruct op as [e mdl metrics|score details|score tampered details|data];
    cbn [apply_completion module_of] in *;
    unfold markEnhanced, saveAQI, saveForensics, saveExplainability.
  - destruct (castTrimmed pf e) as [v1|], (castString pf mdl) as [v2|]; unfold assign;
      agree_chain.
  - destruct (castNumber pf score) as [v1|]; unfold assign; agree_chain.
  - destruct (castNumber pf score) as [v1|], (castBoolean tampered) as [v2|]; unfold assign;
      agree_chain.
  - agree_chain.
Qed.

Lemma path_ok_value (x y : Audio) (p : Path) :
  value_at p x = value_at p y -> path_ok x p = path_ok y p.
Proof.
  destruct p; simpl; intros H; try reflexivity;
    first [apply js_str_inj in H | apply js_num_inj in H]; rewrite H; reflexivity.
Qed.

Lemma filter_agree {A} (f g : A -> bool) (l : list A) :
  (forall x, x ∈ l -> f x = g x) -> filter f l = filter g l.
Proof.
  induction l as [|x l IH]; intros H; [reflexivity|].
  rewrite !filter_cons, (H x) by apply list_elem_of_here.
  rewrite IH by (intros y Hy; apply H, list_elem_of_further, Hy). reflexivity.
Qed.

Lemma agree_validation (pf : Platform) (id : ObjectId) (op : Completion) (x y : Audio) :
  (forall p, p ∈ module_paths (module_of op) -> value_at p x = value_at p y) ->
  validation_errors (apply_completion pf op (loaded id x)) =
  validation_errors (apply_completion pf op (loaded id y)).
Proof.
  intros H. destruct (agree_completion pf id op x y H) as (Hn & Hm & Hi & Hv).
  unfold validation_errors, validated_paths. rewrite <- Hn, <- Hm, <- Hi. f_equal.
  destruct (loaded_not_new id x op pf) as [-> _].
  apply filter_agree. intros p Hp. f_equal. apply path_ok_value, Hv.
  apply (completion_marks pf id op x p Hp).
Qed.

(** X10. Completions of two different modules on one record serialize.
    When a completion operation is saved from a document that was loaded
    before a completion of another module on the same record was stored
    (the handlers load the record before they call the Python service,
    and save after), the collection ends up exactly as if the document
    had been loaded afterwards, and the save is rejected in the one case
    exactly when it is in the other: [save()] writes the paths the
    operation marked and nothing else, so a run never puts back the stale
    values of another module. Between two runs of one module this fails:
    see [stale_rerun_keeps_first_score]. *)
Theorem stale_snapshot_stores_the_same (pf : Platform) (id : ObjectId) (a : Audio)
    (op1 op2 : Completion) (db db1 : gmap string Audio) (s1 : Document) :
  module_of op1 <> module_of op2 ->
  db !! id = Some a ->
  complete pf id op1 db = (db1, inr s1) ->
  (save (apply_completion pf op2 (loaded id a)) db1).1 = (complete pf id op2 db1).1 /\
  match (save (apply_completion pf op2 (loaded id a)) db1).2, (complete pf id op2 db1).2 with
  | inl e, inl e' => e = e'
  | inr _, inr _ => True
  | _, _ => False
  end.
Proof.
  intros Hmod Hdb Hc.
  destruct (complete_accepted pf id op1 db db1 s1 a Hdb Hc) as (Hv1 & _ & -> & Ht1).
  set (D1 := preSave (apply_completion pf op1 (loaded id a))) in *.
  set (a1 := write_paths (modified D1) (updated (doc D1)) a).
  assert (Hsame : forall p, p ∈ module_paths (module_of op2) -> value_at p a = value_at p a1).
  { intros p Hp. unfold a1. rewrite value_at_write.
    destruct (decide (p ∈ modified D1)) as [Hin|_]; [|reflexivity].
    exfalso. apply preSave_modified in Hin as [->|Hin].
    - exact (module_paths_format _ Hp).
    - apply completion_marks in Hin. exact (module_paths_disjoint _ _ p Hmod Hin Hp). }
  assert (Hfmt : format a1 =
                 match format a with Some s => Some (toLowerCase s) | None => None end).
  { unfold a1. rewrite (stored_format a D1 Ht1). unfold D1.
    rewrite preSave_format, completion_format. reflexivity. }
  unfold complete. rewrite lookup_insert_eq.
  destruct (loaded_not_new id a op2 pf) as [Hnew2 Hid2].
  destruct (loaded_not_new id a1 op2 pf) as [Hnew2' Hid2'].
  rewrite (save_loaded _ _ a1)
    by first [assumption | rewrite Hid2; apply lookup_insert_eq].
  rewrite (save_loaded (apply_completion pf op2 (loaded id a1)) _ a1)
    by first [assumption | rewrite Hid2'; apply lookup_insert_eq].
  rewrite (agree_validation pf id op2 a a1 Hsame), Hid2, Hid2'.
  destruct (validation_errors (apply_completion pf op2 (loaded id a1))) eqn:Hv2; simpl;
    [|split; reflexivity].
  split; [|exact I]. f_equal.
  set (d2 := apply_completion pf op2 (loaded id a)).
  set (d2' := apply_completion pf op2 (loaded id a1)).
  apply value_at_ext. intros p.
  rewrite (stored_value a1 (preSave d2') p (tracks_saved pf id op2 a1)).
  rewrite value_at_write, value_at_updated.
  destruct (decide (p = PFormat)) as [->|Hpf].
  - cbn [is_result andb value_at]. rewrite !preSave_format. unfold d2, d2'.
    rewrite !completion_format, Hfmt.
    destruct (format a) as [s|]; [rewrite toLowerCase_idem|]; destruct (decide _); reflexivity.
  - destruct (agree_completion pf id op2 a a1 Hsame) as (_ & Hm & _ & Hval).
    rewrite !(preSave_value _ p Hpf).
    destruct (decide (p ∈ module_paths (module_of op2))) as [HP|HnP].
    + fold d2 d2' in Hval, Hm. rewrite (Hval p HP).
      assert (Hmem : p ∈ modified (preSave d2) <-> p ∈ modified (preSave d2')).
      { rewrite !preSave_marks by exact Hpf. rewrite Hm. reflexivity. }
      destruct (decide (p ∈ modified (preSave d2))) as [Hin|Hnin].
      * rewrite bool_decide_eq_true_2 by (apply Hmem, Hin).
        destruct (is_result p); reflexivity.
      * rewrite bool_decide_eq_false_2 by (rewrite <- Hmem; exact Hnin).
        rewrite andb_false_r. symmetry.
        apply (tracks_unmarked a1 d2' p (tracks_completion pf id op2 a1)).
        intros H. apply Hnin, Hmem, preSave_modified_incl, H.
    + assert (Hn : forall x, p ∉ modified (preSave (apply_completion pf op2 (loaded id x)))).
      { intros x Hin. apply preSave_modified in Hin as [->|Hin]; [contradiction|].
        apply completion_marks in Hin. contradiction. }
      rewrite decide_False by apply Hn.
      rewrite bool_decide_eq_false_2 by apply Hn. rewrite andb_false_r.
      symmetry. apply completion_frame, HnP.
Qed.

Lemma stale_snapshot_stores_the_same_witness :
  let db1 := (complete sample_platform sample_id (SaveAQI (JNum 87) score_87)
                (db sample_world)).1 in
  (save (apply_completion sample_platform (SaveForensics (JNum 56) (JBool true) authentic_56)
           (loaded sample_id sample_audio)) db1).1 =
  (complete sample_platform sample_id (SaveForensics (JNum 56) (JBool true) authentic_56)
     db1).1.
Proof.
  apply (stale_snapshot_stores_the_same sample_platform sample_id sample_audio
           (SaveAQI (JNum 87) score_87) (SaveForensics (JNum 56) (JBool true) authentic_56)
           (db sample_world)
           (complete sample_platform sample_id (SaveAQI (JNum 87) score_87)
              (db sample_world)).1
           (clean (preSave (apply_completion sample_platform (SaveAQI (JNum 87) score_87)
                              (loaded sample_id sample_audio))))).
  - discriminate.
  - vm_compute. reflexivity.
  - vm_compute. reflexivity.
Defined.

(** Between two runs of one module the snapshot matters. On a record
    scored 87, a run stores 64; a second run that had loaded the record
    before, and is given 87 again, assigns the value its document already
    holds: the path is not marked, nothing is written and the record
    keeps 64, where a document loaded afterwards stores 87. *)
Example stale_rerun_keeps_first_score :
  let a := put_aqiScore (Some 87%Q) sample_audio in
  let db1 := (complete sample_platform sample_id (SaveAQI (JNum 64) JNull)
                {[sample_id := a]}).1 in
  (fun x => aqiScore (processing x)) <$>
    (save (apply_completion sample_platform (SaveAQI (JNum 87) JNull)
             (loaded sample_id a)) db1).1 !! sample_id = Some (Some 64%Q) /\
  (fun x => aqiScore (processing x)) <$>
    (complete sample_platform sample_id (SaveAQI (JNum 87) JNull) db1).1 !! sample_id
    = Some (Some 87%Q).
Proof. split; vm_compute; reflexivity. Qed.

(** ** More on registration *)

(** A registration that is answered 201: the document it built passed
    validation and was inserted, and the answer is read off the saved
    document. *)
Lemma upload_accepted (pf : Platform) (rm : Remote) (file : option File) (id : ObjectId)
    (w w' : World) (tr : list Action) (res : Response) :
  run rm (uploadAudio pf file id) w = (w', tr, inr (Some res)) ->
  res_status res = 201%N ->
  exists f d,
    file = Some f /\ upload_attempt pf rm f id = inr d /\
    validation_errors d = [] /\ isNew d = true /\ _id d = id /\
    db w !! id = None /\
    w' = with_db (fun _ => <[id := inserted (doc (preSave d))]> (db w)) w /\
    tr = [] /\
    res = upload_answer pf f (clean (preSave d)).
Proof.
  intros Hrun Hst. destruct file as [f|].
  2:{ simpl in Hrun. injection Hrun as _ _ <-. discriminate. }
  rewrite upload_closed_form in Hrun. unfold upload_run in Hrun.
  destruct (upload_attempt pf rm f id) as [err|d] eqn:Hat.
  { injection Hrun as _ _ <-. discriminate. }
  destruct (save d (db w)) as [db' [err|saved]] eqn:Hsave.
  { injection Hrun as _ _ <-. discriminate. }
  injection Hrun as <- <- <-.
  assert (Hd : isNew d = true /\ _id d = id).
  { unfold upload_attempt in Hat.
    destruct (probed_streams (ffprobe rm (path f))); try discriminate.
    destruct (find_audio_result items); [discriminate|]. injection Hat as <-.
    unfold upload_document. split; [apply new_Audio_isNew|apply new_Audio_id]. }
  destruct Hd as [Hnew Hid].
  apply save_inv in Hsave.
  inversion Hsave as [| | |Hv Hn Hl|cur Hv Hn Hl]; subst; [|congruence].
  exists f, d. repeat split; auto.
Qed.



Lemma probe_failed_document (pf : Platform) (file : File) (id : ObjectId) :
  parse_float pf JUndefined = None -> parse_int pf JUndefined = None ->
  upload_document pf file id (JObj []) (JObj []) =
  {| _id := id; isNew := true;
     doc := put_fileSize (Some (size file))
              (put_format (Some (trim (extension pf file)))
                 (put_originalPath (Some (trim (path file)))
                    (put_filename (Some (trim (originalname file))) default_audio)));
     modified := [PBitrate; PFileSize; PChannels; PSampleRate; PDuration; PFormat;
                  POriginalPath; PFilename];
     invalid := [] |}.
Proof.
  intros Hf Hi. unfold upload_document, new_Audio.
  cbn [opt_prop prop assoc]. rewrite Hf, Hi. reflexivity.
Qed.

(** X12. A failing ffprobe does not fail the registration: the record is
    stored with the name, the path, the format and the size of the file,
    and with duration, sample rate, channels and bitrate null. *)
Theorem registration_survives_probe_failure (pf : Platform) (rm : Remote) (file : File)
    (id : ObjectId) (w : World) :
  ffprobe rm (path file) = None ->
  parse_float pf JUndefined = None ->
  parse_int pf JUndefined = None ->
  db w !! id = None ->
  trim (originalname file) <> "" ->
  trim (extension pf file) ∈ FORMATS ->
  (0 <= size file)%Q ->
  exists w' res a,
    run rm (uploadAudio pf (Some file) id) w = (w', [], inr (Some res)) /\
    res_status res = 201%N /\
    db w' = <[id := a]> (db w) /\ fs w' = fs w /\
    filename a = Some (trim (originalname file)) /\
    originalPath a = Some (trim (path file)) /\
    format a = Some (toLowerCase (trim (extension pf file))) /\
    fileSize a = Some (size file) /\
    duration a = None /\ sampleRate a = None /\ channels a = None /\ bitrate a = None.
Proof.
  intros Hprobe Hf Hi Hfresh Hname Hext Hsize.
  rewrite upload_closed_form. unfold upload_run, upload_attempt. rewrite Hprobe.
  cbn [probed_streams probed_format find_audio_result js_or truthy].
  rewrite (probe_failed_document pf file id Hf Hi).
  set (d := {| _id := id |}).
  assert (Hv : validation_errors d = []).
  { unfold validation_errors, validated_paths, d. cbn [invalid isNew app doc].
    assert (Hall : forall p, path_ok (doc d) p = true).
    { intros p. destruct p; try reflexivity; unfold d.
      - change (negb (String.eqb (trim (originalname file)) "") = true).
        destruct (String.eqb (trim (originalname file)) "") eqn:E; [|reflexivity].
        apply String.eqb_eq in E. contradiction.
      - change (existsb (String.eqb (trim (extension pf file))) FORMATS = true).
        apply existsb_exists. exists (trim (extension pf file)).
        split; [apply list_elem_of_In, Hext|apply String.eqb_refl].
      - change (Qle_bool 0 (size file) = true). apply Qle_bool_iff, Hsize. }
    induction all_paths as [|p ps IH]; [reflexivity|].
    rewrite filter_cons. fold (doc d). change (doc d) with (doc d) in Hall.
    unfold d in Hall. cbn [doc] in Hall. rewrite Hall. exact IH. }
  unfold save. rewrite Hv. rewrite preSave_id, preSave_isNew.
  cbn [_id isNew d]. rewrite Hfresh.
  eexists _, _, _. split; [reflexivity|]. split; [reflexivity|].
  split; [reflexivity|]. split; [reflexivity|].
  unfold preSave. subst d. cbn [doc format put_fileSize put_format].
  destruct (String.eqb (trim (extension pf file)) "") eqn:E.
  - apply String.eqb_eq in E. rewrite E. repeat split; reflexivity.
  - repeat split; reflexivity.
Qed.

Lemma registration_survives_probe_failure_witness :
  exists w' res a,
    run (answering JNull) (uploadAudio sample_platform (Some sample_file) sample_id)
      fresh_world = (w', [], inr (Some res)) /\
    res_status res = 201%N /\
    db w' = <[sample_id := a]> (db fresh_world) /\ fs w' = fs fresh_world /\
    filename a = Some (trim (originalname sample_file)) /\
    originalPath a = Some (trim (path sample_file)) /\
    format a = Some (toLowerCase (trim (extension sample_platform sample_file))) /\
    fileSize a = Some (size sample_file) /\
    duration a = None /\ sampleRate a = None /\ channels a = None /\ bitrate a = None.
Proof.
  apply (registration_survives_probe_failure sample_platform (answering JNull) sample_file
           sample_id fresh_world).
  - reflexivity.
  - reflexivity.
  - reflexivity.
  - reflexivity.
  - discriminate.
  - vm_compute. right. left.
  - vm_compute. discriminate.
Defined.

(** X13. What a registration answered is what getAudio reads back: after a
    201, getAudio of the new id answers 200 with the same id, name, format,
    duration, sample rate, channels, size and bitrate, and with the same
    formatted values, and it shows no enhanced file and no quality band. *)
Theorem registered_record_is_read_back (pf : Platform) (rm rm' : Remote)
    (file : option File) (id : ObjectId) (w w' : World) (tr : list Action) (res : Response) :
  run rm (uploadAudio pf file id) w = (w', tr, inr (Some res)) ->
  res_status res = 201%N ->
  to_object_id pf (JStr id) = Some id ->
  exists res',
    run rm' (getAudio pf (JStr id)) w' = (w', [], inr (Some res')) /\
    res_status res' = 200%N /\
    (forall k,
       k ∈ ["id"; "filename"; "format"; "duration"; "durationFormatted"; "sampleRate";
            "channels"; "channelLabel"; "fileSize"; "fileSizeFormatted"; "bitrate"] ->
       opt_prop k (res_data res') = opt_prop k (res_data res)) /\
    opt_prop "enhancedUrl" (res_data res') = JNull /\
    opt_prop "aqiBand" (res_data res') = JNull.
Proof.
  intros Hrun Hst Hid.
  destruct (upload_accepted pf rm file id w w' tr res Hrun Hst)
    as (f & d & -> & Hat & _ & _ & Hdid & _ & -> & _ & ->).
  assert (Hblank : enhancedPath (doc (preSave d)) = None /\
                   aqiScore (processing (inserted (doc (preSave d)))) = None).
  { rewrite inserted_processing.
    rewrite preSave_processing, preSave_enhancedPath.
    unfold upload_attempt in Hat.
    destruct (probed_streams (ffprobe rm (path f))); try discriminate.
    destruct (find_audio_result items); [discriminate|].
    injection Hat as <-. unfold upload_document.
    split; [apply new_Audio_frame; reflexivity|].
    rewrite (new_Audio_frame processing) by reflexivity. reflexivity. }
  destruct Hblank as [Henh Haqi].
  unfold getAudio, with_record. rewrite Hid.
  cbn [bind trigger run perform observe app with_db db].
  rewrite lookup_insert_eq. cbn [fmap option_fmap option_map loaded doc _id].
  eexists. split; [reflexivity|]. split; [reflexivity|].
  split; [|split].
  - intros k Hk. cbn [res_data upload_answer success clean doc _id].
    rewrite preSave_id, Hdid.
    repeat (apply elem_of_cons in Hk as [->|Hk]; [reflexivity|]).
    apply elem_of_nil in Hk. contradiction.
  - cbn [res_data]. unfold opt_prop, prop. cbn [assoc String.eqb Ascii.eqb Bool.eqb].
    simpl. unfold upload_url. rewrite Henh. reflexivity.
  - cbn [res_data]. unfold opt_prop, prop. simpl. unfold aqiBand. rewrite Haqi. reflexivity.
Qed.

Lemma registered_record_is_read_back_witness :
  exists res',
    run scoring (getAudio sample_platform (JStr sample_id))
      (run (answering JNull) (uploadAudio sample_platform (Some sample_file) sample_id)
         fresh_world).1.1 =
      ((run (answering JNull) (uploadAudio sample_platform (Some sample_file) sample_id)
          fresh_world).1.1, [], inr (Some res')) /\
    res_status res' = 200%N /\
    (forall k,
       k ∈ ["id"; "filename"; "format"; "duration"; "durationFormatted"; "sampleRate";
            "channels"; "channelLabel"; "fileSize"; "fileSizeFormatted"; "bitrate"] ->
       opt_prop k (res_data res') =
       opt_prop k (res_data (upload_answer sample_platform sample_file
         (clean (preSave (upload_document sample_platform sample_file sample_id
                            (JObj []) (JObj []))))))) /\
    opt_prop "enhancedUrl" (res_data res') = JNull /\
    opt_prop "aqiBand" (res_data res') = JNull.
Proof.
  apply (registered_record_is_read_back sample_platform (answering JNull) scoring
           (Some sample_file) sample_id fresh_world _ []).
  - vm_compute. reflexivity.
  - reflexivity.
  - reflexivity.
Defined.

(** ** More on module runs *)

Lemma save_rejected (d : Document) (db : gmap string Audio) :
  validation_errors d <> [] ->
  save d db = (db, inl (ValidationError (validation_errors d))).
Proof.
  intros Hne. unfold save. destruct (validation_errors d); [contradiction|reflexivity].
Qed.

(** X14. The model name of an enhancement request is checked by the schema
    only when the result is saved. With a name outside DEMUCS, CleanUNet
    and FullSubNet+, on a record whose stored model name is valid, the
    name is posted to the Python service as it came; when the service
    answers with a result that is not null, the save of the result fails
    validation on the model name: the run logs processing, the start and
    the end of the gateway call and error, answers 502 with the message
    of the validation error and stores nothing. *)
Theorem unsupported_model_is_called_then_rejected (pf : Platform) (rm : Remote) (w : World)
    (body audioId : JsVal) (id : ObjectId) (a : Audio) (src s : string)
    (form : Form) (result : JsVal) :
  names_record pf w body audioId id a ->
  source_at w a src ->
  path_ok a PEnhancementModel = true ->
  prop "model" body = Some (JStr s) ->
  s ∉ MODELS ->
  request_form Enhancement body a src w = inr form ->
  python rm "/enhance" form = inr result ->
  prop "enhancedFilePath" result <> None ->
  assoc "model" (form_fields form) = JStr s /\
  exists w' errs,
    run rm (enhanceAudio pf body) w =
      (w',
       [Emitted (processing_event Enhancement audioId);
        GatewayBegan "/enhance"; GatewayEnded "/enhance";
        Emitted (error_event pf Enhancement audioId (ValidationError errs))],
       inr (Some (failure 502 (err_message pf (ValidationError errs))))) /\
    PEnhancementModel ∈ errs /\
    db w' = db w.
Proof.
  intros Hrec Hsrc Hok Hmodel Hs Hform Hpy Hres.
  assert (Hm : request_model body = JStr s).
  { unfold request_model. rewrite (opt_prop_of_prop _ _ _ Hmodel). reflexivity. }
  split.
  { unfold request_form in Hform.
    destruct (prop "noiseReductionStrength" (request_settings body)); [|discriminate].
    injection Hform as <-. cbn. exact Hm. }
  rewrite (enhance_closed_form pf rm w body audioId id a src Hrec Hsrc).
  unfold module_run, caught, gateway_outcome. rewrite Hform.
  change (endpoint Enhancement) with "/enhance". rewrite Hpy.
  unfold completion. destruct (prop "enhancedFilePath" result) as [p|]; [|contradiction].
  rewrite Hm.
  set (d := markEnhanced pf (result_path result) (JStr s) (opt_prop "metrics" result)
              (loaded id a)).
  assert (Hin : PEnhancementModel ∈ validation_errors d).
  { unfold validation_errors, validated_paths, d.
    apply elem_of_app. right. apply list_elem_of_filter. split.
    - cbn [path_ok]. unfold markEnhanced. cbn [castString].
      destruct (castTrimmed pf (result_path result)) as [v|]; cbn -[MODELS];
        unfold enum_ok;
        (destruct (existsb (String.eqb s) MODELS) eqn:E;
         [apply existsb_exists in E as (x & Hx & Heq); apply String.eqb_eq in Heq;
          subst x; exfalso; apply Hs, list_elem_of_In, Hx|]); exact I.
    - unfold markEnhanced. cbn [castString].
      replace (isNew _) with false
        by (destruct (castTrimmed pf (result_path result)); reflexivity).
      apply (marked_incl PResEnhancement). unfold assign at 1.
      apply marked_differs.
      assert (Hne : JStr s <> js_str (enhancementModel (processing a))).
      { intros E. destruct (enhancementModel (processing a)) as [s'|] eqn:Em; [|discriminate].
        injection E as <-. cbn in Hok. rewrite Em in Hok. unfold enum_ok in Hok.
        apply existsb_exists in Hok as (x & Hx & Heq). apply String.eqb_eq in Heq. subst x.
        apply Hs, list_elem_of_In, Hx. }
      destruct (castTrimmed pf (result_path result)) as [v|]; exact Hne. }
  rewrite save_rejected by (intros E; rewrite E in Hin; apply elem_of_nil in Hin; exact Hin).
  eexists _, _. split; [reflexivity|]. split; [exact Hin|].
  rewrite !db_broadcast. reflexivity.
Qed.

Lemma unsupported_model_is_called_then_rejected_witness :
  assoc "model"
    [("model", JStr "WaveNet"); ("noiseReductionStrength", JNum 80);
     ("preserveSpeech", JBool true); ("processingMode", JStr "Balanced")] = JStr "WaveNet" /\
  exists w' errs,
    run (answering enhanced_elsewhere)
      (enhanceAudio sample_platform
         (JObj [("audioId", JStr sample_id); ("model", JStr "WaveNet")])) sample_world =
      (w',
       [Emitted (processing_event Enhancement (JStr sample_id));
        GatewayBegan "/enhance"; GatewayEnded "/enhance";
        Emitted (error_event sample_platform Enhancement (JStr sample_id)
                   (ValidationError errs))],
       inr (Some (failure 502 (err_message sample_platform (ValidationError errs))))) /\
    PEnhancementModel ∈ errs /\
    db w' = db sample_world.
Proof.
  apply (unsupported_model_is_called_then_rejected sample_platform
           (answering enhanced_elsewhere) sample_world
           (JObj [("audioId", JStr sample_id); ("model", JStr "WaveNet")])
           (JStr sample_id) sample_id sample_audio
           "uploads/clip_1700000000000_42.wav" "WaveNet"
           (buildAudioForm "uploads/clip_1700000000000_42.wav"
              [("model", JStr "WaveNet"); ("noiseReductionStrength", JNum 80);
               ("preserveSpeech", JBool true); ("processingMode", JStr "Balanced")])
           enhanced_elsewhere).
  - repeat split; vm_compute; reflexivity.
  - split; [reflexivity|]. apply (bool_decide_unpack _). vm_compute. exact I.
  - reflexivity.
  - reflexivity.
  - intros H. repeat (apply elem_of_cons in H as [H|H]; [discriminate|]).
    apply elem_of_nil in H. exact H.
  - reflexivity.
  - reflexivity.
  - discriminate.
Defined.

(** X15. A quality run whose gateway result carries a score within
    [0, 100] answers 200 with that score and with the band of the record
    it has just stored: Good from 71 up, Fair from 41 up, Poor below. *)
Theorem quality_answer_carries_band (pf : Platform) (rm : Remote) (w : World)
    (body audioId : JsVal) (id : ObjectId) (a : Audio) (src : string)
    (result : JsVal) (q : Q) :
  names_record pf w body audioId id a ->
  source_at w a src ->
  gateway_outcome pf rm Quality body a src w = inr result ->
  prop "aqiScore" result = Some (JNum q) ->
  (0 <= q)%Q -> (q <= 100)%Q ->
  exists w' tr res a',
    run rm (calculateAQI pf body) w = (w', tr, inr (Some res)) /\
    res_status res = 200%N /\
    db w' !! id = Some a' /\
    aqiScore (processing a') = Some q /\
    opt_prop "aqiScore" (res_data res) = JNum q /\
    opt_prop "aqiBand" (res_data res) = aqiBand a' /\
    aqiBand a' =
      JStr (if Qle_bool 71 q then "Good" else if Qle_bool 41 q then "Fair" else "Poor").
Proof.
  intros Hrec Hsrc Hgo Hscore Hlo Hhi.
  rewrite (quality_closed_form pf rm w body audioId id a src Hrec Hsrc).
  unfold module_run. rewrite Hgo. unfold completion. rewrite Hscore.
  destruct Hrec as (_ & _ & _ & Hdb).
  set (d := saveAQI pf (JNum q) result (loaded id a)).
  assert (Hv : validation_errors d = []).
  { unfold validation_errors, validated_paths.
    change (isNew d) with false. change (invalid d) with (@nil Path).
    apply filter_none. intros p Hp.
    apply (completion_marks pf id (SaveAQI (JNum q) result) a) in Hp.
    apply Qle_bool_iff in Hlo, Hhi.
    apply elem_of_cons in Hp as [->|Hp]; [cbn; rewrite Hlo, Hhi; reflexivity|].
    apply elem_of_cons in Hp as [->|Hp]; [reflexivity|].
    apply elem_of_nil in Hp. contradiction. }
  rewrite (save_loaded d (db w) a) by first [reflexivity | exact Hdb]. rewrite Hv.
  unfold answer. cbn [_id d saveAQI assign assign_raw castNumber loaded].
  eexists _, _, _, _. split; [reflexivity|]. split; [reflexivity|].
  split.
  { rewrite db_broadcast. cbn [db with_db]. apply lookup_insert_eq. }
  assert (Hq : aqiScore (processing (write_paths (modified (preSave d))
                                       (updated (doc (preSave d))) a))
               = Some q).
  { rewrite (stored_processing a (preSave d))
      by apply (tracks_saved pf id (SaveAQI (JNum q) result) a).
    rewrite preSave_processing. reflexivity. }
  split; [exact Hq|]. split.
  { cbn [res_data success]. unfold opt_prop at 1, prop at 1. cbn.
    exact (opt_prop_of_prop _ _ _ Hscore). }
  split.
  { cbn [res_data success]. unfold opt_prop at 1, prop at 1. cbn.
    unfold aqiBand. rewrite Hq. fold d. rewrite preSave_processing. reflexivity. }
  unfold aqiBand. rewrite Hq.
  destruct (Qle_bool 71 q); [reflexivity|]. destruct (Qle_bool 41 q); reflexivity.
Qed.

Lemma quality_answer_carries_band_witness :
  exists w' tr res a',
    run (answering score_87) (calculateAQI sample_platform sample_body) sample_world =
      (w', tr, inr (Some res)) /\
    res_status res = 200%N /\
    db w' !! sample_id = Some a' /\
    aqiScore (processing a') = Some 87%Q /\
    opt_prop "aqiScore" (res_data res) = JNum 87 /\
    opt_prop "aqiBand" (res_data res) = aqiBand a' /\
    aqiBand a' =
      JStr (if Qle_bool 71 87 then "Good" else if Qle_bool 41 87 then "Fair" else "Poor").
Proof.
  apply (quality_answer_carries_band sample_platform (answering score_87) sample_world
           sample_body (JStr sample_id) sample_id sample_audio
           "uploads/clip_1700000000000_42.wav" score_87 87).
  - repeat split; vm_compute; reflexivity.
  - split; [reflexivity|]. apply (bool_decide_unpack _). vm_compute. exact I.
  - reflexivity.
  - reflexivity.
  - vm_compute. discriminate.
  - vm_compute. discriminate.
Defined.

(** X16. Normalizing a gateway error twice is normalizing it once: what
    handlePythonError throws is an error it would throw again unchanged,
    for whatever endpoint. *)
Theorem handlePythonError_idempotent (pf : Platform) (err : JsError) (ep ep' : string) :
  handlePythonError pf (handlePythonError pf err ep) ep' = handlePythonError pf err ep.
Proof.
  destruct err as [msg|e|what|paths|i|i|v]; try reflexivity.
  cbn [handlePythonError].
  destruct (bool_decide (ax_code e = Some "ECONNREFUSED")) eqn:E1; [reflexivity|].
  destruct (ax_response e) as [[status data]|] eqn:E2; [reflexivity|].
  destruct (bool_decide (ax_code e = Some "ECONNABORTED")) eqn:E3; [reflexivity|].
  cbn [handlePythonError]. rewrite E1, E2, E3. reflexivity.
Qed.

(** ** The upload middleware *)

Lemma lower_ascii_dot (c : ascii) : Ascii.eqb (lower_ascii c) "." = Ascii.eqb c ".".
Proof. destruct c as [[] [] [] [] [] [] [] []]; reflexivity. Qed.

Lemma toLowerCase_remove_first_dot (s : string) :
  toLowerCase (remove_first_dot s) = remove_first_dot (toLowerCase s).
Proof.
  induction s as [|c s IH]; [reflexivity|]. simpl. rewrite lower_ascii_dot.
  destruct (Ascii.eqb c "."); [reflexivity|]. simpl. rewrite IH. reflexivity.
Qed.

Lemma has_elem_of (set : list string) (s : string) : has set s = true -> s ∈ set.
Proof.
  unfold has. intros H. apply existsb_exists in H as (x & Hx & Heq).
  apply String.eqb_eq in Heq. subst x. apply list_elem_of_In, Hx.
Qed.

(** X17. The file filter and the schema agree on extensions: a file whose
    extension, lowercased, is one of .wav, .mp3, .flac, .ogg and .m4a is
    accepted by the filter whatever its MIME type says, and the format
    the registration derives from its name is one the schema's validator
    accepts. *)
Theorem accepted_extension_is_a_format (pf : Platform) (part : Part) (file : File) :
  part_originalname part = originalname file ->
  has ALLOWED_EXTENSIONS (toLowerCase (path_extname pf (originalname file))) = true ->
  fileFilter pf part = Accepted /\
  trim (extension pf file) ∈ FORMATS.
Proof.
  intros Hname Hext. split.
  - unfold fileFilter. rewrite Hname, Hext. reflexivity.
  - unfold extension. rewrite toLowerCase_remove_first_dot.
    apply has_elem_of in Hext.
    repeat (apply elem_of_cons in Hext as [->|Hext];
            [apply (bool_decide_unpack _); vm_compute; exact I|]).
    apply elem_of_nil in Hext. contradiction.
Qed.

Lemma accepted_extension_is_a_format_witness :
  fileFilter sample_platform
    {| part_originalname := "Talk.FLAC"; part_mimetype := "application/octet-stream" |}
    = Accepted /\
  trim (extension sample_platform
          {| originalname := "Talk.FLAC"; path := "uploads/Talk_FLAC_1700000000003_5.flac";
             size := 7 |}) ∈ FORMATS.
Proof.
  apply (accepted_extension_is_a_format sample_platform
           {| part_originalname := "Talk.FLAC"; part_mimetype := "application/octet-stream" |}
           {| originalname := "Talk.FLAC"; path := "uploads/Talk_FLAC_1700000000003_5.flac";
              size := 7 |}).
  - reflexivity.
  - reflexivity.
Defined.

Lemma all_safe_sanitise (s : string) : all_safe (sanitise s) = true.
Proof.
  induction s as [|c s IH]; [reflexivity|]. simpl. rewrite IH.
  destruct (is_safe c) eqn:E; [rewrite E|]; reflexivity.
Qed.

Lemma all_safe_slice0 (n : nat) (s : string) : all_safe s = true -> all_safe (slice0 n s) = true.
Proof.
  revert s. induction n as [|n IH]; intros s Hs; [reflexivity|].
  destruct s as [|c s]; [reflexivity|]. simpl in *.
  apply andb_true_iff in Hs as [Hc Hs]. rewrite Hc. apply IH, Hs.
Qed.

Lemma length_slice0 (n : nat) (s : string) : String.length (slice0 n s) <= n.
Proof.
  revert s. induction n as [|n IH]; intros s; [simpl; lia|].
  destruct s as [|c s]; simpl; [lia|]. specialize (IH s). lia.
Qed.

Lemma sanitise_safe (s : string) : all_safe s = true -> sanitise s = s.
Proof.
  induction s as [|c s IH]; [reflexivity|]. simpl. intros H.
  apply andb_true_iff in H as [Hc Hs]. rewrite Hc, IH by exact Hs. reflexivity.
Qed.

(** X18. The base of the name under which multer stores an upload has at
    most 60 characters, each of them an ASCII letter, a digit, [_] or [-],
    whatever the client called the file: no dot, slash or space of the
    client's name reaches the disk through it, and sanitising it again
    changes nothing. *)
Theorem stored_base_is_safe (pf : Platform) (basename_ext : string -> string -> string)
    (file : Part) :
  all_safe (stored_base pf basename_ext file) = true /\
  String.length (stored_base pf basename_ext file) <= 60 /\
  sanitise (stored_base pf basename_ext file) = stored_base pf basename_ext file.
Proof.
  assert (H : all_safe (stored_base pf basename_ext file) = true).
  { unfold stored_base. apply all_safe_slice0, all_safe_sanitise. }
  split; [exact H|]. split; [apply length_slice0|apply sanitise_safe, H].
Qed.

(** ** The global error handler *)





(** ** The browser's client *)

(** X20. A failure answer of the server reaches the browser with its
    message: for an answer whose [message] is not empty the response
    interceptor rejects with that message, the HTTP status and the body,
    whatever [error] detail the body carries besides (the detail of a
    failed upload is dropped); when there was no response at all it
    rejects with status 0, no data, and the message of axios or, if that
    is empty, "An unexpected error occurred.". *)
Theorem client_shows_server_message (pf : Platform) (res : Response) (st : N)
    (code : option string) (axmsg : string) :
  (res_message res <> "" ->
   normalise pf {| ax_code := code; ax_response := Some (st, failure_body res);
                   ax_message := axmsg |} =
   {| ce_message := res_message res; ce_status := st; ce_data := failure_body res |}) /\
  normalise pf {| ax_code := code; ax_response := None; ax_message := axmsg |} =
  {| ce_message := if String.eqb axmsg "" then "An unexpected error occurred." else axmsg;
     ce_status := 0; ce_data := JNull |}.
Proof.
  split.
  - intros Hmsg. unfold normalise, failure_body. cbn.
    unfold js_or at 1. cbn [truthy].
    destruct (String.eqb (res_message res) "") eqn:E.
    + apply String.eqb_eq in E. contradiction.
    + reflexivity.
  - unfold normalise. cbn. unfold js_or. cbn [truthy].
    destruct (String.eqb axmsg ""); reflexivity.
Qed.

Lemma client_shows_server_message_witness :
  normalise sample_platform
    {| ax_code := Some "ERR_BAD_RESPONSE";
       ax_response :=
         Some (500%N, failure_body (upload_failure sample_platform
                                      (ValidationError [PFormat])));
       ax_message := "Request failed with status code 500" |} =
  {| ce_message := "Upload processing failed."; ce_status := 500;
     ce_data := failure_body (upload_failure sample_platform (ValidationError [PFormat])) |}.
Proof.
  apply (client_shows_server_message sample_platform
           (upload_failure sample_platform (ValidationError [PFormat])) 500
           (Some "ERR_BAD_RESPONSE") "Request failed with status code 500").
  discriminate.
Defined.

(** ** Rounding and formatting *)

Lemma js_round_range (lo hi : Z) (q : Q) :
  (inject_Z lo <= q)%Q -> (q <= inject_Z hi)%Q ->
  exists z, js_round q = inject_Z z /\ (lo <= z <= hi)%Z.
Proof.
  intros Hlo Hhi. unfold js_round. eexists. split; [reflexivity|]. split.
  - rewrite <- (Qfloor_Z lo). apply Qfloor_resp_le. lra.
  - pose proof (Qfloor_le (q + (1 # 2))) as H.
    assert (H2 : (inject_Z (Qfloor (q + (1 # 2))) < inject_Z (hi + 1))%Q).
    { rewrite inject_Z_plus. change (inject_Z 1) with 1%Q. lra. }
    rewrite <- Zlt_Qlt in H2. lia.
Qed.

Lemma percent_fraction (loaded t : Q) :
  (0 < t)%Q -> (0 <= loaded)%Q -> (loaded <= t)%Q ->
  (0 <= loaded * 100 / t)%Q /\ (loaded * 100 / t <= 100)%Q.
Proof.
  intros Ht Hl Hle. split.
  - apply Qle_shift_div_l; [exact Ht|]. lra.
  - apply Qle_shift_div_r; [exact Ht|]. lra.
Qed.

(** X21. The percentage the browser reports while a file is uploading is a
    whole number between 0 and 100, does not decrease as more bytes are
    sent, and is 100 when all are; nothing is reported for an event
    without a total. *)
Theorem upload_percent_in_range (loaded loaded' t : Q) :
  (0 < t)%Q -> (0 <= loaded)%Q -> (loaded <= loaded')%Q -> (loaded' <= t)%Q ->
  (exists z z',
     upload_percent loaded (Some t) = Some (inject_Z z) /\
     upload_percent loaded' (Some t) = Some (inject_Z z') /\
     (0 <= z <= z')%Z /\ (z' <= 100)%Z) /\
  upload_percent t (Some t) = Some (inject_Z 100) /\
  upload_percent loaded None = None /\
  upload_percent loaded (Some 0%Q) = None.
Proof.
  intros Ht Hl Hle Hle'.
  assert (Hz : Qeq_bool t 0 = false).
  { destruct (Qeq_bool t 0) eqn:E; [|reflexivity]. apply Qeq_bool_eq in E. lra. }
  unfold upload_percent. rewrite Hz. split; [|split; [|split; reflexivity]].
  - destruct (percent_fraction loaded t Ht Hl ltac:(lra)) as [H1 H2].
    destruct (percent_fraction loaded' t Ht ltac:(lra) Hle') as [H1' H2'].
    unfold js_round. eexists _, _. split; [reflexivity|]. split; [reflexivity|].
    assert (Hmono : (loaded * 100 / t <= loaded' * 100 / t)%Q).
    { apply Qle_shift_div_l; [exact Ht|].
      assert (E : (loaded * 100 / t * t == loaded * 100)%Q) by (field; lra).
      rewrite E. lra. }
    repeat split.
    + rewrite <- (Qfloor_Z 0). apply Qfloor_resp_le. change (inject_Z 0) with 0%Q. lra.
    + apply Qfloor_resp_le. lra.
    + destruct (js_round_range 0 100 (loaded' * 100 / t) H1' H2') as (z & Hz' & _ & Hhi).
      unfold js_round in Hz'. apply (f_equal Qfloor) in Hz'. rewrite !Qfloor_Z in Hz'.
      rewrite Hz'. exact Hhi.
  - f_equal. unfold js_round. f_equal.
    assert (E : (t * 100 / t + (1 # 2) == 100 + (1 # 2))%Q) by (field; lra).
    rewrite (Qfloor_comp _ _ E). reflexivity.
Qed.

Lemma upload_percent_in_range_witness :
  (exists z z',
     upload_percent 1024 (Some 4096%Q) = Some (inject_Z z) /\
     upload_percent 3000 (Some 4096%Q) = Some (inject_Z z') /\
     (0 <= z <= z')%Z /\ (z' <= 100)%Z) /\
  upload_percent 4096 (Some 4096%Q) = Some (inject_Z 100) /\
  upload_percent 1024 None = None /\
  upload_percent 1024 (Some 0%Q) = None.
Proof.
  apply (upload_percent_in_range 1024 3000 4096); vm_compute; first [reflexivity|discriminate].
Defined.

Lemma two_digits (s : Z) : (0 <= s < 60)%Z -> String.length (padStart2 (pretty s)) = 2.
Proof.
  intros Hs.
  assert (H : forallb (fun n => Nat.eqb (String.length (padStart2 (pretty (Z.of_nat n)))) 2)
                (seq 0 60) = true) by (vm_compute; reflexivity).
  rewrite forallb_forall in H. specialize (H (Z.to_nat s)).
  rewrite Z2Nat.id in H by lia. apply Nat.eqb_eq, H, in_seq. lia.
Qed.

(** X22. The formatted duration of a record with a duration that is not
    negative is the whole minutes, a colon and the whole seconds left over,
    the seconds always written with two digits, between 00 and 59 (the
    runtime printing the seconds in decimal). *)
Theorem duration_seconds_two_digits (pf : Platform) (a : Audio) (d : Q) :
  duration a = Some d ->
  (0 <= d)%Q ->
  number_to_string pf (inject_Z (Qfloor (js_rem d 60))) = pretty (Qfloor (js_rem d 60)) ->
  exists (m s : Z) (secs : string),
    durationFormatted pf a =
      JStr (number_to_string pf (inject_Z m) +:+ ":" +:+ secs) /\
    (0 <= m)%Z /\ (0 <= s < 60)%Z /\
    (inject_Z (60 * m + s) <= d)%Q /\ (d < inject_Z (60 * m + s + 1))%Q /\
    secs = padStart2 (pretty s) /\ String.length secs = 2.
Proof.
  intros Hd Hpos Hprint. unfold durationFormatted. rewrite Hd, Hprint.
  set (m := Qfloor (d / 60)). set (s := Qfloor (js_rem d 60)).
  assert (Hm1 : (inject_Z m <= d / 60)%Q) by apply Qfloor_le.
  assert (Hm2 : (d / 60 < inject_Z (m + 1))%Q) by apply Qlt_floor.
  rewrite inject_Z_plus in Hm2. change (inject_Z 1) with 1%Q in Hm2.
  assert (Hd60 : (d / 60 * 60 == d)%Q) by (field; lra).
  assert (Hge : (0 <= d / 60)%Q) by (apply Qle_shift_div_l; lra).
  assert (Htr : js_trunc (d / 60) = m).
  { unfold js_trunc. destruct (Qle_bool 0 (d / 60)) eqn:E; [reflexivity|].
    assert (E' : Qle_bool 0 (d / 60) = true) by (apply Qle_bool_iff, Hge). congruence. }
  assert (Hrem : (js_rem d 60 == d - 60 * inject_Z m)%Q).
  { unfold js_rem. rewrite Htr. reflexivity. }
  assert (Hs1 : (inject_Z s <= js_rem d 60)%Q) by apply Qfloor_le.
  assert (Hs2 : (js_rem d 60 < inject_Z (s + 1))%Q) by apply Qlt_floor.
  rewrite inject_Z_plus in Hs2. change (inject_Z 1) with 1%Q in Hs2.
  rewrite Hrem in Hs1, Hs2.
  assert (Hm0 : (0 <= m)%Z).
  { unfold m. rewrite <- (Qfloor_Z 0). apply Qfloor_resp_le. exact Hge. }
  assert (Hs0 : (0 <= s < 60)%Z).
  { split.
    - unfold s. rewrite <- (Qfloor_Z 0). apply Qfloor_resp_le. rewrite Hrem.
      change (inject_Z 0) with 0%Q. lra.
    - assert (H : (inject_Z s < inject_Z 60)%Q).
      { change (inject_Z 60) with 60%Q. lra. }
      rewrite <- Zlt_Qlt in H. exact H. }
  exists m, s, (padStart2 (pretty s)). split; [reflexivity|].
  split; [exact Hm0|]. split; [exact Hs0|].
  rewrite !inject_Z_plus, inject_Z_mult. change (inject_Z 60) with 60%Q.
  change (inject_Z 1) with 1%Q.
  split; [lra|]. split; [lra|]. split; [reflexivity|apply two_digits, Hs0].
Qed.

Lemma duration_seconds_two_digits_witness :
  exists (m s : Z) (secs : string),
    durationFormatted sample_platform (put_duration (Some (18442 # 100)) sample_audio) =
      JStr (number_to_string sample_platform (inject_Z m) +:+ ":" +:+ secs) /\
    (0 <= m)%Z /\ (0 <= s < 60)%Z /\
    (inject_Z (60 * m + s) <= 18442 # 100)%Q /\ (18442 # 100 < inject_Z (60 * m + s + 1))%Q /\
    secs = padStart2 (pretty s) /\ String.length secs = 2.
Proof.
  apply (duration_seconds_two_digits sample_platform
           (put_duration (Some (18442 # 100)) sample_audio) (18442 # 100)).
  - reflexivity.
  - vm_compute. discriminate.
  - vm_compute. reflexivity.
Defined.

Example duration_of_three_minutes_four :
  durationFormatted sample_platform (put_duration (Some (18442 # 100)) sample_audio)
  = JStr "3:04".
Proof. vm_compute. reflexivity. Qed.

(** ** Every stored record is valid *)

Lemma copy_path_path_ok (p0 : Path) (src : Audio) (p : Path) (dst : Audio) :
  path_ok (copy_path src p dst) p0 = if decide (p = p0) then path_ok src p0 else path_ok dst p0.
Proof.
  destruct (decide (p = p0)) as [->|Hne].
  - destruct p0; reflexivity.
  - destruct p, p0; try reflexivity; contradiction.
Qed.

Lemma write_paths_path_ok (p0 : Path) (ps : list Path) (src cur : Audio) :
  path_ok (write_paths ps src cur) p0 =
  if decide (p0 ∈ ps) then path_ok src p0 else path_ok cur p0.
Proof.
  apply (write_paths_proj (fun a => path_ok a p0) p0). intros. apply copy_path_path_ok.
Qed.

Lemma lowercase_format_ok (s : string) :
  enum_ok FORMATS (Some s) = true -> enum_ok FORMATS (Some (toLowerCase s)) = true.
Proof.
  unfold enum_ok. intros H. apply existsb_exists in H as (x & Hx & Heq).
  apply String.eqb_eq in Heq. subst x. apply list_elem_of_In in Hx.
  repeat (apply elem_of_cons in Hx as [->|Hx]; [reflexivity|]).
  apply elem_of_nil in Hx. contradiction.
Qed.

Lemma preSave_path_ok (d : Document) (p : Path) :
  path_ok (doc d) PFormat = true ->
  path_ok (doc d) p = true -> path_ok (doc (preSave d)) p = true.
Proof.
  intros Hf Hp. unfold preSave. destruct (format (doc d)) as [s|] eqn:E; [|exact Hp].
  destruct (String.eqb s ""); [exact Hp|].
  destruct p; try exact Hp.
  cbn. cbn in Hf. rewrite E in Hf. apply lowercase_format_ok, Hf.
Qed.

Lemma all_valid_insert (db : gmap string Audio) (id : ObjectId) (a : Audio) :
  all_valid db -> record_valid a -> all_valid (<[id := a]> db).
Proof.
  intros Hdb Ha id' a' Hl. destruct (decide (id = id')) as [->|Hne].
  - rewrite lookup_insert_eq in Hl. injection Hl as <-. exact Ha.
  - rewrite lookup_insert_ne in Hl by exact Hne. eapply Hdb, Hl.
Qed.

Lemma complete_valid (pf : Platform) (id : ObjectId) (op : Completion)
    (db db' : gmap string Audio) (r : JsError + Document) :
  all_valid db -> complete pf id op db = (db', r) -> all_valid db'.
Proof.
  intros Hdb Hc. unfold complete in Hc.
  destruct (db !! id) as [a|] eqn:Ha; [|injection Hc as <- _; exact Hdb].
  destruct (loaded_not_new id a op pf) as [Hnew Hid].
  rewrite (save_loaded _ db a) in Hc by (rewrite ?Hid; assumption).
  set (d := apply_completion pf op (loaded id a)) in *.
  destruct (validation_errors d) eqn:Hv; [|injection Hc as <- _; exact Hdb].
  injection Hc as <- _. rewrite Hid. apply all_valid_insert; [exact Hdb|].
  intros p. rewrite write_paths_path_ok.
  assert (Hfmt : path_ok (doc d) PFormat = true).
  { cbn. unfold d. rewrite completion_format. exact (Hdb id a Ha PFormat). }
  destruct (decide (p ∈ modified (preSave d))) as [Hin|_]; [|exact (Hdb id a Ha p)].
  apply preSave_path_ok; [exact Hfmt|].
  apply preSave_modified in Hin as [->|Hin]; [exact Hfmt|].
  apply validation_passed in Hv as [_ Hok]. apply Hok.
  unfold validated_paths. rewrite Hnew. exact Hin.
Qed.

(** X23. Every stored record passes every validator of the schema, after
    whatever request: a name that is not blank, a format and an
    enhancement model of the schema's lists (or null), duration, sample
    rate, size and bitrate not negative, between 1 and 8 channels, the two
    scores within [0, 100]. *)
Theorem stored_records_stay_valid (pf : Platform) (rm : Remote) (req : Request)
    (w w' : World) (tr : list Action) (r : JsError + option Response) :
  all_valid (db w) ->
  run rm (serve pf req) w = (w', tr, r) ->
  all_valid (db w').
Proof.
  intros Hdb Hrun. destruct req as [file i|m body|i|i]; simpl in Hrun.
  - destruct file as [f|]; [|simpl in Hrun; injection Hrun as <- _ _; exact Hdb].
    rewrite upload_closed_form in Hrun. unfold upload_run in Hrun.
    destruct (upload_attempt pf rm f i) as [err|d] eqn:Hat.
    { injection Hrun as <- _ _. rewrite db_unlinked. exact Hdb. }
    destruct (save d (db w)) as [db' [err|saved]] eqn:Hsave.
    { injection Hrun as <- _ _. rewrite db_unlinked. exact Hdb. }
    injection Hrun as <- _ _. cbn [db with_db].
    apply save_inv in Hsave.
    inversion Hsave as [| | |Hv Hn Hl|cur Hv Hn Hl]; subst.
    + apply all_valid_insert; [exact Hdb|].
      apply validation_passed in Hv as [_ Hok].
      unfold validated_paths in Hok. rewrite Hn in Hok.
      assert (Hall : forall p, path_ok (doc d) p = true).
      { intros p. apply Hok. unfold all_paths. destruct p;
          repeat (first [apply list_elem_of_here | apply list_elem_of_further]). }
      intros p. apply preSave_path_ok; apply Hall.
    + exfalso. unfold upload_attempt in Hat.
      destruct (probed_streams (ffprobe rm (path f))); try discriminate.
      destruct (find_audio_result items); [discriminate|]. injection Hat as <-.
      unfold upload_document in Hn. rewrite new_Audio_isNew in Hn. discriminate.
  - destruct (handler_cases pf rm m body w) as [[r0 H0]|(audioId & id & a & src & Hrec & Hsrc)].
    { rewrite H0 in Hrun. injection Hrun as <- _ _. exact Hdb. }
    rewrite (module_run_closed_form pf rm m w body audioId id a src Hrec Hsrc) in Hrun.
    destruct Hrec as (_ & _ & _ & Ha).
    destruct (module_run_stored pf rm m body audioId id a src w w' tr r Ha Hrun)
      as [->|(result & saved & _ & Hc)]; [exact Hdb|].
    eapply complete_valid; eassumption.
  - intros id a Hl. apply (Hdb id a).
    apply (no_saves_db (getAudio pf i) rm w id a (no_saves_getAudio pf i)).
    rewrite Hrun. exact Hl.
  - intros id a Hl. apply (Hdb id a).
    apply (no_saves_db (deleteAudio pf i) rm w id a (no_saves_deleteAudio pf i)).
    rewrite Hrun. exact Hl.
Qed.

Lemma stored_records_stay_valid_witness :
  all_valid (db (run (answering score_87)
                   (serve sample_platform (RunModule Quality sample_body)) sample_world).1.1).
Proof.
  eapply (stored_records_stay_valid sample_platform (answering score_87)
            (RunModule Quality sample_body) sample_world).
  - intros id a Hl.
    change (db sample_world) with ({[sample_id := sample_audio]} : gmap string Audio) in Hl.
    apply lookup_singleton_Some in Hl as [_ <-]. intros p. destruct p; reflexivity.
  - vm_compute. reflexivity.
Defined.

(** ** Settings that are null *)

(** X24. An enhancement request whose [settings] are [null] fails inside
    the gateway, on reading the first setting, before anything is posted:
    the run broadcasts processing and error, answers 502 and stores
    nothing, and the Python service plays no part in it. *)
Theorem null_settings_fail_before_the_call (pf : Platform) (rm rm' : Remote) (w : World)
    (body audioId : JsVal) (id : ObjectId) (a : Audio) (src : string) :
  names_record pf w body audioId id a ->
  source_at w a src ->
  prop "settings" body = Some JNull ->
  run rm (enhanceAudio pf body) w = run rm' (enhanceAudio pf body) w /\
  exists w' err,
    run rm (enhanceAudio pf body) w =
      (w',
       [Emitted (processing_event Enhancement audioId);
        GatewayBegan "/enhance"; GatewayEnded "/enhance";
        Emitted (error_event pf Enhancement audioId err)],
       inr (Some (failure 502 (err_message pf err)))) /\
    db w' = db w.
Proof.
  intros Hrec Hsrc Hset.
  assert (H : forall r, gateway_outcome pf r Enhancement body a src w
                        = inl (TypeError "noiseReductionStrength")).
  { intros r. unfold gateway_outcome, request_form, request_settings.
    rewrite (opt_prop_of_prop _ _ _ Hset). reflexivity. }
  rewrite !(enhance_closed_form pf _ w body audioId id a src Hrec Hsrc).
  unfold module_run. rewrite !H. split; [reflexivity|].
  eexists _, _. split; [reflexivity|]. rewrite !db_broadcast. reflexivity.
Qed.

Lemma null_settings_fail_before_the_call_witness :
  run scoring (enhanceAudio sample_platform null_settings_body) sample_world =
  run (rejecting refused) (enhanceAudio sample_platform null_settings_body) sample_world.
Proof.
  apply (null_settings_fail_before_the_call sample_platform scoring (rejecting refused)
           sample_world null_settings_body (JStr sample_id) sample_id sample_audio
           "uploads/clip_1700000000000_42.wav").
  - repeat split; vm_compute; reflexivity.
  - split; [reflexivity|]. apply (bool_decide_unpack _). vm_compute. exact I.
  - reflexivity.
Defined.

(** ** Requests that are not module runs *)

Lemma wss_unlinked (p : string) (w : World) : wss (unlinked p w) = wss w.
Proof.
  unfold unlinked. destruct (String.eqb p ""); [reflexivity|].
  destruct (bool_decide (p ∈ fs w)); reflexivity.
Qed.

Lemma getAudio_world (pf : Platform) (rm : Remote) (id : JsVal) (w : World) :
  exists res, run rm (getAudio pf id) w = (w, [], inr (Some res)).
Proof.
  unfold getAudio, with_record. destruct (to_object_id pf id) as [i|].
  - simpl. destruct (db w !! i) as [a|]; simpl; eexists; reflexivity.
  - eexists. reflexivity.
Qed.

(** X25. Registering, reading and deleting broadcast nothing and call the
    Python service for nothing: their log is empty, and the clients are
    as they were. Progress messages come from module runs only. *)
Theorem only_module_runs_are_logged (pf : Platform) (rm : Remote) (req : Request) (w : World) :
  (forall m body, req <> RunModule m body) ->
  (run rm (serve pf req) w).1.2 = [] /\
  wss (run rm (serve pf req) w).1.1 = wss w.
Proof.
  intros Hreq. destruct req as [file i|m body|i|i]; simpl.
  - destruct file as [f|]; [|split; reflexivity].
    rewrite upload_closed_form. unfold upload_run.
    destruct (upload_attempt pf rm f i) as [err|d]; simpl.
    { split; [reflexivity|apply wss_unlinked]. }
    destruct (save d (db w)) as [db' [err|saved]]; simpl.
    { split; [reflexivity|apply wss_unlinked]. }
    split; reflexivity.
  - exfalso. apply (Hreq m body). reflexivity.
  - destruct (getAudio_world pf rm i w) as (res & H). rewrite H. split; reflexivity.
  - unfold deleteAudio, with_record. destruct (to_object_id pf i) as [j|]; [|split; reflexivity].
    cbn [bind trigger run perform observe app].
    destruct (db w !! j) as [a|]; [|split; reflexivity].
    cbn [fmap option_fmap option_map loaded doc _id].
    destruct (unlinked_world rm (originalPath a) w) as (w1 & H1 & _ & _ & Hw1).
    destruct (unlinked_world rm (enhancedPath a) w1) as (w2 & H2 & _ & _ & Hw2).
    rewrite run_bind, H1. cbn beta iota. rewrite run_bind, H2. simpl.
    split; [reflexivity|]. rewrite Hw2, Hw1. reflexivity.
Qed.

Lemma only_module_runs_are_logged_witness :
  (run scoring (serve sample_platform (Delete (JStr sample_id))) library_world).1.2 = [] /\
  wss (run scoring (serve sample_platform (Delete (JStr sample_id))) library_world).1.1
    = wss library_world.
Proof.
  apply (only_module_runs_are_logged sample_platform scoring (Delete (JStr sample_id))
           library_world).
  intros m body. discriminate.
Defined.

(** ** The document a save returns *)

(** X26. The record an accepted save stores is the document it hands
    back, minimized: as an insert minimizes it for a new document, and as
    an update does for a completion operation on a minimized record loaded
    from the collection it is saved to. The document handed back keeps
    its values as they were assigned, so that it shows the stored
    [processing] (the enhancement answer reads it off that document), and
    may show empty objects in a Results entry that the stored record has
    not. *)
Theorem stored_is_saved_document_minimized (pf : Platform) (id : ObjectId)
    (op : Completion) (d : Document) (a : Audio) (db db' : gmap string Audio)
    (saved : Document) :
  (isNew d = true -> save d db = (db', inr saved) ->
   db' !! _id d = Some (inserted (doc saved))) /\
  (db !! id = Some a -> minimized a -> complete pf id op db = (db', inr saved) ->
   db' !! id = Some (updated (doc saved)) /\
   processing (updated (doc saved)) = processing (doc saved)).
Proof.
  split.
  - intros Hnew Hs. apply save_inv in Hs.
    inversion Hs as [| | |Hv Hn Hl|cur Hv Hn Hl]; subst; [|congruence].
    apply lookup_insert_eq.
  - intros Ha Hmin Hc.
    destruct (complete_accepted pf id op db db' saved a Ha Hc) as (_ & -> & -> & Ht).
    rewrite lookup_insert_eq. split; [|reflexivity]. f_equal.
    apply (stored_minimized a _ Ht Hmin).
Qed.

Lemma stored_is_saved_document_minimized_witness :
  (complete sample_platform sample_id (SaveAQI (JNum 87) score_87) (db sample_world)).1
    !! sample_id =
  Some (updated (doc (clean (preSave (apply_completion sample_platform
                                        (SaveAQI (JNum 87) score_87)
                                        (loaded sample_id sample_audio)))))) /\
  processing (updated (doc (clean (preSave (apply_completion sample_platform
                                              (SaveAQI (JNum 87) score_87)
                                              (loaded sample_id sample_audio)))))) =
  processing (doc (clean (preSave (apply_completion sample_platform
                                     (SaveAQI (JNum 87) score_87)
                                     (loaded sample_id sample_audio))))).
Proof.
  apply (stored_is_saved_document_minimized sample_platform sample_id
           (SaveAQI (JNum 87) score_87) (loaded sample_id sample_audio) sample_audio
           (db sample_world)).
  - vm_compute. reflexivity.
  - reflexivity.
  - vm_compute. reflexivity.
Defined.

(** ** Running a completion again *)

(** X27. A completion operation is idempotent: once it has been stored,
    performing it again with the same arguments on the record as it now
    is leaves the collection as it is. *)
Theorem completion_is_idempotent (pf : Platform) (id : ObjectId) (op : Completion)
    (db db1 : gmap string Audio) (s1 : Document) :
  complete pf id op db = (db1, inr s1) ->
  exists s2, complete pf id op db1 = (db1, inr s2).
Proof.
  intros Hc. destruct (db !! id) as [a|] eqn:Ha.
  2:{ unfold complete in Hc. rewrite Ha in Hc. discriminate. }
  destruct (complete_accepted pf id op db db1 s1 a Ha Hc) as (Hv1 & _ & -> & Ht1).
  set (d1 := apply_completion pf op (loaded id a)) in *.
  set (a1 := write_paths (modified (preSave d1)) (updated (doc (preSave d1))) a).
  set (d2 := apply_completion pf op (loaded id a1)).
  assert (Hinv : invalid d1 = []).
  { unfold validation_errors in Hv1. apply app_eq_nil in Hv1 as [H _]. exact H. }
  assert (Hfmt : format a1 =
                 match format a with Some s => Some (toLowerCase s) | None => None end).
  { unfold a1. rewrite (stored_format a (preSave d1) Ht1). unfold d1.
    rewrite preSave_format, completion_format. reflexivity. }
  assert (Hfmt2 : format (doc (preSave d2)) = format a1).
  { unfold d2. rewrite preSave_format, completion_format, Hfmt.
    destruct (format a) as [s|]; [rewrite toLowerCase_idem|]; reflexivity. }
  assert (Hval : forall p, p ∈ module_paths (module_of op) ->
            value_at p (doc d2) = value_at p (doc d1)).
  { intros p HP. symmetry. apply completion_values; assumption. }
  assert (Hst : forall p, p <> PFormat ->
            value_at p a1 =
            if is_result p && bool_decide (p ∈ modified d1)
            then store_mixed (value_at p (doc d1)) else value_at p (doc d1)).
  { intros p Hpf. apply completion_stored_value, Hpf. }
  assert (Ht2 : tracks a1 d2) by apply tracks_completion.
  assert (Ht2' : tracks a1 (preSave d2)) by apply tracks_saved.
  assert (HP2 : forall p, p ∈ modified d2 ->
            p ∈ module_paths (module_of op) /\ p <> PFormat).
  { intros p Hin. apply completion_marks in Hin. split; [exact Hin|].
    intros ->. exact (module_paths_format _ Hin). }
  (* what the second run marks was stored minimized by the first *)
  assert (Hmarked : forall p, p ∈ modified d2 ->
            is_result p = true /\ value_at p a1 = store_mixed (value_at p (doc d2))).
  { intros p Hin. destruct (HP2 p Hin) as [HP Hpf].
    destruct Ht2 as [_ Ht2]. apply Ht2 in Hin.
    rewrite (Hval p HP) in Hin |- *. rewrite (Hst p Hpf) in Hin |- *.
    destruct (is_result p && bool_decide (p ∈ modified d1)) eqn:E; [|contradiction].
    apply andb_true_iff in E as [E _]. split; [exact E|reflexivity]. }
  assert (Hnew2 : isNew d2 = false /\ _id d2 = id) by apply loaded_not_new.
  destruct Hnew2 as [Hnew2 Hid2].
  assert (Hinv2 : invalid d2 = []).
  { rewrite <- Hinv. symmetry. apply completion_invalid. }
  assert (Hv2 : validation_errors d2 = []).
  { unfold validation_errors, validated_paths. rewrite Hnew2, Hinv2.
    apply filter_none. intros p Hin. destruct (Hmarked p Hin) as [Hr _].
    rewrite (result_path_ok _ p Hr). reflexivity. }
  unfold complete. rewrite lookup_insert_eq. fold d2.
  rewrite (save_loaded d2 _ a1) by first [assumption | rewrite Hid2; apply lookup_insert_eq].
  rewrite Hv2, Hid2. eexists. f_equal. rewrite insert_insert_eq. f_equal.
  apply value_at_ext. intros p.
  rewrite (stored_value a1 (preSave d2) p Ht2').
  destruct (decide (p ∈ modified (preSave d2))) as [Hin|Hnin].
  - apply preSave_modified in Hin as [->|Hin].
    + cbn [is_result andb value_at]. rewrite Hfmt2. reflexivity.
    + destruct (HP2 p Hin) as [HP Hpf]. destruct (Hmarked p Hin) as [Hr ->].
      rewrite Hr, (preSave_value d2 p Hpf).
      rewrite bool_decide_eq_true_2 by (apply preSave_modified_incl, Hin). reflexivity.
  - rewrite bool_decide_eq_false_2 by exact Hnin. rewrite andb_false_r.
    apply (tracks_unmarked a1 (preSave d2) p Ht2' Hnin).
Qed.

Lemma completion_is_idempotent_witness :
  exists s2,
    complete sample_platform sample_id (SaveAQI (JNum 87) score_87)
      (complete sample_platform sample_id (SaveAQI (JNum 87) score_87) (db sample_world)).1 =
    ((complete sample_platform sample_id (SaveAQI (JNum 87) score_87) (db sample_world)).1,
     inr s2).
Proof.
  apply (completion_is_idempotent sample_platform sample_id (SaveAQI (JNum 87) score_87)
           (db sample_world) _
           (clean (preSave (apply_completion sample_platform (SaveAQI (JNum 87) score_87)
                              (loaded sample_id sample_audio))))).
  vm_compute. reflexivity.
Defined.

(** ** What the progress messages say *)

(** X28. Every progress message of a module run names the module of the
    run and the [audioId] of its request, and carries an error text
    exactly when its status is error. *)
Theorem progress_messages_name_their_run (pf : Platform) (rm : Remote) (m : Module)
    (body : JsVal) (w : World) (msg : Progress) :
  msg ∈ emitted (run rm (handler pf m body) w).1.2 ->
  ev_module msg = module_name m /\
  prop "audioId" body = Some (ev_audioId msg) /\
  (ev_error msg = None <-> ev_status msg <> SError).
Proof.
  intros Hmsg.
  destruct (handler_cases pf rm m body w) as [[r0 H0]|(audioId & id & a & src & Hrec & Hsrc)].
  { rewrite H0 in Hmsg. apply elem_of_nil in Hmsg. contradiction. }
  rewrite (module_run_closed_form pf rm m w body audioId id a src Hrec Hsrc) in Hmsg.
  destruct Hrec as (Hb & _).
  assert (Hev : msg = processing_event m audioId \/ msg = complete_event m audioId \/
                exists err, msg = error_event pf m audioId err).
  { unfold module_run, caught in Hmsg.
    destruct (gateway_outcome pf rm m body a src w) as [err|result]; cbn in Hmsg.
    { repeat (apply elem_of_cons in Hmsg as [->|Hmsg]; eauto).
      apply elem_of_nil in Hmsg. contradiction. }
    destruct (completion pf m body id a result) as [err|d]; cbn in Hmsg.
    { repeat (apply elem_of_cons in Hmsg as [->|Hmsg]; eauto).
      apply elem_of_nil in Hmsg. contradiction. }
    destruct (save d (db w)) as [db' [err|saved]]; cbn in Hmsg.
    { repeat (apply elem_of_cons in Hmsg as [->|Hmsg]; eauto).
      apply elem_of_nil in Hmsg. contradiction. }
    destruct (answer pf m body audioId result saved) as [err|res]; cbn in Hmsg.
    { repeat (apply elem_of_cons in Hmsg as [->|Hmsg]; eauto).
      apply elem_of_nil in Hmsg. contradiction. }
    repeat (apply elem_of_cons in Hmsg as [->|Hmsg]; eauto).
    apply elem_of_nil in Hmsg. contradiction. }
  destruct Hev as [->|[->|[err ->]]]; cbn; (split; [reflexivity|]); (split; [exact Hb|]);
    split; intros H; try reflexivity; try discriminate; try congruence.
Qed.

Lemma progress_messages_name_their_run_witness :
  ev_module (processing_event Quality (JStr sample_id)) = module_name Quality /\
  prop "audioId" sample_body = Some (ev_audioId (processing_event Quality (JStr sample_id))) /\
  (ev_error (processing_event Quality (JStr sample_id)) = None <->
   ev_status (processing_event Quality (JStr sample_id)) <> SError).
Proof.
  apply (progress_messages_name_their_run sample_platform (answering score_87) Quality
           sample_body sample_world (processing_event Quality (JStr sample_id))).
  vm_compute. left.
Defined.
